(** * Personal AI Employee: watchers and orchestrator

    A shallow embedding of [src/watchers/base_watcher.py],
    [src/watchers/filesystem_watcher.py] and [src/orchestrator.py], and the
    properties of the workflow core stated over it.

    Python values are modelled as follows.
    - A [str] is the list of its Unicode code points ([pystr]).
    - A [set] that is only tested for membership and added to is a [gset];
      the one set that is turned into a list ([processed_ids]) keeps the
      sequence of its [add] calls, and the order in which the interpreter
      enumerates it is given by the runtime ([PySet]).
    - The file system, the clock, the external agent and the process's
      working directory are explicit state.

    What is left out: [KeyboardInterrupt]; the creation of folders and log
    files; failures of [os.getcwd], [os.chdir], [shutil.copy2], [unlink] and
    of [stat] on an entry just listed.  The observer's callback runs between
    two operations of the loop, never inside one.  A write of the
    dashboard always goes through.  The loop of [BaseWatcher.run] is not
    modelled: the one watcher overrides it.
    [_format_size] is modelled for sizes below [2^53] bytes, where its
    divisions are exact. *)

From Stdlib Require Import ZArith NArith String Ascii Decimal Lia.
From Stdlib Require Import DecimalPos DecimalN DecimalZ Sorted.
From stdpp Require Import base option list gmap sets.

Set Warnings "-clear-no-such-hyp".

(** ** The Python runtime: strings *)

Module Py.

Local Open Scope N_scope.

Abbreviation pystr := (list N).

(** An ASCII literal of the source. *)
Definition lit (s : string) : pystr :=
  N_of_ascii <$> list_ascii_of_string s.

Global Arguments lit : simpl never.

(** [str.isspace] on one code point: what [str.strip()] removes. *)
Definition is_space (c : N) : bool :=
  ((9 <=? c) && (c <=? 13)) || ((28 <=? c) && (c <=? 32))
  || (c =? 133) || (c =? 160) || (c =? 5760)
  || ((8192 <=? c) && (c <=? 8202))
  || (c =? 8232) || (c =? 8233) || (c =? 8239) || (c =? 8287)
  || (c =? 12288).

Fixpoint lstrip (s : pystr) : pystr :=
  match s with
  | c :: s' => if is_space c then lstrip s' else s
  | [] => []
  end.

(** [s.strip()] *)
Definition str_strip (s : pystr) : pystr :=
  reverse (lstrip (reverse (lstrip s))).

(** [s.split(sep)] for a one-character separator: never the empty list. *)
Fixpoint str_split (sep : N) (s : pystr) : list pystr :=
  match s with
  | [] => [[]]
  | c :: s' =>
      if c =? sep then [] :: str_split sep s'
      else match str_split sep s' with
           | l :: ls => (c :: l) :: ls
           | [] => [[c]]
           end
  end.

(** [sep.join(ls)] for a one-character separator. *)
Fixpoint str_join (sep : N) (ls : list pystr) : pystr :=
  match ls with
  | [] => []
  | [l] => l
  | l :: ls' => l ++ sep :: str_join sep ls'
  end.

(** [s.startswith(p)] *)
Fixpoint str_startswith (p s : pystr) : bool :=
  match p, s with
  | [], _ => true
  | a :: p', b :: s' => (a =? b) && str_startswith p' s'
  | _ :: _, [] => false
  end.

(** [p in s] for strings: [p] occurs in [s] as a substring. *)
Fixpoint str_contains (p s : pystr) : bool :=
  str_startswith p s || match s with
                    | [] => false
                    | _ :: s' => str_contains p s'
                    end.

(** [s.replace(a, b)] for one-character [a] and [b]. *)
Definition str_replace (a b : N) (s : pystr) : pystr :=
  (λ c, if c =? a then b else c) <$> s.

(** [s.rfind(c)] for a one-character [c]: the last index of [c], if any. *)
Fixpoint str_rfind (c : N) (s : pystr) : option nat :=
  match s with
  | [] => None
  | d :: s' =>
      match str_rfind c s' with
      | Some i => Some (S i)
      | None => if d =? c then Some 0%nat else None
      end
  end.

(** [s.lower()] on the ASCII letters.  The result is only ever used as a key
    of a table of ASCII keys without the letter k, into which no other code
    point lower-cases. *)
Definition str_lower (s : pystr) : pystr :=
  (λ c, if (65 <=? c) && (c <=? 90) then c + 32 else c) <$> s.

Fixpoint digits (u : Decimal.uint) : pystr :=
  match u with
  | Nil => []
  | D0 u => 48 :: digits u
  | D1 u => 49 :: digits u
  | D2 u => 50 :: digits u
  | D3 u => 51 :: digits u
  | D4 u => 52 :: digits u
  | D5 u => 53 :: digits u
  | D6 u => 54 :: digits u
  | D7 u => 55 :: digits u
  | D8 u => 56 :: digits u
  | D9 u => 57 :: digits u
  end.

(** [str(n)] for a natural number, as an f-string renders it. *)
Definition str_nat (n : nat) : pystr := digits (Nat.to_uint n).

(** [str(z)] for an integer. *)
Definition str_int (z : Z) : pystr :=
  match Z.to_int z with
  | Decimal.Pos u => digits u
  | Decimal.Neg u => 45 :: digits u
  end.

(** What text-mode reading does to line ends (universal newlines): CR LF and
    a lone CR both read as LF. *)
Fixpoint universal_newlines (s : pystr) : pystr :=
  match s with
  | [] => []
  | c :: s' =>
      if c =? 13 then
        10 :: match s' with
              | d :: s'' => if d =? 10 then universal_newlines s''
                            else universal_newlines s'
              | [] => []
              end
      else c :: universal_newlines s'
  end.

(** [s[:n]] *)
Definition prefix_slice (n : nat) (s : pystr) : pystr := take n s.

(** [l[-n:]] for a list: its last [n] elements, all of it when it is shorter. *)
Definition last_slice {A} (n : nat) (l : list A) : list A :=
  drop (length l - n) l.

(** ** The Python runtime: sets

    A [set] whose elements are later enumerated is kept as the sequence of
    its [add] calls, oldest first.  Membership ignores the order; the order
    of [list(s)] is the interpreter's. *)

Definition set_new {Id} : list Id := [].
Definition set_add {Id} (x : Id) (s : list Id) : list Id := s ++ [x].
(** [set(iterable)]: the elements are added in the order of the iterable. *)
Definition set_of {Id} (l : list Id) : list Id := foldl (λ s x, set_add x s) set_new l.

(** [list(s)]: the interpreter's enumeration of the set built by the given
    sequence of [add] calls. *)
Class PySet (Id : Type) := set_list : list Id → list Id.
Global Hint Mode PySet ! : typeclass_instances.

(** What the language promises of the enumeration: every element once. *)
Class PySetLawful (Id : Type) {Id_eq : EqDecision Id} {Id_set : PySet Id} : Prop :=
  set_list_perm : ∀ s : list Id, set_list s ≡ₚ remove_dups s.

(** An interpreter whose sets remember insertion order (PyPy's do). *)
Definition ordered_set_list {Id} `{EqDecision Id} (s : list Id) : list Id :=
  reverse (remove_dups (reverse s)).

(** *** CPython's set of integers

    [Objects/setobject.c]: an open-addressing table of [mask + 1] slots.  A
    key is looked for from slot [hash & mask], through up to nine following
    slots, then from the next slot of the perturbed sequence.  The table
    grows once three fifths of it are filled, and [list(s)] reads the slots
    in index order. *)

Record table := Table { t_mask : N; t_slots : list (option Z); t_fill : nat }.

Definition LINEAR_PROBES : N := 9.
Definition PERTURB_SHIFT : N := 5.
Definition PySet_MINSIZE : N := 8.

(** [hash(z)] of an [int], as the unsigned machine word that indexes the
    table: the value modulo [2^61 - 1] with the sign of [z], and [-2] for
    [-1]. *)
Definition int_hash (z : Z) : N :=
  let m := (2 ^ 61 - 1)%Z in
  let h := (Z.sgn z * (Z.abs z mod m))%Z in
  let h := if (h =? -1)%Z then (-2)%Z else h in
  Z.to_N (h mod 2 ^ 64).

(** The inner [do ... while (probes--)] loop: slots [i .. i + n].  [Some (j,
    true)] when slot [j] holds the key, [Some (j, false)] when it is free. *)
Fixpoint scan_slots (slots : list (option Z)) (key : Z) (i n : nat)
  : option (nat * bool) :=
  match slots !! i with
  | None => None
  | Some None => Some (i, false)
  | Some (Some k) =>
      if (k =? key)%Z then Some (i, true)
      else match n with
           | O => None
           | S n' => scan_slots slots key (S i) n'
           end
  end.

(** The outer [while (1)] loop.  The fuel bounds the number of rounds: a
    table always has a free slot, and the sequence reaches every slot. *)
Fixpoint probe (fuel : nat) (slots : list (option Z)) (mask : N) (key : Z)
    (i perturb : N) : option (nat * bool) :=
  match fuel with
  | O => None
  | S fuel' =>
      let probes := if i + LINEAR_PROBES <=? mask then LINEAR_PROBES else 0 in
      match scan_slots slots key (N.to_nat i) (N.to_nat probes) with
      | Some r => Some r
      | None =>
          let perturb' := N.shiftr perturb PERTURB_SHIFT in
          probe fuel' slots mask key (N.land (i * 5 + 1 + perturb') mask) perturb'
      end
  end.

Definition find_slot (slots : list (option Z)) (mask : N) (key : Z)
  : option (nat * bool) :=
  probe (N.to_nat mask + 17) slots mask key (N.land (int_hash key) mask)
    (int_hash key).

(** [set_insert_clean]: a key known to be absent goes to the first free slot
    of its sequence. *)
Definition set_insert_clean (mask : N) (slots : list (option Z)) (key : Z)
  : list (option Z) :=
  match find_slot slots mask key with
  | Some (j, _) => <[j := Some key]> slots
  | None => slots
  end.

(** [newsize = PySet_MINSIZE; while (newsize <= minused) newsize <<= 1] *)
Fixpoint grow (fuel : nat) (newsize minused : N) : N :=
  match fuel with
  | O => newsize
  | S fuel' => if newsize <=? minused then grow fuel' (newsize * 2) minused
               else newsize
  end.

(** [set_table_resize]: the keys are re-inserted in slot order. *)
Definition set_table_resize (t : table) (minused : N) : table :=
  let newsize := grow 64 PySet_MINSIZE minused in
  let mask := newsize - 1 in
  {| t_mask := mask;
     t_slots := foldl (set_insert_clean mask)
                  (replicate (N.to_nat newsize) None)
                  (omap id (t_slots t));
     t_fill := t_fill t |}.

(** [set_add_entry] *)
Definition set_add_entry (t : table) (key : Z) : table :=
  match find_slot (t_slots t) (t_mask t) key with
  | Some (j, false) =>
      let fill := S (t_fill t) in
      let t' := {| t_mask := t_mask t;
                   t_slots := <[j := Some key]> (t_slots t);
                   t_fill := fill |} in
      if N.of_nat fill * 5 <? t_mask t * 3 then t'
      else set_table_resize t'
             (if 50000 <? N.of_nat fill then N.of_nat fill * 2
              else N.of_nat fill * 4)
  | _ => t
  end.

Definition empty_table : table :=
  {| t_mask := PySet_MINSIZE - 1;
     t_slots := replicate (N.to_nat PySet_MINSIZE) None;
     t_fill := 0 |}.

(** [list(s)] in CPython, for a set of integers. *)
Definition cpython_set_list (s : list Z) : list Z :=
  omap id (t_slots (foldl set_add_entry empty_table s)).

(** ** The Python runtime: JSON

    [json_id] is the encoding of one id.  [json_load_ids text] is the list
    [json.load(f).get('processed_ids', [])] for a file holding [text]:
    [None] when loading it, or building a set from it, raises. *)
Class Json (Id : Type) := {
  json_id : Id → pystr;
  json_load_ids : pystr → option (list Id)
}.
Global Hint Mode Json ! : typeclass_instances.

Definition quoted (s : pystr) : pystr := 34 :: s ++ [34].

(** The chunks [json.dump({'processed_ids': ids}, f)] passes to [f.write],
    one call each (the pure-Python encoder's [_iterencode_dict] and
    [_iterencode_list]). *)
Definition json_dump_chunks {Id} {Id_json : Json Id} (ids : list Id) : list pystr :=
  [lit "{"; quoted (lit "processed_ids"); lit ": "]
  ++ match ids with
     | [] => [lit "[]"]
     | x :: ids' =>
         (lit "[" ++ json_id x) :: ((λ y, lit ", " ++ json_id y) <$> ids')
         ++ [lit "]"]
     end
  ++ [lit "}"].

(** What [json.load] owes [json.dump]: the list written is the list read
    back, through a file opened in text mode. *)
Class JsonLawful (Id : Type) {Id_json : Json Id} : Prop :=
  json_round_trip : ∀ ids : list Id,
    json_load_ids (universal_newlines (mjoin (json_dump_chunks ids))) = Some ids.

(** Reading back a list of integers in the form [json.dump] writes it. *)
Fixpoint read_ints (s : pystr) (neg : bool) (cur : option N) (acc : list Z)
  : option (list Z) :=
  let value n := if neg then (- Z.of_N n)%Z else Z.of_N n in
  match s with
  | [] => None
  | c :: s' =>
      if (48 <=? c) && (c <=? 57) then
        read_ints s' neg (Some (default 0 cur * 10 + (c - 48))) acc
      else if c =? 45 then
        match cur with None => read_ints s' true None acc | Some _ => None end
      else if c =? 44 then
        match cur, s' with
        | Some n, d :: s'' =>
            if d =? 32 then read_ints s'' false None (acc ++ [value n])
            else None
        | _, _ => None
        end
      else if c =? 93 then
        match cur, s' with
        | Some n, [d] => if d =? 125 then Some (acc ++ [value n]) else None
        | None, [d] => if (d =? 125) && bool_decide (acc = []) && negb neg
                       then Some [] else None
        | _, _ => None
        end
      else None
  end.

Definition int_json_load_ids (text : pystr) : option (list Z) :=
  let head := lit "{" ++ quoted (lit "processed_ids") ++ lit ": [" in
  if str_startswith head text
  then read_ints (drop (length head) text) false None []
  else None.

(** ** Two runtimes

    CPython with integer ids, and an interpreter with insertion-ordered
    sets. *)

Definition cpython_int : PySet Z := cpython_set_list.
Definition int_json : Json Z :=
  {| json_id := str_int; json_load_ids := int_json_load_ids |}.
Definition ordered_int : PySet Z := ordered_set_list.

End Py.

Import Py.

(** ** The operating system: files, folders, log records *)

Module OS.

(** A directory entry, with what the programs read of it: its name, whether
    it is a regular file, the MD5 hex digest of its content ([None] when it
    cannot be opened), its size and its modification time. *)
Record file := File {
  f_name : pystr;
  f_is_file : bool;
  f_md5 : option pystr;
  f_size : nat;
  f_mtime : Z
}.

(** A folder as [exists()] and [iterdir()] see it: missing, present but
    failing to list, or its entries in listing order. *)
Inductive folder :=
| NoDir
| Unreadable
| Dir (entries : list file).

(** [Path(name).suffix] and [Path(name).stem] (pathlib, on the final
    component): the extension starts at the last dot, unless that dot is the
    first or the last character. *)
Definition split_ext (name : pystr) : pystr * pystr :=
  match str_rfind 46 name with
  | Some i => if (0 <? i) && (i <? length name - 1)
              then (take i name, drop i name) else (name, [])
  | None => (name, [])
  end.
Definition stem (name : pystr) : pystr := fst (split_ext name).
Definition suffix (name : pystr) : pystr := snd (split_ext name).

Inductive level := DEBUG | INFO | WARNING | ERROR.

(** The exceptions told apart by the [except] clauses. *)
Inductive exn :=
| FileNotFoundError
| TimeoutExpired
| OtherError.

(** One call of the logger: the level and the message; [lr_exc] is the
    exception a message ends with (the [{e}] of the f-string). *)
Record log_record := Log {
  lr_level : level;
  lr_msg : pystr;
  lr_exc : option exn
}.

End OS.

Import OS.

(** ** [src/watchers/base_watcher.py] *)

Module BaseWatcher.

Section WithId.
Context {Id : Type} {Id_eq : EqDecision Id} {Id_set : PySet Id} {Id_json : Json Id}.

(** The fields of a watcher object that the methods below read or write. *)
Record t := Make {
  vault_path : pystr;
  check_interval : nat;
  processed_ids : list Id;
  log : list log_record
}.

Definition logger (lvl : level) (msg : pystr) (e : option exn) (self : t) : t :=
  {| vault_path := vault_path self;
     check_interval := check_interval self;
     processed_ids := processed_ids self;
     log := log self ++ [Log lvl msg e] |}.

Definition set_processed_ids (ids : list Id) (self : t) : t :=
  {| vault_path := vault_path self;
     check_interval := check_interval self;
     processed_ids := ids;
     log := log self |}.

(** [_load_state]: [state_file] is the content of [.watcher_state.json],
    [None] when the file does not exist. *)
Definition _load_state (state_file : option pystr) (self : t) : t :=
  match state_file with
  | None => self
  | Some text =>
      match json_load_ids (universal_newlines text) with
      | Some ids =>
          let self := set_processed_ids (set_of ids) self in
          logger INFO
            (lit "Loaded state: "
             ++ str_nat (length (remove_dups (processed_ids self)))
             ++ lit " processed IDs") None self
      | None => logger WARNING (lit "Could not load state: ") (Some OtherError) self
      end
  end.

(** [__init__], up to the fields modelled. *)
Definition __init__ (vault : pystr) (interval : nat) (state_file : option pystr) : t :=
  _load_state state_file
    {| vault_path := vault; check_interval := interval;
       processed_ids := set_new; log := [] |}.

(** [ids_list = list(self.processed_ids)[-1000:]] *)
Definition ids_list (self : t) : list Id :=
  last_slice 1000 (set_list (processed_ids self)).

(** What [_save_state] does to the state file, step by step: [open(…, 'w')]
    truncates it, then [json.dump] writes chunk after chunk.  (The file
    object's buffer may merge consecutive writes; what is on disk at any
    moment is then still the concatenation of a prefix of the chunks.) *)
Inductive io_step :=
| OpenW
| Write (chunk : pystr).

Definition io_apply (content : option pystr) (s : io_step) : option pystr :=
  match s with
  | OpenW => Some []
  | Write chunk => Some (default [] content ++ chunk)
  end.

Definition save_steps (self : t) : list io_step :=
  OpenW :: (Write <$> json_dump_chunks (ids_list self)).

(** [_save_state], interrupted after [k] steps ([writable = false]: opening
    the file raises, which is logged). *)
Definition _save_state_upto (k : nat) (writable : bool)
    (state_file : option pystr) (self : t) : option pystr * t :=
  if writable then (foldl io_apply state_file (take k (save_steps self)), self)
  else (state_file, logger WARNING (lit "Could not save state: ") (Some OtherError) self).

(** [_save_state] run to its end. *)
Definition _save_state (writable : bool) (state_file : option pystr) (self : t)
  : option pystr * t :=
  _save_state_upto (length (save_steps self)) writable state_file self.

(** [sanitize_filename] *)
Definition invalid_chars : pystr := [60; 62; 58; 34; 47; 92; 124; 63; 42]%N.

Definition sanitize_filename (name : pystr) : pystr :=
  str_strip (foldl (λ name char, str_replace char 95 name) name invalid_chars).

End WithId.

Global Arguments t Id : clear implicits.

End BaseWatcher.

(** ** [src/watchers/filesystem_watcher.py] *)

Module FileSystemWatcher.

(** The content of an action file: the values its template interpolates
    ([type], [priority] and [status] are constants of the template, and
    [size_human] is derived from [size]). *)
Record action := Action {
  a_source : pystr;
  a_destination : pystr;
  a_file_type : pystr;
  a_size : nat;
  a_received : pystr;
  a_hash : pystr
}.

(** What the watcher sees of the machine: the drop folder, the vault's
    [Files] folder and the action files of [Needs_Action] (by file name),
    the state file, whether it can be written, and the clock
    ([datetime.now().isoformat()]).

    [needs_action] holds the action files whose text is complete.
    [write_text] opens the file, which creates or empties it, and then
    writes: [needs_action_writable] tells whether a [write_text] in
    [Needs_Action] goes through, and when it does not,
    [needs_action_openable] tells whether the file was opened before the
    failure.  [truncated] holds the names of the files that such a failure
    left empty or cut short. *)
Record world := World {
  drop_folder : folder;
  files : gmap pystr file;
  needs_action : gmap pystr action;
  truncated : gset pystr;
  needs_action_writable : bool;
  needs_action_openable : bool;
  state_file : option pystr;
  state_file_writable : bool;
  clock : pystr
}.

(** The item [process_file] hands to [create_action_file]: the source's
    name in the drop folder, the copy's name in [Files], and the digest. *)
Record item := Item {
  i_source : pystr;
  i_destination : pystr;
  i_hash : pystr
}.

(** [f"{x:.1f}"] for [x = n / d]: the nearest number of tenths, a tie going
    to the even one, as [float.__format__] rounds the exact value. *)
Definition tenths (n d : N) : N :=
  let q := (10 * n / d)%N in
  let r := ((10 * n) mod d)%N in
  if (2 * r <? d)%N then q
  else if (d <? 2 * r)%N then (q + 1)%N
  else if N.even q then q else (q + 1)%N.

Definition format_1f (n d : N) : pystr :=
  let t := tenths n d in
  digits (N.to_uint (t / 10)) ++ lit "." ++ digits (N.to_uint (t mod 10)).

(** The loop of [_format_size] over the units left, for the value [n / d]:
    [size_bytes] is an [int] at first and a [float] after a division.  For
    a size below [2^53] every division by 1024 is exact in binary floating
    point, so the value is the fraction [n / d] with [d] a power of 1024. *)
Fixpoint format_units (units : list pystr) (n d : N) : pystr :=
  match units with
  | unit :: units' =>
      if (n <? 1024 * d)%N then format_1f n d ++ lit " " ++ unit
      else format_units units' n (1024 * d)%N
  | [] => format_1f n d ++ lit " TB"
  end.

(** [_format_size], for a size below [2^53] bytes. *)
Definition _format_size (size_bytes : N) : pystr :=
  format_units [lit "B"; lit "KB"; lit "MB"; lit "GB"] size_bytes 1.

Section WithId.
Context {Id : Type} {Id_eq : EqDecision Id} {Id_set : PySet Id} {Id_json : Json Id}.

(** The watcher object: the fields of the base class, the path of the drop
    folder and the digests seen. *)
Record t := Make {
  base : BaseWatcher.t Id;
  drop_path : pystr;
  processed_hashes : gset pystr
}.

Definition logger (lvl : level) (msg : pystr) (e : option exn) (self : t) : t :=
  {| base := BaseWatcher.logger lvl msg e (base self);
     drop_path := drop_path self;
     processed_hashes := processed_hashes self |}.

(** [self.processed_hashes.add(h)] *)
Definition add_hash (h : pystr) (self : t) : t :=
  {| base := base self;
     drop_path := drop_path self;
     processed_hashes := {[h]} ∪ processed_hashes self |}.

(** [__init__], up to the fields modelled: the base class loads the state
    file; the digests start empty. *)
Definition __init__ (vault : pystr) (drop : option pystr) (interval : nat)
    (w : world) : t :=
  let b := BaseWatcher.__init__ vault interval (state_file w) in
  let drop_path := match drop with
                   | Some d => if decide (d = []) then vault ++ lit "/Drop" else d
                   | None => vault ++ lit "/Drop"
                   end in
  logger INFO (lit "Drop folder: " ++ drop_path) None
    {| base := b; drop_path := drop_path; processed_hashes := ∅ |}.

(** The body of the loop of [check_for_updates] for one entry. *)
Definition check_entry (acc : list pystr * t) (f : file) : list pystr * t :=
  let '(new_files, self) := acc in
  if f_is_file f && negb (str_startswith (lit ".") (f_name f)) then
    match f_md5 f with
    | Some file_hash =>
        if decide (file_hash ∈ processed_hashes self) then (new_files, self)
        else (new_files ++ [f_name f], add_hash file_hash self)
    | None =>
        (new_files,
         logger WARNING (lit "Could not hash " ++ drop_path self ++ lit "/"
                         ++ f_name f ++ lit ": ") (Some OtherError) self)
    end
  else (new_files, self).

(** [check_for_updates]: the names of the new files, and the watcher after
    the call; [None] when listing the drop folder raises. *)
Definition check_for_updates (self : t) (w : world) : option (list pystr * t) :=
  match drop_folder w with
  | NoDir => Some ([], self)
  | Unreadable => None
  | Dir entries => Some (foldl check_entry ([], self) entries)
  end.

Definition type_mapping : list (pystr * pystr) :=
  [ (lit ".pdf", lit "document"); (lit ".doc", lit "document");
    (lit ".docx", lit "document"); (lit ".txt", lit "document");
    (lit ".md", lit "document"); (lit ".xls", lit "spreadsheet");
    (lit ".xlsx", lit "spreadsheet"); (lit ".csv", lit "spreadsheet");
    (lit ".jpg", lit "image"); (lit ".jpeg", lit "image");
    (lit ".png", lit "image"); (lit ".gif", lit "image");
    (lit ".zip", lit "archive"); (lit ".rar", lit "archive") ].

(** [type_mapping.get(file_ext, 'unknown')] *)
Definition file_type (file_ext : pystr) : pystr :=
  match list_find (λ kv, kv.1 = file_ext) type_mapping with
  | Some (_, (_, v)) => v
  | None => lit "unknown"
  end.

(** The name of the action file:
    [f'FILE_{safe_name}_{timestamp[:10]}.md']. *)
Definition action_file_name (safe_name timestamp : pystr) : pystr :=
  lit "FILE_" ++ safe_name ++ lit "_" ++ prefix_slice 10 timestamp ++ lit ".md".

(** [create_action_file]: the name of the file written ([None] on failure),
    the watcher and the world after the call. *)
Definition create_action_file (self : t) (it : item) (w : world)
  : option pystr * t * world :=
  match files w !! i_destination it with
  | None =>
      (* dest_path.stat() raises *)
      (None,
       logger ERROR (lit "Could not create action file: ") (Some FileNotFoundError) self,
       w)
  | Some dest =>
      let file_size := f_size dest in
      let file_ext := str_lower (suffix (i_source it)) in
      let timestamp := clock w in
      let content :=
        {| a_source := i_source it;
           a_destination := BaseWatcher.vault_path (base self)
                            ++ lit "/Files/" ++ i_destination it;
           a_file_type := file_type file_ext;
           a_size := file_size;
           a_received := timestamp;
           a_hash := i_hash it |} in
      let safe_name := BaseWatcher.sanitize_filename (stem (i_source it)) in
      let action_file := action_file_name safe_name timestamp in
      if needs_action_writable w then
        (Some action_file,
         add_hash (i_hash it) self,
         {| drop_folder := drop_folder w;
            files := files w;
            needs_action := <[action_file := content]> (needs_action w);
            truncated := truncated w ∖ {[action_file]};
            needs_action_writable := needs_action_writable w;
            needs_action_openable := needs_action_openable w;
            state_file := state_file w;
            state_file_writable := state_file_writable w;
            clock := clock w |})
      else
        (* action_file.write_text raises: before it has opened the file, or
           after, and then the file is left empty or cut short *)
        (None,
         logger ERROR (lit "Could not create action file: ") (Some OtherError) self,
         if needs_action_openable w then
           {| drop_folder := drop_folder w;
              files := files w;
              needs_action := delete action_file (needs_action w);
              truncated := {[action_file]} ∪ truncated w;
              needs_action_writable := needs_action_writable w;
              needs_action_openable := needs_action_openable w;
              state_file := state_file w;
              state_file_writable := state_file_writable w;
              clock := clock w |}
         else w)
  end.

(** The entry of the drop folder with the given name. *)
Definition drop_lookup (name : pystr) (w : world) : option file :=
  match drop_folder w with
  | Dir entries => snd <$> list_find (λ f, f_name f = name) entries
  | _ => None
  end.

(** [shutil.copy2(source_path, dest_path)] *)
Definition copy_to_files (f : file) (w : world) : world :=
  {| drop_folder := drop_folder w;
     files := <[f_name f := f]> (files w);
     needs_action := needs_action w;
     truncated := truncated w;
     needs_action_writable := needs_action_writable w;
     needs_action_openable := needs_action_openable w;
     state_file := state_file w;
     state_file_writable := state_file_writable w;
     clock := clock w |}.

(** [source_path.unlink()] *)
Definition unlink (name : pystr) (w : world) : world :=
  {| drop_folder := match drop_folder w with
                    | Dir entries => Dir (filter (λ f, f_name f ≠ name) entries)
                    | d => d
                    end;
     files := files w;
     needs_action := needs_action w;
     truncated := truncated w;
     needs_action_writable := needs_action_writable w;
     needs_action_openable := needs_action_openable w;
     state_file := state_file w;
     state_file_writable := state_file_writable w;
     clock := clock w |}.

(** [process_file]; the copy into [Files] is taken to succeed. *)
Definition process_file (self : t) (source : pystr) (w : world) : t * world :=
  match drop_lookup source w ≫= λ f, pair f <$> f_md5 f with
  | None =>
      (* _calculate_hash raises *)
      (logger ERROR (lit "Error processing file " ++ drop_path self ++ lit "/"
                     ++ source ++ lit ": ") (Some OtherError) self, w)
  | Some (f, file_hash) =>
      if decide (file_hash ∈ processed_hashes self) then
        (logger INFO (lit "File already processed: " ++ source) None self, w)
      else
        let w := copy_to_files f w in
        let self :=
          logger INFO (lit "Copied file to: " ++ BaseWatcher.vault_path (base self)
                       ++ lit "/Files/" ++ source) None self in
        let '(_, self, w) :=
          create_action_file self
            {| i_source := source; i_destination := source; i_hash := file_hash |} w in
        let w := unlink source w in
        (logger INFO (lit "Removed from drop folder: " ++ source) None self, w)
  end.

(** [_save_state], inherited. *)
Definition _save_state (self : t) (w : world) : t * world :=
  let '(content, b) :=
    BaseWatcher._save_state (state_file_writable w) (state_file w) (base self) in
  ({| base := b; drop_path := drop_path self;
      processed_hashes := processed_hashes self |},
   {| drop_folder := drop_folder w;
      files := files w;
      needs_action := needs_action w;
      truncated := truncated w;
      needs_action_writable := needs_action_writable w;
      needs_action_openable := needs_action_openable w;
      state_file := content;
      state_file_writable := state_file_writable w;
      clock := clock w |}).

(** One round of the periodic check of [run]: its inner [try] and the
    handler. *)
Definition periodic_check (self : t) (w : world) : t * world :=
  match check_for_updates self w with
  | Some (items, self) =>
      let '(self, w) :=
        match items with
        | [] => (self, w)
        | _ =>
            foldl (λ '(self, w) it, process_file self it w)
              (logger INFO (lit "Periodic check found " ++ str_nat (length items)
                            ++ lit " file(s)") None self, w)
              items
        end in
      _save_state self w
  | None => (logger ERROR (lit "Error in periodic check: ") (Some OtherError) self, w)
  end.

(** [FileDropHandler.on_created] for a path [name] of the drop folder; the
    event of a directory is ignored. *)
Definition on_created (self : t) (name : pystr) (is_directory : bool) (w : world)
  : t * world :=
  if is_directory then (self, w)
  else process_file (logger INFO (lit "File detected: " ++ name) None self) name w.

(** What happens while [run] loops: a round of the periodic check, the
    observer's callback for a created file, or the outside world changing
    the drop folder, the clock or what can be written. *)
Inductive event :=
| PeriodicCheck
| Created (name : pystr) (is_directory : bool)
| Outside (drop : folder) (now : pystr) (na_writable na_openable sf_writable : bool).

Definition step (st : t * world) (e : event) : t * world :=
  let '(self, w) := st in
  match e with
  | PeriodicCheck => periodic_check self w
  | Created name is_directory => on_created self name is_directory w
  | Outside drop now naw nao sfw =>
      (self,
       {| drop_folder := drop;
          files := files w;
          needs_action := needs_action w;
          truncated := truncated w;
          needs_action_writable := naw;
          needs_action_openable := nao;
          state_file := state_file w;
          state_file_writable := sfw;
          clock := now |})
  end.

(** [run] over a sequence of events. *)
Definition run (st : t * world) (events : list event) : t * world :=
  foldl step st events.

End WithId.

Global Arguments t Id : clear implicits.

End FileSystemWatcher.

(** ** [src/orchestrator.py] *)

Module Orchestrator.

Inductive dashboard_file :=
| NoFile
| Undecodable
| Doc (text : pystr).

(** The vault as the orchestrator and the agent see it. *)
Record vault := Vault {
  needs_action : folder;
  plans : folder;
  done : folder;
  pending_approval : folder;
  approved : folder;
  dashboard : dashboard_file
}.

(** What [subprocess.run] comes back with. *)
Inductive run_result :=
| Completed (returncode : Z) (stdout stderr : pystr)
| Raised (e : exn).

(** What is outside the program: today's date ([datetime.now()] formatted
    [%Y-%m-%d]) and the external agent, which is given a command line, a
    timeout in seconds and a working directory, and may change the vault. *)
Record env := Env {
  today : pystr;
  qwen : list pystr → nat → pystr → vault → run_result * vault
}.

(** The methods entered and the sleeps of a run, in order. *)
Inductive call :=
| UpdateDashboard
| ProcessPendingItems
| CheckApprovals
| Sleep (seconds : nat).

(** The orchestrator object, the process's working directory and the
    vault. *)
Record state := State {
  vault_path : pystr;
  check_interval : nat;
  processed_files : gset pystr;
  log : list log_record;
  calls : list call;
  cwd : pystr;
  fs : vault
}.

Definition set_processed_files (s : gset pystr) (st : state) : state :=
  {| vault_path := vault_path st; check_interval := check_interval st;
     processed_files := s; log := log st; calls := calls st;
     cwd := cwd st; fs := fs st |}.

Definition set_cwd (d : pystr) (st : state) : state :=
  {| vault_path := vault_path st; check_interval := check_interval st;
     processed_files := processed_files st; log := log st; calls := calls st;
     cwd := d; fs := fs st |}.

Definition set_fs (v : vault) (st : state) : state :=
  {| vault_path := vault_path st; check_interval := check_interval st;
     processed_files := processed_files st; log := log st; calls := calls st;
     cwd := cwd st; fs := v |}.

Definition set_dashboard (d : dashboard_file) (v : vault) : vault :=
  {| needs_action := needs_action v; plans := plans v; done := done v;
     pending_approval := pending_approval v; approved := approved v;
     dashboard := d |}.

(** [folder.mkdir(parents=True, exist_ok=True)] *)
Definition mkdir (d : folder) : folder :=
  match d with NoDir => Dir [] | _ => d end.

(** [__init__], up to the fields modelled ([Rejected] and [Logs] are
    created too). *)
Definition __init__ (root : pystr) (interval : nat) (cwd0 : pystr) (v : vault)
  : state :=
  {| vault_path := root;
     check_interval := interval;
     processed_files := ∅;
     log := [Log INFO (lit "Orchestrator initialized") None;
             Log INFO (lit "Vault path: " ++ root) None];
     calls := [];
     cwd := cwd0;
     fs := {| needs_action := mkdir (needs_action v); plans := mkdir (plans v);
              done := mkdir (done v);
              pending_approval := mkdir (pending_approval v);
              approved := mkdir (approved v); dashboard := dashboard v |} |}.

(** *** Methods as state transformers that may raise *)

Inductive result (A : Type) :=
| Ok (a : A)
| Raise (e : exn).
Global Arguments Ok {A} a.
Global Arguments Raise {A} e.

Definition M (A : Type) : Type := state → result A * state.

Definition ret {A} (a : A) : M A := λ st, (Ok a, st).
Definition raise {A} (e : exn) : M A := λ st, (Raise e, st).
Definition bind {A B} (m : M A) (k : A → M B) : M B :=
  λ st, match m st with
        | (Ok a, st') => k a st'
        | (Raise e, st') => (Raise e, st')
        end.
(** [try: body except Exception as e: handler(e)] *)
Definition try_except {A} (body : M A) (handler : exn → M A) : M A :=
  λ st, match body st with
        | (Ok a, st') => (Ok a, st')
        | (Raise e, st') => handler e st'
        end.
Definition get : M state := λ st, (Ok st, st).
Definition modify (f : state → state) : M unit := λ st, (Ok tt, f st).

Global Instance M_ret : MRet M := @ret.
Global Instance M_bind : MBind M := λ A B k m, bind m k.

Definition logger (lvl : level) (msg : pystr) (e : option exn) : M unit :=
  modify (λ st,
    {| vault_path := vault_path st; check_interval := check_interval st;
       processed_files := processed_files st;
       log := log st ++ [Log lvl msg e]; calls := calls st;
       cwd := cwd st; fs := fs st |}).

Definition enter (c : call) : M unit :=
  modify (λ st,
    {| vault_path := vault_path st; check_interval := check_interval st;
       processed_files := processed_files st; log := log st;
       calls := calls st ++ [c]; cwd := cwd st; fs := fs st |}).

(** [time.sleep(seconds)] *)
Definition sleep (seconds : nat) : M unit := enter (Sleep seconds).

(** [folder.iterdir()] *)
Definition iterdir (d : folder) : M (list file) :=
  match d with
  | Dir entries => ret entries
  | NoDir => raise FileNotFoundError
  | Unreadable => raise OtherError
  end.

(** [folder.exists()] *)
Definition exists_ (d : folder) : bool :=
  match d with NoDir => false | _ => true end.

Definition is_md (f : file) : bool :=
  bool_decide (suffix (f_name f) = lit ".md").

(** [count_files] *)
Definition count_files (d : folder) : M nat :=
  if negb (exists_ d) then ret 0
  else
    entries ← iterdir d;
    ret (length (filter (λ f, is_md f && negb (str_startswith (lit ".") (f_name f)))
                   entries)).

(** [sorted(pending, key=lambda x: x.stat().st_mtime)]: a stable sort. *)
Fixpoint insert_by_mtime (f : file) (l : list file) : list file :=
  match l with
  | [] => [f]
  | g :: l' => if (f_mtime g <? f_mtime f)%Z then g :: insert_by_mtime f l'
               else f :: g :: l'
  end.
Definition sorted_by_mtime (l : list file) : list file :=
  foldr insert_by_mtime [] l.

(** [get_pending_items]; the paths of [Needs_Action] are identified with
    the names of its entries. *)
Definition get_pending_items : M (list file) :=
  st ← get;
  if negb (exists_ (needs_action (fs st))) then ret []
  else
    entries ← iterdir (needs_action (fs st));
    ret (sorted_by_mtime
           (filter (λ f, is_md f
                         && bool_decide (f_name f ∉ processed_files st))
              entries)).

(** *** [update_dashboard] *)

Definition stats_marker : pystr := lit "## " ++ [128202%N] ++ lit " Quick Stats".
Definition separator : pystr := lit "---".

Definition is_marker (line : pystr) : bool :=
  bool_decide (str_strip line = stats_marker).
Definition is_separator (line : pystr) : bool :=
  bool_decide (str_strip line = separator).

(** [stats_lines], from the three counts. *)
Definition stats_lines (pending_count approval_count done_today : nat) : list pystr :=
  let pending_status :=
    if decide (pending_count = 0) then [9989%N] ++ lit " Clear"
    else [9888%N; 65039%N] ++ lit " " ++ str_nat pending_count ++ lit " item(s)" in
  let approval_status :=
    if decide (approval_count = 0) then [9989%N] ++ lit " Clear"
    else [9203%N] ++ lit " " ++ str_nat approval_count ++ lit " awaiting" in
  let today_status :=
    if decide (0 < done_today) then [128200%N] ++ lit " " ++ str_nat done_today ++ lit " done"
    else [128202%N] ++ lit " No activity" in
  [ stats_marker;
    [];
    lit "| Metric | Value | Status |";
    lit "|--------|-------|--------|";
    lit "| Pending Tasks | " ++ str_nat pending_count ++ lit " | " ++ pending_status ++ lit " |";
    lit "| Awaiting Approval | " ++ str_nat approval_count ++ lit " | " ++ approval_status ++ lit " |";
    lit "| Tasks Completed Today | " ++ str_nat done_today ++ lit " | " ++ today_status ++ lit " |";
    [];
    separator ].

(** The variables of the replacement loop. *)
Record scan := Scan {
  new_lines : list pystr;
  in_stats : bool;
  stats_replaced : bool
}.

(** The body of [for line in lines]. *)
Definition scan_line (stats : list pystr) (s : scan) (line : pystr) : scan :=
  if is_marker line then
    {| new_lines := new_lines s; in_stats := true; stats_replaced := stats_replaced s |}
  else if in_stats s && is_separator line && negb (stats_replaced s) then
    {| new_lines := new_lines s ++ stats; in_stats := false; stats_replaced := true |}
  else if negb (in_stats s) then
    {| new_lines := new_lines s ++ [line]; in_stats := in_stats s;
       stats_replaced := stats_replaced s |}
  else s.

(** The first index [i > 5] of a separator line in [ls], counting from [i]. *)
Fixpoint find_separator (i : nat) (ls : list pystr) : option nat :=
  match ls with
  | [] => None
  | line :: ls' =>
      if is_separator line && bool_decide (5 < i) then Some i
      else find_separator (S i) ls'
  end.

(** The text written back for the text read. *)
Definition replace_stats (stats : list pystr) (content : pystr) : pystr :=
  let lines := str_split 10 content in
  let s := foldl (scan_line stats)
             {| new_lines := []; in_stats := false; stats_replaced := false |}
             lines in
  let new_lines :=
    if stats_replaced s then new_lines s
    else match find_separator 0 (new_lines s) with
         | Some i => take (S i) (new_lines s) ++ stats ++ drop (S i) (new_lines s)
         | None => new_lines s
         end in
  str_join 10 new_lines.

(** [self.dashboard.read_text()] *)
Definition read_dashboard : M pystr :=
  st ← get;
  match dashboard (fs st) with
  | Doc text => ret (universal_newlines text)
  | NoFile => raise FileNotFoundError
  | Undecodable => raise OtherError
  end.

(** [self.dashboard.write_text(text)] *)
Definition write_dashboard (text : pystr) : M unit :=
  modify (λ st, set_fs (set_dashboard (Doc text) (fs st)) st).

(** The number of entries of [Done] whose name contains today's date. *)
Definition count_done_today (e : env) (d : folder) : M nat :=
  if exists_ d then
    entries ← iterdir d;
    ret (length (filter (λ f, str_contains (today e) (f_name f) = true) entries))
  else ret 0.

Definition update_dashboard (e : env) : M unit :=
  enter UpdateDashboard;;
  try_except
    (st ← get;
     match dashboard (fs st) with
     | NoFile => logger WARNING (lit "Dashboard.md not found") None
     | _ =>
         pending_count ← count_files (needs_action (fs st));
         plans_count ← count_files (plans (fs st));
         approval_count ← count_files (pending_approval (fs st));
         done_today ← count_done_today e (done (fs st));
         content ← read_dashboard;
         write_dashboard
           (replace_stats (stats_lines pending_count approval_count done_today) content);;
         logger DEBUG (lit "Dashboard updated") None
     end)
    (λ ex, logger ERROR (lit "Could not update dashboard: ") (Some ex)).

(** *** [trigger_qwen] *)

Definition _get_system_prompt : pystr :=
  str_join 10
    [ [];
      lit "You are an AI Employee assistant. Your task is to:";
      [];
      lit "1. Read all files in /Needs_Action folder";
      lit "2. Process each item according to the Company Handbook rules";
      lit "3. Create action plans in /Plans folder for multi-step tasks";
      lit "4. Move completed items to /Done folder";
      lit "5. Create approval requests in /Pending_Approval for sensitive actions";
      lit "6. Update Dashboard.md with current status";
      [];
      lit "Always follow the Rules of Engagement in Company_Handbook.md.";
      lit "Be proactive but cautious. When in doubt, request approval.";
      [] ].

(** [os.chdir(d)] *)
Definition chdir (d : pystr) : M unit := modify (set_cwd d).

(** [subprocess.run(cmd, capture_output=True, text=True, timeout=…)]: the
    agent runs in the process's working directory and may change the
    vault; a timeout and a missing executable raise. *)
Definition subprocess_run (e : env) (cmd : list pystr) (timeout : nat)
  : M (Z * pystr * pystr) :=
  st ← get;
  let '(r, v) := qwen e cmd timeout (cwd st) (fs st) in
  modify (set_fs v);;
  match r with
  | Completed returncode stdout stderr => ret (returncode, stdout, stderr)
  | Raised ex => raise ex
  end.

(** [full_prompt]: the system prompt, an empty line, the prompt. *)
Definition full_prompt (prompt : pystr) : pystr :=
  _get_system_prompt ++ [10%N; 10%N] ++ prompt ++ [10%N].

(** [qwen_cmd] *)
Definition qwen_cmd (prompt : pystr) : list pystr :=
  [lit "qwen"; lit "-p"; full_prompt prompt; lit "-y"].

Definition trigger_qwen (e : env) (prompt : pystr) : M bool :=
  try_except
    (logger INFO (lit "Triggering Qwen Code...") None;;
     st ← get;
     let original_dir := cwd st in
     chdir (vault_path st);;
     '(returncode, stdout, stderr) ← subprocess_run e (qwen_cmd prompt) 300;
     chdir original_dir;;
     (if decide (stdout = []) then ret tt
      else logger INFO (lit "Qwen output: " ++ take 500 stdout ++ lit "...") None);;
     (if decide (stderr = []) then ret tt
      else logger WARNING (lit "Qwen errors: " ++ take 500 stderr ++ lit "...") None);;
     ret (bool_decide (returncode = 0%Z)))
    (λ ex,
       match ex with
       | TimeoutExpired =>
           logger ERROR (lit "Qwen Code timed out after 5 minutes") None;; ret false
       | FileNotFoundError =>
           logger ERROR (lit "Qwen Code not found. Is it installed?") None;; ret false
       | OtherError =>
           logger ERROR (lit "Error triggering Qwen: ") (Some ex);; ret false
       end).

(** *** [process_pending_items] *)

(** The prompt listing the batch. *)
Definition manifest (pending : list file) : pystr :=
  let file_list := str_join 10 ((λ f, lit "- " ++ f_name f) <$> pending) in
  str_join 10
    [ [];
      lit "I have " ++ str_nat (length pending)
        ++ lit " new item(s) to process in /Needs_Action:";
      [];
      file_list;
      [];
      lit "Please:";
      lit "1. Read each file carefully";
      lit "2. Determine the appropriate action based on Company_Handbook.md";
      lit "3. Create a plan in /Plans if multiple steps are needed";
      lit "4. Execute simple tasks directly";
      lit "5. Create approval requests in /Pending_Approval for sensitive actions";
      lit "6. Move completed items to /Done";
      lit "7. Update Dashboard.md";
      [];
      lit "Start processing now.";
      [] ].

Definition process_pending_items (e : env) : M unit :=
  enter ProcessPendingItems;;
  pending ← get_pending_items;
  match pending with
  | [] => logger DEBUG (lit "No pending items to process") None
  | _ =>
      logger INFO (lit "Found " ++ str_nat (length pending) ++ lit " pending item(s)") None;;
      success ← trigger_qwen e (manifest pending);
      if success : bool then
        modify (λ st,
          set_processed_files
            (foldl (λ s f, {[f_name f]} ∪ s) (processed_files st) pending) st);;
        logger INFO (lit "Processed " ++ str_nat (length pending) ++ lit " item(s)") None
      else
        logger WARNING (lit "Qwen processing failed - items remain pending") None
  end.

(** *** [check_approvals] *)

Definition check_approvals : M unit :=
  enter CheckApprovals;;
  st ← get;
  if negb (exists_ (approved (fs st))) then ret tt
  else
    entries ← iterdir (approved (fs st));
    foldr (λ item k, logger INFO (lit "Approved item ready: " ++ f_name item) None;; k)
      (ret tt) (filter (λ f, is_md f = true) entries).

(** *** [run] and [run_once] *)

(** The inner [try] of the loop of [run]. *)
Definition cycle_body (e : env) : M unit :=
  update_dashboard e;;
  process_pending_items e;;
  check_approvals;;
  st ← get;
  sleep (check_interval st).

(** One round of the loop of [run]: the inner [try] and its handler. *)
Definition run_cycle (e : env) : M unit :=
  try_except (cycle_body e)
    (λ ex,
       logger ERROR (lit "Error in orchestration cycle: ") (Some ex);;
       sleep 10).

(** [n] rounds of the loop of [run]. *)
Fixpoint run (e : env) (n : nat) : M unit :=
  match n with
  | O => ret tt
  | S n' => run_cycle e;; run e n'
  end.

Definition run_once (e : env) : M unit :=
  update_dashboard e;;
  process_pending_items e;;
  check_approvals;;
  update_dashboard e.

(** *** [main]

    What [main] reads of the process: its arguments ([sys.argv], the script
    first), which paths exist once [~] is expanded, the folder
    [AI_Employee_Vault] beside the script, and how [qwen --version] ends. *)
Record process := Process {
  argv : list pystr;
  expanduser : pystr → pystr;
  path_exists : pystr → bool;
  default_vault : pystr;
  qwen_version : run_result
}.

(** How [main] ends: [sys.exit(code)], an exception nobody catches, or the
    orchestrator started on a vault, for one cycle or for the loop. *)
Inductive outcome :=
| SysExit (code : nat)
| Uncaught (ex : exn)
| RunOnce (vault_path : pystr)
| Run (vault_path : pystr).

(** [main]: the lines printed and the outcome. *)
Definition main (p : process) : list pystr * outcome :=
  let usage := [lit "Usage: python orchestrator.py <vault_path>";
                [10%N] ++ lit "Example:";
                lit "  python orchestrator.py ~/AI_Employee_Vault"] in
  let chosen :=
    match argv p with
    | _ :: arg :: _ => Some (expanduser p arg)
    | _ => if path_exists p (default_vault p) then Some (default_vault p) else None
    end in
  match chosen with
  | None => (usage, SysExit 1)
  | Some vault_path =>
      if negb (path_exists p vault_path) then
        ([lit "Error: Vault path does not exist: " ++ vault_path], SysExit 1)
      else
        let checked :=
          match qwen_version p with
          | Completed returncode _ _ =>
              if decide (returncode ≠ 0%Z)
              then inl [lit "Warning: Qwen Code not working. Some features will be limited."]
              else inl []
          | Raised FileNotFoundError => inl [lit "Warning: Qwen Code not found."]
          | Raised ex => inr ex
          end in
        match checked with
        | inr ex => ([], Uncaught ex)
        | inl printed =>
            if bool_decide (lit "--once" ∈ argv p)
            then (printed ++ [lit "Running single cycle..."], RunOnce vault_path)
            else (printed, Run vault_path)
        end
  end.

End Orchestrator.

(** * The vocabulary of the properties

    Scenarios on which the properties are evaluated, and the notions they
    are stated with. *)

(** ** Watchers *)

(** The state file left by a run that registered the ids 1000, 999, ..., 0,
    in this order. *)
Definition ids_descending : list Z := Z.of_nat <$> reverse (seq 0 1001).
Definition descending_state_file : pystr :=
  mjoin (json_dump_chunks (Id_json := int_json) ids_descending).

(** A three-byte file [report.pdf] in the drop folder of an otherwise empty
    vault, and a watcher just started on it. *)
Definition report_pdf : file :=
  File (lit "report.pdf") true (Some (lit "900150983cd24fb0d6963f7d28e17f72")) 3 0.

Definition one_drop : FileSystemWatcher.world :=
  FileSystemWatcher.World (Dir [report_pdf]) ∅ ∅ ∅ true true None true
    (lit "2026-01-15T09:30:00.000000").

Definition fresh_watcher (w : FileSystemWatcher.world) : FileSystemWatcher.t Z :=
  FileSystemWatcher.__init__ (Id_json := int_json) (lit "/vault") None 30 w.

(** The same, with a [Needs_Action] folder that cannot be written. *)
Definition one_drop_unwritable : FileSystemWatcher.world :=
  FileSystemWatcher.World (Dir [report_pdf]) ∅ ∅ ∅ false false None true
    (lit "2026-01-15T09:30:00.000000").

(** The same, with a [Needs_Action] in which the file is opened and the
    write then fails. *)
Definition one_drop_interrupted : FileSystemWatcher.world :=
  FileSystemWatcher.World (Dir [report_pdf]) ∅ ∅ ∅ false true None true
    (lit "2026-01-15T09:30:00.000000").

(** Two files with the same stem, dropped on the same day. *)
Definition report_txt : file :=
  File (lit "report.txt") true (Some (lit "e2fc714c4727ee9395f324cd2e7f331f")) 4 1.

Definition two_drops : FileSystemWatcher.world :=
  FileSystemWatcher.World (Dir [report_pdf; report_txt]) ∅ ∅ ∅ true true None true
    (lit "2026-01-15T09:30:00.000000").

(** The state file written for an empty set of ids. *)
Definition empty_snapshot : pystr :=
  lit "{" ++ quoted (lit "processed_ids") ++ lit ": []}".

(** The ids a watcher holds. *)
Definition ids {Id} (self : FileSystemWatcher.t Id) : list Id :=
  BaseWatcher.processed_ids (FileSystemWatcher.base self).

(** An entry [check_for_updates] looks at: a regular file whose name does
    not start with a dot. *)
Definition candidate (f : file) : bool :=
  f_is_file f && negb (str_startswith (lit ".") (f_name f)).

(** A second file with the bytes of [report.pdf], beside it in the drop
    folder. *)
Definition copy_pdf : file :=
  File (lit "copy.pdf") true (Some (lit "900150983cd24fb0d6963f7d28e17f72")) 3 2.

Definition twin_drops : FileSystemWatcher.world :=
  FileSystemWatcher.World (Dir [report_pdf; copy_pdf]) ∅ ∅ ∅ true true None true
    (lit "2026-01-15T09:30:00.000000").

(** The names of the files of [Needs_Action]: of those whose text is
    complete and of those a failed write left empty or cut short. *)
Definition action_files (w : FileSystemWatcher.world) : gset pystr :=
  dom (FileSystemWatcher.needs_action w) ∪ FileSystemWatcher.truncated w.

(** From [st] to [st'] the watcher has forgotten no digest, and no name has
    left [Files] or [Needs_Action]. *)
Definition only_adds {Id}
    (st st' : FileSystemWatcher.t Id * FileSystemWatcher.world) : Prop :=
  FileSystemWatcher.processed_hashes st.1 ⊆ FileSystemWatcher.processed_hashes st'.1
  ∧ dom (FileSystemWatcher.files st.2) ⊆ dom (FileSystemWatcher.files st'.2)
  ∧ action_files st.2 ⊆ action_files st'.2.

(** The number a string of decimal digits denotes, read after [c]. *)
Fixpoint digits_value (u : Decimal.uint) (c : N) : N :=
  match u with
  | Nil => c
  | D0 u => digits_value u (c * 10 + 0)
  | D1 u => digits_value u (c * 10 + 1)
  | D2 u => digits_value u (c * 10 + 2)
  | D3 u => digits_value u (c * 10 + 3)
  | D4 u => digits_value u (c * 10 + 4)
  | D5 u => digits_value u (c * 10 + 5)
  | D6 u => digits_value u (c * 10 + 6)
  | D7 u => digits_value u (c * 10 + 7)
  | D8 u => digits_value u (c * 10 + 8)
  | D9 u => digits_value u (c * 10 + 9)
  end.

(** The integer that a sign and a magnitude denote. *)
Definition signed (neg : bool) (n : N) : Z :=
  if neg then (- Z.of_N n)%Z else Z.of_N n.

(** ** The orchestrator *)

(** An agent that raises, an agent that exits with a given code, and an
    orchestrator started in [/home/user] on an empty vault in [/vault]. *)
Definition agent_raising (ex : exn) : Orchestrator.env :=
  {| Orchestrator.today := lit "2026-01-15";
     Orchestrator.qwen := λ _ _ _ v, (Orchestrator.Raised ex, v) |}.

Definition agent_exiting (returncode : Z) : Orchestrator.env :=
  {| Orchestrator.today := lit "2026-01-15";
     Orchestrator.qwen := λ _ _ _ v, (Orchestrator.Completed returncode [] [], v) |}.

Definition empty_vault : Orchestrator.vault :=
  Orchestrator.Vault NoDir NoDir NoDir NoDir NoDir Orchestrator.NoFile.

Definition started (v : Orchestrator.vault) : Orchestrator.state :=
  Orchestrator.__init__ (lit "/vault") 60 (lit "/home/user") v.

(** Two action files waiting in [Needs_Action], the older one second in the
    listing. *)
Definition invoice_md : file := File (lit "FILE_invoice_2026-01-15.md") true None 410 20.
Definition report_md : file := File (lit "FILE_report_2026-01-15.md") true None 395 10.


(** A vault with one item done on 15 January and a dashboard that shows
    an old stats block, and an agent asked on the day after. *)
Definition done_report : file := File (lit "2026-01-15_report.md") true None 120 5.

Definition small_dashboard : pystr :=
  str_join 10 [lit "# Dashboard"; Orchestrator.stats_marker; lit "| old |"; lit "---";
               lit "## Notes"].

Definition one_done : Orchestrator.vault :=
  Orchestrator.Vault (Dir []) (Dir []) (Dir [done_report]) (Dir []) (Dir [])
    (Orchestrator.Doc small_dashboard).

Definition day_after : Orchestrator.env :=
  {| Orchestrator.today := lit "2026-01-16";
     Orchestrator.qwen := Orchestrator.qwen (agent_exiting 0) |}.

(** A process started as [orchestrator.py --once], with the vault beside
    the script in place and no path named [--once]. *)
Definition once_only : Orchestrator.process :=
  {| Orchestrator.argv := [lit "orchestrator.py"; lit "--once"];
     Orchestrator.expanduser := id;
     Orchestrator.path_exists := λ path, bool_decide (path = lit "/opt/AI_Employee_Vault");
     Orchestrator.default_vault := lit "/opt/AI_Employee_Vault";
     Orchestrator.qwen_version := Orchestrator.Completed 0 (lit "0.1") [] |}.

Section Vocabulary.
Import Orchestrator.
Implicit Types (e : env) (st : state) (prompt line : pystr) (stats nl : list pystr).

(** [m] leaves the component [f] of the state as it was, whether it
    returns or raises. *)
Definition keeps {B A} (f : state → B) (m : M A) : Prop :=
  ∀ st, f (m st).2 = f st.

(** Whether one run of the agent counts as a success: it completed with
    exit code zero. *)
Definition succeeded (r : run_result) : bool :=
  match r with
  | Completed returncode _ _ => bool_decide (returncode = 0%Z)
  | Raised _ => false
  end.

(** The agent's answer to the dispatch of [prompt] from the state [st]. *)
Definition answer e prompt st : run_result * vault :=
  qwen e (qwen_cmd prompt) 300 (vault_path st) (fs st).

(** The batch collected from a folder, given the names already dispatched. *)
Definition pending_of (d : folder) (seen : gset pystr) : result (list file) :=
  match d with
  | NoDir => Ok []
  | Unreadable => Raise OtherError
  | Dir entries =>
      Ok (sorted_by_mtime
            (filter (λ f, is_md f && bool_decide (f_name f ∉ seen)) entries))
  end.

(** A line holds no line end. *)
Definition no_eol (l : pystr) : bool :=
  forallb (λ c, negb ((c =? 10) || (c =? 13))%N) l.

Definition no_marker (ls : list pystr) : Prop := Forall (λ l, is_marker l = false) ls.

(** What the replacement loop needs of the block it inserts: it starts
    with the marker, ends with a separator, holds no separator in between,
    and no line ends inside its lines. *)
Record stats_block (stats : list pystr) : Prop := {
  block_shape : ∃ m body sp,
    stats = m :: body ++ [sp] ∧ is_marker m = true
    ∧ Forall (λ l, is_separator l = false) body
    ∧ is_marker sp = false ∧ is_separator sp = true;
  block_lines : forallb no_eol stats = true
}.

(** What the loop has built after any number of lines. *)
Definition built stats (s : scan) : Prop :=
  forallb no_eol (new_lines s) = true
  ∧ if stats_replaced s
    then ∃ pre mid, new_lines s = pre ++ stats ++ mid ∧ no_marker pre ∧ no_marker mid
    else no_marker (new_lines s).

(** [count_files] and [count_done_today] read the folder and nothing else. *)
Definition count_of (d : folder) : result nat :=
  match d with
  | NoDir => Ok 0
  | Unreadable => Raise OtherError
  | Dir entries =>
      Ok (length (filter (λ f, is_md f && negb (str_startswith (lit ".") (f_name f)))
                    entries))
  end.

Definition done_of e (d : folder) : result nat :=
  match d with
  | NoDir => Ok 0
  | Unreadable => Raise OtherError
  | Dir entries =>
      Ok (length (filter (λ f, str_contains (today e) (f_name f) = true) entries))
  end.

(** The vault after [update_dashboard]. *)
Definition refreshed e (v : vault) : vault :=
  match dashboard v with
  | Doc text =>
      match count_of (needs_action v), count_of (plans v),
            count_of (pending_approval v), done_of e (done v) with
      | Ok p, Ok _, Ok a, Ok d =>
          set_dashboard
            (Doc (replace_stats (stats_lines p a d) (universal_newlines text))) v
      | _, _, _, _ => v
      end
  | _ => v
  end.

(** [m] takes every state to one related to it by [R], whether it returns
    or raises. *)
Definition evolves {A} (R : relation state) (m : M A) : Prop :=
  ∀ st, R st (m st).2.

(** What a run of the orchestrator may do to its own records: add names to
    [processed_files], append to the log and to the record of calls. *)
Definition history (st st' : state) : Prop :=
  processed_files st ⊆ processed_files st'
  ∧ log st `prefix_of` log st'
  ∧ calls st `prefix_of` calls st'
  ∧ vault_path st' = vault_path st
  ∧ check_interval st' = check_interval st.

Definition is_sleep (c : call) : bool :=
  match c with Sleep _ => true | _ => false end.

Definition is_refresh (c : call) : bool :=
  match c with UpdateDashboard => true | _ => false end.

(** The order of a batch: by modification time. *)
Definition older_first : relation file := λ f g, (f_mtime f ≤ f_mtime g)%Z.

End Vocabulary.

(** * Properties *)

(** ** The state store ([BaseWatcher._load_state], [_save_state]) *)

(** C2, on CPython: a watcher that loads the ids 1000, 999, ..., 0 (1000 the
    oldest, 0 the newest) and saves its state persists 1, ..., 1000: the cap
    drops the newest id and keeps the oldest, where first-in-first-out
    eviction would drop 1000 and keep 0. *)
Lemma save_state_evicts_newest_on_cpython :
  let self := BaseWatcher.__init__ (Id_json := int_json)
                (lit "/vault") 60 (Some descending_state_file) in
  BaseWatcher.processed_ids self = ids_descending
  ∧ BaseWatcher.ids_list (Id_set := cpython_int) self = Z.of_nat <$> seq 1 1000
  ∧ last_slice 1000 ids_descending = Z.of_nat <$> reverse (seq 0 1000).
Proof. vm_compute. done. Qed.

Section StateStore.
Context {Id : Type} {Id_eq : EqDecision Id} {Id_set : PySet Id} {Id_json : Json Id}.
Implicit Types (self : BaseWatcher.t Id) (old : option pystr).

Lemma last_slice_length {A} (n : nat) (l : list A) : length (last_slice n l) ≤ n.
Proof. unfold last_slice. rewrite length_drop. lia. Qed.

(** The list that is persisted never holds more than 1000 ids. *)
Lemma ids_list_capped self : length (BaseWatcher.ids_list self) ≤ 1000.
Proof. apply last_slice_length. Qed.

(** An enumeration that obeys the language lists the empty set as []. *)
Lemma set_list_empty `{!PySetLawful Id} : set_list (@set_new Id) = [].
Proof. apply Permutation_nil_r. by rewrite (set_list_perm set_new). Qed.

Lemma write_chunks acc (chunks : list pystr) :
  foldl BaseWatcher.io_apply (Some acc) (BaseWatcher.Write <$> chunks)
  = Some (acc ++ mjoin chunks).
Proof.
  revert acc. induction chunks as [|c chunks IH]; intros acc; simpl.
  - by rewrite app_nil_r.
  - rewrite IH. by rewrite <- (assoc_L (++)).
Qed.

(** The file after the [open] and the first [k] writes. *)
Lemma save_state_upto_S k old self :
  (BaseWatcher._save_state_upto (S k) true old self).1
  = Some (mjoin (take k (json_dump_chunks (BaseWatcher.ids_list self)))).
Proof.
  unfold BaseWatcher._save_state_upto, BaseWatcher.save_steps.
  generalize (json_dump_chunks (BaseWatcher.ids_list self)). intros chunks. simpl.
  by rewrite <- fmap_take, write_chunks.
Qed.

(** C3, as the code has it: [_save_state] rewrites the state file in place.
    Run to its end it leaves the new snapshot; interrupted right after the
    [open] it leaves an empty file; interrupted later it leaves a prefix of
    the new snapshot. *)
Theorem save_state_in_place self old :
  let new := mjoin (json_dump_chunks (BaseWatcher.ids_list self)) in
  (BaseWatcher._save_state true old self).1 = Some new
  ∧ (BaseWatcher._save_state_upto 1 true old self).1 = Some []
  ∧ ∀ k, ∃ p, (BaseWatcher._save_state_upto (S k) true old self).1 = Some p
              ∧ p `prefix_of` new.
Proof.
  intros new. split; [|split].
  - unfold BaseWatcher._save_state.
    change (length (BaseWatcher.save_steps self))
      with (S (length (BaseWatcher.Write
                         <$> json_dump_chunks (BaseWatcher.ids_list self)))).
    rewrite save_state_upto_S, length_fmap. by rewrite firstn_all.
  - by rewrite save_state_upto_S.
  - intros k. eexists. split; [apply save_state_upto_S|].
    exists (mjoin (drop k (json_dump_chunks (BaseWatcher.ids_list self)))).
    unfold new. rewrite <- (take_drop k (json_dump_chunks _)) at 1.
    apply join_app.
Qed.

End StateStore.

(** Insertion-ordered sets obey the language. *)
Lemma ordered_set_list_lawful {Id} `{EqDecision Id} :
  PySetLawful Id (Id_set := ordered_set_list).
Proof.
  intros s. unfold set_list, ordered_set_list.
  rewrite reverse_Permutation.
  apply NoDup_Permutation; [apply NoDup_remove_dups..|].
  intros x. by rewrite !elem_of_remove_dups, elem_of_reverse.
Qed.

(** C3 as stated fails: a watcher holding the ids 7 and 8 saves over the
    snapshot of 7 and is interrupted right after opening the file; the file
    is then empty, neither the previous snapshot nor the new one. *)
Lemma interrupted_save_is_neither_snapshot :
  let self : BaseWatcher.t Z :=
    BaseWatcher.Make (lit "/vault") 60 [7; 8]%Z [] in
  let old := Some (mjoin (json_dump_chunks (Id_json := int_json) [7%Z])) in
  let new := (BaseWatcher._save_state (Id_set := cpython_int) (Id_json := int_json)
                true old self).1 in
  let interrupted :=
    (BaseWatcher._save_state_upto (Id_set := cpython_int) (Id_json := int_json)
       1 true old self).1 in
  interrupted = Some [] ∧ interrupted ≠ old ∧ interrupted ≠ new.
Proof. vm_compute. repeat split; discriminate. Qed.

(** ** The filesystem watcher *)

(** C1, on the code: [check_for_updates] itself registers the digest of the
    file it reports.  [process_file] then takes the file for one already
    processed: the round creates no action file and leaves the file in the
    drop folder, and the next detection does not report it again.  And when
    [create_action_file] fails under [process_file] (here called by the
    observer), the digest stays unregistered but the file is removed from
    the drop folder, so no later detection can report it. *)
Lemma detection_registers_digest :
  let detection :=
    FileSystemWatcher.check_for_updates (fresh_watcher one_drop) one_drop in
  let round :=
    FileSystemWatcher.periodic_check (Id_set := cpython_int) (Id_json := int_json)
      (fresh_watcher one_drop) one_drop in
  let failed :=
    FileSystemWatcher.on_created (fresh_watcher one_drop_unwritable)
      (lit "report.pdf") false one_drop_unwritable in
  (fst <$> detection = Some [lit "report.pdf"]
   ∧ elements ∘ FileSystemWatcher.processed_hashes ∘ snd <$> detection
     = Some [lit "900150983cd24fb0d6963f7d28e17f72"])
  ∧ (map_to_list (FileSystemWatcher.needs_action round.2) = []
     ∧ FileSystemWatcher.drop_folder round.2 = Dir [report_pdf]
     ∧ fst <$> FileSystemWatcher.check_for_updates round.1 round.2 = Some [])
  ∧ (map_to_list (FileSystemWatcher.needs_action failed.2) = []
     ∧ elements (FileSystemWatcher.processed_hashes failed.1) = []
     ∧ FileSystemWatcher.drop_folder failed.2 = Dir []).
Proof. split_and!; vm_compute; reflexivity. Qed.

(** *** Action-file names *)

Lemma action_file_name_inj (s1 s2 t1 t2 : pystr) :
  10 ≤ length t1 → 10 ≤ length t2 →
  FileSystemWatcher.action_file_name s1 t1 = FileSystemWatcher.action_file_name s2 t2 →
  s1 = s2 ∧ take 10 t1 = take 10 t2.
Proof.
  intros H1 H2. unfold FileSystemWatcher.action_file_name, prefix_slice.
  intros Heq. apply app_inv_head in Heq.
  assert (length (take 10 t1) = 10) as L1 by (rewrite length_take; lia).
  assert (length (take 10 t2) = 10) as L2 by (rewrite length_take; lia).
  apply app_inj_2 in Heq as [-> Heq].
  - split; [done|]. apply app_inv_head in Heq. by apply app_inv_tail in Heq.
  - rewrite !length_app, L1, L2. done.
Qed.

Section ActionFiles.
Context {Id : Type} {Id_eq : EqDecision Id} {Id_set : PySet Id} {Id_json : Json Id}.
Implicit Types (self : FileSystemWatcher.t Id) (w : FileSystemWatcher.world).

(** What a successful [create_action_file] does. *)
Lemma create_action_file_Some self it w name self' w' :
  FileSystemWatcher.create_action_file self it w = (Some name, self', w') →
  name = FileSystemWatcher.action_file_name
           (BaseWatcher.sanitize_filename (stem (FileSystemWatcher.i_source it)))
           (FileSystemWatcher.clock w)
  ∧ self' = FileSystemWatcher.add_hash (FileSystemWatcher.i_hash it) self
  ∧ ∃ content,
      FileSystemWatcher.a_hash content = FileSystemWatcher.i_hash it
      ∧ FileSystemWatcher.needs_action w'
        = <[name := content]> (FileSystemWatcher.needs_action w).
Proof.
  unfold FileSystemWatcher.create_action_file.
  destruct (FileSystemWatcher.files w !! _) as [dest|]; [|by intros [=]].
  destruct (FileSystemWatcher.needs_action_writable w); [|by intros [=]].
  intros [= <- <- <-]. split_and!; [done..|].
  eexists. split; [|reflexivity]. reflexivity.
Qed.

(** What a failed [create_action_file] does: it registers nothing; when
    [write_text] had opened the action file, the name holds a file that is
    empty or cut short; otherwise the world is as it was. *)
Lemma create_action_file_None self it w self' w' :
  FileSystemWatcher.create_action_file self it w = (None, self', w') →
  FileSystemWatcher.processed_hashes self' = FileSystemWatcher.processed_hashes self
  ∧ FileSystemWatcher.drop_folder w' = FileSystemWatcher.drop_folder w
  ∧ FileSystemWatcher.files w' = FileSystemWatcher.files w
  ∧ FileSystemWatcher.state_file w' = FileSystemWatcher.state_file w
  ∧ match FileSystemWatcher.files w !! FileSystemWatcher.i_destination it with
    | Some _ =>
        if FileSystemWatcher.needs_action_openable w then
          let name :=
            FileSystemWatcher.action_file_name
              (BaseWatcher.sanitize_filename (stem (FileSystemWatcher.i_source it)))
              (FileSystemWatcher.clock w) in
          FileSystemWatcher.needs_action w'
          = delete name (FileSystemWatcher.needs_action w)
          ∧ FileSystemWatcher.truncated w' = {[name]} ∪ FileSystemWatcher.truncated w
        else w' = w
    | None => w' = w
    end.
Proof.
  unfold FileSystemWatcher.create_action_file.
  destruct (FileSystemWatcher.files w !! _) as [dest|]; [|by intros [= <- <-]].
  destruct (FileSystemWatcher.needs_action_writable w); [by intros [=]|].
  destruct (FileSystemWatcher.needs_action_openable w); by intros [= <- <-].
Qed.

(** C6, as the code has it: the name of the action file is a function of
    the sanitized stem and the day alone, different for different stems or
    days; [create_action_file] writes at that name, in place of whatever
    the name held before. *)
Theorem action_file_name_by_stem_and_day :
  (∀ s1 s2 t1 t2 : pystr, 10 ≤ length t1 → 10 ≤ length t2 →
     FileSystemWatcher.action_file_name s1 t1 = FileSystemWatcher.action_file_name s2 t2
     ↔ s1 = s2 ∧ take 10 t1 = take 10 t2)
  ∧ (∀ self it w name self' w',
       FileSystemWatcher.create_action_file self it w = (Some name, self', w') →
       name = FileSystemWatcher.action_file_name
                (BaseWatcher.sanitize_filename (stem (FileSystemWatcher.i_source it)))
                (FileSystemWatcher.clock w)
       ∧ ∃ content,
           FileSystemWatcher.a_hash content = FileSystemWatcher.i_hash it
           ∧ FileSystemWatcher.needs_action w'
             = <[name := content]> (FileSystemWatcher.needs_action w)).
Proof.
  split.
  - intros s1 s2 t1 t2 H1 H2. split; [by apply action_file_name_inj|].
    intros [-> Ht]. unfold FileSystemWatcher.action_file_name, prefix_slice.
    by rewrite Ht.
  - intros self it w name self' w' Hc.
    apply create_action_file_Some in Hc as (? & _ & ?). done.
Qed.

End ActionFiles.

(** C6 as stated fails: after [report.pdf] and [report.txt] are processed on
    the same day, [Needs_Action] holds one action file, and it describes
    [report.txt]: the action file of [report.pdf] was overwritten. *)
Lemma same_stem_same_day_overwrites :
  let first :=
    FileSystemWatcher.on_created (fresh_watcher two_drops) (lit "report.pdf") false
      two_drops in
  let second :=
    FileSystemWatcher.on_created first.1 (lit "report.txt") false first.2 in
  (FileSystemWatcher.a_source <$> FileSystemWatcher.needs_action first.2
                                !! lit "FILE_report_2026-01-15.md")
  = Some (lit "report.pdf")
  ∧ (FileSystemWatcher.a_source <$> FileSystemWatcher.needs_action second.2
                                  !! lit "FILE_report_2026-01-15.md")
    = Some (lit "report.txt")
  ∧ size (FileSystemWatcher.needs_action second.2) = 1
  ∧ size (FileSystemWatcher.files second.2) = 2.
Proof. split_and!; vm_compute; reflexivity. Qed.

(** The names of two action files of one day coincide, for example. *)
Lemma action_file_name_same_day :
  FileSystemWatcher.action_file_name (lit "report") (lit "2026-01-15T09:30:00")
  = FileSystemWatcher.action_file_name (lit "report") (lit "2026-01-15T17:45:10").
Proof.
  apply (proj1 (action_file_name_by_stem_and_day (Id := Z)));
    [vm_compute; lia..|]. split; reflexivity.
Defined.

(** *** The persisted ids and the digests *)

Section Ledger.
Context {Id : Type} {Id_eq : EqDecision Id} {Id_set : PySet Id} {Id_json : Json Id}.
Implicit Types (self : FileSystemWatcher.t Id) (w : FileSystemWatcher.world).
Implicit Types (acc : list pystr * FileSystemWatcher.t Id).

Lemma ids_check_entry acc (f : file) :
  ids (FileSystemWatcher.check_entry acc f).2 = ids acc.2.
Proof.
  destruct acc as [new_files self]. unfold FileSystemWatcher.check_entry.
  repeat case_match; done.
Qed.

Lemma ids_check_for_updates self w items self' :
  FileSystemWatcher.check_for_updates self w = Some (items, self') →
  ids self' = ids self.
Proof.
  unfold FileSystemWatcher.check_for_updates.
  destruct (FileSystemWatcher.drop_folder w) as [| |entries]; [by intros [= _ <-]|done|].
  intros [= Heq]. change self' with ((items, self').2). rewrite <- Heq. clear Heq.
  change self with ((@nil pystr, self).2) at 2.
  generalize (@nil pystr, self). induction entries as [|f entries IH]; intros acc.
  - done.
  - simpl. by rewrite IH, ids_check_entry.
Qed.

Lemma ids_create_action_file self it w :
  ids (FileSystemWatcher.create_action_file self it w).1.2 = ids self.
Proof. unfold FileSystemWatcher.create_action_file. repeat case_match; done. Qed.

Lemma ids_process_file self source w :
  ids (FileSystemWatcher.process_file self source w).1 = ids self.
Proof.
  unfold FileSystemWatcher.process_file.
  destruct (_ ≫= _) as [[f file_hash]|]; [|done].
  case_decide; [done|].
  match goal with
  | |- context [FileSystemWatcher.create_action_file ?s ?i ?v] =>
      pose proof (ids_create_action_file s i v) as Hc;
      destruct (FileSystemWatcher.create_action_file s i v) as [[r self'] w']
  end.
  done.
Qed.

Lemma ids_save_state self w :
  ids (FileSystemWatcher._save_state self w).1 = ids self.
Proof.
  unfold FileSystemWatcher._save_state, BaseWatcher._save_state,
    BaseWatcher._save_state_upto.
  by destruct (FileSystemWatcher.state_file_writable w).
Qed.

Lemma ids_process_files (items : list pystr) self w :
  ids (foldl (λ '(self, w) it, FileSystemWatcher.process_file self it w)
         (self, w) items).1 = ids self.
Proof.
  revert self w. induction items as [|it items IH]; intros self w; [done|].
  simpl. pose proof (ids_process_file self it w) as Hp.
  destruct (FileSystemWatcher.process_file self it w) as [self' w'].
  by rewrite IH.
Qed.

Lemma ids_periodic_check self w :
  ids (FileSystemWatcher.periodic_check self w).1 = ids self.
Proof.
  unfold FileSystemWatcher.periodic_check.
  destruct (FileSystemWatcher.check_for_updates self w) as [[items self1]|] eqn:Hc;
    [|done].
  apply ids_check_for_updates in Hc.
  destruct items as [|it items].
  - by rewrite ids_save_state.
  - match goal with
    | |- context [foldl ?f (?s, ?v) ?l] =>
        pose proof (ids_process_files l s v) as Hp;
        destruct (foldl f (s, v) l) as [self2 w2]
    end.
    cbn [fst] in Hp. rewrite ids_save_state, Hp. exact Hc.
Qed.

Lemma ids_step (st : FileSystemWatcher.t Id * FileSystemWatcher.world) e :
  ids (FileSystemWatcher.step st e).1 = ids st.1.
Proof.
  destruct st as [self w]. destruct e as [|name is_directory|]; simpl.
  - apply ids_periodic_check.
  - unfold FileSystemWatcher.on_created. destruct is_directory; [done|].
    by rewrite ids_process_file.
  - done.
Qed.

(** No operation of the watcher changes the set of ids. *)
Lemma ids_run (st : FileSystemWatcher.t Id * FileSystemWatcher.world) events :
  ids (FileSystemWatcher.run st events).1 = ids st.1.
Proof.
  revert st. induction events as [|e events IH]; intros st; [done|].
  unfold FileSystemWatcher.run in *. simpl. by rewrite IH, ids_step.
Qed.

(** A save that succeeds leaves the snapshot of [ids_list]. *)
Lemma save_state_file self w :
  FileSystemWatcher.state_file_writable w = true →
  FileSystemWatcher.state_file (FileSystemWatcher._save_state self w).2
  = Some (mjoin (json_dump_chunks
                   (BaseWatcher.ids_list (FileSystemWatcher.base self)))).
Proof.
  intros Hw. unfold FileSystemWatcher._save_state, BaseWatcher._save_state.
  rewrite Hw.
  change (length (BaseWatcher.save_steps (FileSystemWatcher.base self)))
    with (S (length (BaseWatcher.Write
                       <$> json_dump_chunks
                             (BaseWatcher.ids_list (FileSystemWatcher.base self))))).
  pose proof (save_state_upto_S
                (length (BaseWatcher.Write
                           <$> json_dump_chunks
                                 (BaseWatcher.ids_list (FileSystemWatcher.base self))))
                (FileSystemWatcher.state_file w) (FileSystemWatcher.base self)) as Hs.
  destruct (BaseWatcher._save_state_upto _ _ _ _) as [content b].
  simpl in *. rewrite Hs, length_fmap. by rewrite firstn_all.
Qed.

Lemma check_entries_keep (entries : list file) acc (x : pystr) :
  x ∈ acc.1 → x ∈ (foldl FileSystemWatcher.check_entry acc entries).1.
Proof.
  revert acc. induction entries as [|f entries IH]; intros acc Hx; [done|].
  cbn [foldl]. apply IH. destruct acc as [new_files self].
  unfold FileSystemWatcher.check_entry. repeat case_match; cbn [fst] in *; try done.
  set_solver.
Qed.

(** A visible regular file whose digest the watcher has not seen is
    reported, or another file of the same content is. *)
Lemma check_entries_detect (entries : list file) acc (f : file) (h : pystr) :
  f ∈ entries → f_is_file f = true →
  str_startswith (lit ".") (f_name f) = false → f_md5 f = Some h →
  h ∉ FileSystemWatcher.processed_hashes acc.2 →
  ∃ g, g ∈ entries ∧ f_md5 g = Some h
       ∧ f_name g ∈ (foldl FileSystemWatcher.check_entry acc entries).1.
Proof.
  revert acc. induction entries as [|e entries IH]; intros acc Hf Hreg Hvis Hmd5 Hh.
  { by apply elem_of_nil in Hf. }
  destruct acc as [new_files self]. simpl in Hh.
  destruct (decide (f_is_file e && negb (str_startswith (lit ".") (f_name e)) = true
                    ∧ f_md5 e = Some h)) as [[He1 He2]|Hne].
  - exists e. split_and!; [set_solver|done|].
    cbn [foldl]. apply check_entries_keep.
    unfold FileSystemWatcher.check_entry. rewrite He1, He2.
    rewrite decide_False by done. cbn [fst]. set_solver.
  - assert (f ∈ entries) as Hf'.
    { apply elem_of_cons in Hf as [->|]; [|done].
      exfalso. apply Hne. by rewrite Hreg, Hvis. }
    destruct (IH (FileSystemWatcher.check_entry (new_files, self) e))
      as (g & Hg & Hgh & Hgn); try done.
    + unfold FileSystemWatcher.check_entry.
      destruct (f_is_file e && negb (str_startswith (lit ".") (f_name e))) eqn:E1;
        [|done].
      destruct (f_md5 e) as [h'|] eqn:E2; [|done].
      case_decide; [done|]. simpl.
      assert (h' ≠ h) by (intros ->; by apply Hne). set_solver.
    + exists g. split_and!; [set_solver|done..].
Qed.

(** Whether the state file can be written is the outside world's doing. *)
Lemma writable_create_action_file self it w :
  FileSystemWatcher.state_file_writable
    (FileSystemWatcher.create_action_file self it w).2
  = FileSystemWatcher.state_file_writable w.
Proof. unfold FileSystemWatcher.create_action_file. repeat case_match; done. Qed.

Lemma writable_process_file self source w :
  FileSystemWatcher.state_file_writable (FileSystemWatcher.process_file self source w).2
  = FileSystemWatcher.state_file_writable w.
Proof.
  unfold FileSystemWatcher.process_file.
  destruct (_ ≫= _) as [[f file_hash]|]; [|done].
  case_decide; [done|].
  match goal with
  | |- context [FileSystemWatcher.create_action_file ?s ?i ?v] =>
      pose proof (writable_create_action_file s i v) as Hc;
      destruct (FileSystemWatcher.create_action_file s i v) as [[r self'] w']
  end.
  exact Hc.
Qed.

Lemma writable_process_files (items : list pystr) self w :
  FileSystemWatcher.state_file_writable
    (foldl (λ '(self, w) it, FileSystemWatcher.process_file self it w)
       (self, w) items).2
  = FileSystemWatcher.state_file_writable w.
Proof.
  revert self w. induction items as [|it items IH]; intros self w; [done|].
  cbn [foldl]. pose proof (writable_process_file self it w) as Hp.
  destruct (FileSystemWatcher.process_file self it w) as [self' w'].
  by rewrite IH.
Qed.

(** The state file after a round of the periodic check: the snapshot of
    the ids the watcher held before the round. *)
Lemma periodic_check_state_file self w :
  FileSystemWatcher.state_file_writable w = true →
  FileSystemWatcher.drop_folder w ≠ Unreadable →
  ∃ self', ids self' = ids self
    ∧ FileSystemWatcher.state_file (FileSystemWatcher.periodic_check self w).2
      = Some (mjoin (json_dump_chunks
                       (BaseWatcher.ids_list (FileSystemWatcher.base self')))).
Proof.
  intros Hw Hdrop. unfold FileSystemWatcher.periodic_check.
  destruct (FileSystemWatcher.check_for_updates self w) as [[items self1]|] eqn:Hc.
  2:{ unfold FileSystemWatcher.check_for_updates in Hc.
      by destruct (FileSystemWatcher.drop_folder w). }
  apply ids_check_for_updates in Hc. destruct items as [|it items].
  - exists self1. split; [done|]. by apply save_state_file.
  - match goal with
    | |- context [foldl ?f (?s, ?v) ?l] =>
        pose proof (ids_process_files l s v) as Hp;
        pose proof (writable_process_files l s v) as Hq;
        destruct (foldl f (s, v) l) as [self2 w2]
    end.
    cbn [fst snd] in Hp, Hq. exists self2. split.
    + rewrite Hp. exact Hc.
    + apply save_state_file. by rewrite Hq.
Qed.

Lemma empty_ids_list `{!PySetLawful Id} self :
  ids self = set_new →
  mjoin (json_dump_chunks (BaseWatcher.ids_list (FileSystemWatcher.base self)))
  = empty_snapshot.
Proof.
  unfold ids, BaseWatcher.ids_list. intros ->. by rewrite set_list_empty.
Qed.

(** C10: no operation of the filesystem watcher adds to [processed_ids].  A
    watcher started on an empty ledger therefore holds none after any run,
    every save of its state writes the empty list (so does a further round
    of the periodic check, when it gets to list the drop folder), and a
    watcher started
    again knows no digest: each visible regular file of the drop folder is
    detected anew, or a file of the same content is. *)
Theorem processed_ids_stay_empty `{!PySetLawful Id}
    vault drop interval w0 (events : list FileSystemWatcher.event) :
  let start : FileSystemWatcher.t Id :=
    FileSystemWatcher.__init__ vault drop interval w0 in
  ids start = set_new →
  let st := FileSystemWatcher.run (start, w0) events in
  let again := FileSystemWatcher.__init__ (Id := Id) vault drop interval st.2 in
  ids st.1 = set_new
  ∧ (FileSystemWatcher.state_file_writable st.2 = true →
     FileSystemWatcher.state_file (FileSystemWatcher._save_state st.1 st.2).2
     = Some empty_snapshot
     ∧ (FileSystemWatcher.drop_folder st.2 ≠ Unreadable →
        FileSystemWatcher.state_file
          (FileSystemWatcher.run (start, w0)
             (events ++ [FileSystemWatcher.PeriodicCheck])).2
        = Some empty_snapshot))
  ∧ FileSystemWatcher.processed_hashes again = ∅
  ∧ ∀ entries f h,
      FileSystemWatcher.drop_folder st.2 = Dir entries →
      f ∈ entries → f_is_file f = true →
      str_startswith (lit ".") (f_name f) = false → f_md5 f = Some h →
      ∃ g items self, g ∈ entries ∧ f_md5 g = Some h
           ∧ FileSystemWatcher.check_for_updates again st.2 = Some (items, self)
           ∧ f_name g ∈ items.
Proof.
  intros start Hstart st again.
  assert (ids st.1 = set_new) as Hids.
  { unfold st. by rewrite ids_run. }
  split_and!.
  - done.
  - intros Hw. split.
    + rewrite save_state_file by done. by apply f_equal, empty_ids_list.
    + intros Hdrop. unfold FileSystemWatcher.run. rewrite foldl_app. cbn [foldl].
      fold (FileSystemWatcher.run (start, w0) events). fold st.
      destruct st as [self w]. cbn [FileSystemWatcher.step].
      destruct (periodic_check_state_file self w Hw Hdrop) as (self' & Hs & ->).
      apply f_equal, empty_ids_list. by rewrite Hs.
  - done.
  - intros entries f h Hd Hf Hreg Hvis Hmd5.
    unfold FileSystemWatcher.check_for_updates. rewrite Hd.
    destruct (check_entries_detect entries ([], again) f h) as (g & Hg & Hh & Hn);
      try done.
    destruct (foldl _ _ _) as [items self]. by exists g, items, self.
Qed.

End Ledger.

(** C10 on a run: the watcher of [one_drop], with insertion-ordered sets,
    goes through a round of the periodic check, the observer's callback and
    another round; it holds no id, and one more round leaves the empty
    snapshot in the state file. *)
Lemma processed_ids_stay_empty_on_one_drop :
  let start := FileSystemWatcher.__init__ (Id_json := int_json) (lit "/vault") None 30
                 one_drop in
  let events := [FileSystemWatcher.PeriodicCheck;
                 FileSystemWatcher.Created (lit "report.pdf") false;
                 FileSystemWatcher.PeriodicCheck] in
  ids (FileSystemWatcher.run (Id_set := ordered_int) (Id_json := int_json)
         (start, one_drop) events).1 = []
  ∧ FileSystemWatcher.state_file
      (FileSystemWatcher.run (Id_set := ordered_int) (Id_json := int_json)
         (start, one_drop) (events ++ [FileSystemWatcher.PeriodicCheck])).2
    = Some empty_snapshot.
Proof.
  intros start events.
  destruct (processed_ids_stay_empty (Id_set := ordered_int) (Id_json := int_json)
              (PySetLawful0 := ordered_set_list_lawful)
              (lit "/vault") None 30 one_drop events eq_refl) as (H1 & H2 & _).
  split; [exact H1|]. apply H2; [vm_compute; reflexivity|vm_compute; discriminate].
Defined.

(** ** The orchestrator *)

(** *** What a method leaves unchanged *)

Section Frames.
Import Orchestrator.
Context {B : Type} (f : state → B).

Lemma keeps_ret {A} (a : A) : keeps f (mret a).
Proof. by intros st. Qed.

Lemma keeps_raise {A} (ex : exn) : keeps f (raise (A := A) ex).
Proof. by intros st. Qed.

Lemma keeps_get : keeps f get.
Proof. by intros st. Qed.

Lemma keeps_bind {A C} (m : M A) (k : A → M C) :
  keeps f m → (∀ a, keeps f (k a)) → keeps f (m ≫= k).
Proof.
  intros Hm Hk st. unfold mbind, M_bind, bind. specialize (Hm st).
  destruct (m st) as [[a|ex] st']; simpl in *; [|done].
  by rewrite Hk.
Qed.

Lemma keeps_try {A} (m : M A) (h : exn → M A) :
  keeps f m → (∀ ex, keeps f (h ex)) → keeps f (try_except m h).
Proof.
  intros Hm Hh st. unfold try_except. specialize (Hm st).
  destruct (m st) as [[a|ex] st']; simpl in *; [done|].
  by rewrite Hh.
Qed.

Lemma keeps_modify (g : state → state) :
  (∀ st, f (g st) = f st) → keeps f (modify g).
Proof. intros Hg st. apply Hg. Qed.

Lemma keeps_iterdir (d : folder) : keeps f (iterdir d).
Proof. by destruct d. Qed.

Lemma keeps_count_files (d : folder) : keeps f (count_files d).
Proof.
  unfold count_files. destruct (negb (exists_ d)); [apply keeps_ret|].
  apply keeps_bind; [apply keeps_iterdir|]. intros entries. apply keeps_ret.
Qed.

Lemma keeps_count_done_today (e : env) (d : folder) : keeps f (count_done_today e d).
Proof.
  unfold count_done_today. destruct (exists_ d); [|apply keeps_ret].
  apply keeps_bind; [apply keeps_iterdir|]. intros entries. apply keeps_ret.
Qed.

End Frames.

Create HintDb keeps.
Global Hint Resolve keeps_ret keeps_raise keeps_get keeps_iterdir keeps_count_files
  keeps_count_done_today : keeps.

(** Breaks a frame goal down along the structure of the method. *)
Ltac keeps_tac :=
  repeat first
    [ solve [auto 1 with keeps nocore]
    | apply keeps_bind | apply keeps_try
    | apply keeps_modify; intros ?; reflexivity
    | progress intros
    | match goal with
      | |- keeps _ (match ?x with _ => _ end) => destruct x
      | |- keeps _ (let (_, _) := ?x in _) => destruct x
      end ].

(** *** Dispatch ([trigger_qwen]) *)

Section Dispatch.
Import Orchestrator.
Implicit Types (e : env) (st : state) (prompt : pystr).

(** [trigger_qwen] never raises; it returns whether the agent succeeded;
    the vault is as the agent left it; the working directory is restored
    when the agent completed and is the vault's when it raised. *)
Lemma trigger_qwen_spec e prompt st :
  (trigger_qwen e prompt st).1 = Ok (succeeded (answer e prompt st).1)
  ∧ fs (trigger_qwen e prompt st).2 = (answer e prompt st).2
  ∧ cwd (trigger_qwen e prompt st).2
    = match (answer e prompt st).1 with
      | Completed _ _ _ => cwd st
      | Raised _ => vault_path st
      end.
Proof.
  unfold answer.
  cbv [trigger_qwen try_except mbind M_bind bind mret M_ret ret get modify logger
       chdir subprocess_run raise].
  cbn [cwd vault_path fs set_cwd set_fs].
  destruct (qwen e (qwen_cmd prompt) 300 (vault_path st) (fs st))
    as [[returncode stdout stderr|[]] v]; cbn [fst snd succeeded];
    repeat case_decide; done.
Qed.

(** C7, as the code has it: [trigger_qwen] gives the agent 300 seconds and
    returns a boolean, true exactly when the agent completed with exit code
    zero; a nonzero exit, a timeout, a missing executable and any other
    exception all return false, and the last record of the log tells the
    three exceptions apart. *)
Theorem trigger_qwen_classifies e prompt st :
  let r := (qwen e (qwen_cmd prompt) 300 (vault_path st) (fs st)).1 in
  let st' := (trigger_qwen e prompt st).2 in
  (trigger_qwen e prompt st).1 = Ok (succeeded r)
  ∧ match r with
    | Completed returncode _ _ => succeeded r = bool_decide (returncode = 0%Z)
    | Raised TimeoutExpired =>
        last (log st') = Some (Log ERROR (lit "Qwen Code timed out after 5 minutes") None)
    | Raised FileNotFoundError =>
        last (log st') = Some (Log ERROR (lit "Qwen Code not found. Is it installed?") None)
    | Raised OtherError =>
        last (log st') = Some (Log ERROR (lit "Error triggering Qwen: ") (Some OtherError))
    end.
Proof.
  intros r st'. split; [apply trigger_qwen_spec|].
  unfold st', r.
  cbv [trigger_qwen try_except mbind M_bind bind mret M_ret ret get modify logger
       chdir subprocess_run raise].
  cbn [cwd vault_path fs set_cwd set_fs].
  destruct (qwen e (qwen_cmd prompt) 300 (vault_path st) (fs st))
    as [[returncode stdout stderr|[]] v]; cbn [fst snd log]; [done|..];
    apply last_snoc.
Qed.

End Dispatch.

(** C4, on the code: the working directory is restored only when
    [subprocess.run] returns.  After a timeout, a missing executable or any
    other exception the process is left in the vault; after an exit, zero
    or not, it is back where it was. *)
Lemma raising_agent_leaves_cwd_in_vault :
  let st := started empty_vault in
  let after e := Orchestrator.cwd (Orchestrator.trigger_qwen e (lit "go") st).2 in
  Orchestrator.cwd st = lit "/home/user"
  ∧ after (agent_raising TimeoutExpired) = lit "/vault"
  ∧ after (agent_raising FileNotFoundError) = lit "/vault"
  ∧ after (agent_raising OtherError) = lit "/vault"
  ∧ after (agent_exiting 0) = lit "/home/user"
  ∧ after (agent_exiting 1) = lit "/home/user".
Proof. split_and!; vm_compute; reflexivity. Qed.

(** C7 as stated fails: a timeout and a missing executable return the same
    result. *)
Lemma timeout_and_not_found_return_alike :
  let st := started empty_vault in
  (Orchestrator.trigger_qwen (agent_raising TimeoutExpired) (lit "go") st).1
  = Orchestrator.Ok false
  ∧ (Orchestrator.trigger_qwen (agent_raising FileNotFoundError) (lit "go") st).1
    = Orchestrator.Ok false
  ∧ (Orchestrator.trigger_qwen (agent_exiting 1) (lit "go") st).1
    = Orchestrator.Ok false.
Proof. split_and!; vm_compute; reflexivity. Qed.

(** *** The prompt ([manifest], [full_prompt]) *)

Section Prompt.
Import Orchestrator.
Implicit Types (p s t a b x : pystr) (ls : list pystr) (pending : list file).

Lemma str_startswith_app p s : str_startswith p (p ++ s) = true.
Proof. induction p as [|c p IH]; cbn; [done|]. by rewrite N.eqb_refl. Qed.

Lemma str_contains_app p a b : str_contains p (a ++ p ++ b) = true.
Proof.
  induction a as [|c a IH]; cbn [app].
  - destruct (p ++ b) eqn:Heq; cbn [str_contains];
      by rewrite <- Heq, str_startswith_app.
  - cbn [str_contains]. by rewrite IH, orb_true_r.
Qed.

Lemma occurs_trans p s t :
  (∃ a b, s = a ++ p ++ b) → (∃ a b, t = a ++ s ++ b) → ∃ a b, t = a ++ p ++ b.
Proof.
  intros (a & b & ->) (a' & b' & ->). exists (a' ++ a), (b ++ b').
  by rewrite <- !(assoc_L (++)).
Qed.

(** A joined string holds each of the strings joined. *)
Lemma str_join_elem (sep : N) ls x :
  x ∈ ls → ∃ a b, str_join sep ls = a ++ x ++ b.
Proof.
  induction ls as [|l ls IH]; [by intros ?%elem_of_nil|].
  intros [->|Hx]%elem_of_cons.
  - destruct ls as [|l' ls]; cbn [str_join].
    + exists [], []. by rewrite app_nil_r.
    + by exists [], (sep :: str_join sep (l' :: ls)).
  - destruct (IH Hx) as (a & b & Heq).
    destruct ls as [|l' ls]; [by apply elem_of_nil in Hx|].
    cbn [str_join] in *. rewrite Heq.
    exists (l ++ sep :: a), b. by rewrite <- (assoc_L (++)).
Qed.

(** The prompt of a batch states its size and lists the name of each of its
    files. *)
Lemma full_prompt_lists_batch pending :
  let prompt := full_prompt (manifest pending) in
  str_contains (lit "I have " ++ str_nat (length pending) ++ lit " new item(s)") prompt
  = true
  ∧ ∀ f : file, f ∈ pending → str_contains (lit "- " ++ f_name f) prompt = true.
Proof.
  intros prompt.
  assert (∃ a b, prompt = a ++ manifest pending ++ b) as Hprompt.
  { exists (_get_system_prompt ++ [10; 10]%N), [10%N].
    unfold prompt, full_prompt. by rewrite <- !(assoc_L (++)). }
  split.
  - destruct (occurs_trans
                (lit "I have " ++ str_nat (length pending) ++ lit " new item(s)")
                (manifest pending) prompt)
      as (a & b & ->); [|done|apply str_contains_app].
    eapply occurs_trans;
      [|unfold manifest; apply str_join_elem, (list_elem_of_lookup_2 _ 1), eq_refl].
    exists [], (lit " to process in /Needs_Action:").
    rewrite app_nil_l, <- !(assoc_L (++)). by do 2 f_equal.
  - intros f Hf.
    destruct (occurs_trans (lit "- " ++ f_name f) (manifest pending) prompt)
      as (a & b & ->); [|done|apply str_contains_app].
    eapply occurs_trans;
      [|unfold manifest; apply str_join_elem, (list_elem_of_lookup_2 _ 3), eq_refl].
    apply str_join_elem. by apply (list_elem_of_fmap_2 (λ f, lit "- " ++ f_name f)).
Qed.

End Prompt.

(** *** Batches ([get_pending_items], [process_pending_items]) *)

Section Batches.
Import Orchestrator.
Implicit Types (e : env) (st : state) (pending : list file).

Lemma insert_by_mtime_perm (f : file) (l : list file) :
  insert_by_mtime f l ≡ₚ f :: l.
Proof.
  induction l as [|g l IH]; [done|]. simpl.
  destruct (f_mtime g <? f_mtime f)%Z; [|done].
  rewrite IH. apply Permutation_swap.
Qed.

Lemma sorted_by_mtime_perm (l : list file) : sorted_by_mtime l ≡ₚ l.
Proof.
  induction l as [|f l IH]; [done|]. unfold sorted_by_mtime in *. simpl.
  by rewrite insert_by_mtime_perm, IH.
Qed.

Lemma get_pending_items_eq st :
  get_pending_items st = (pending_of (needs_action (fs st)) (processed_files st), st).
Proof.
  unfold get_pending_items, pending_of.
  cbv [mbind M_bind bind get iterdir mret M_ret ret raise exists_].
  by destruct (needs_action (fs st)).
Qed.


(** [for f in pending: self.processed_files.add(f)] *)
Lemma elem_of_marked (seen : gset pystr) pending (x : pystr) :
  x ∈ foldl (λ s f, {[f_name f]} ∪ s) seen pending
  ↔ x ∈ seen ∨ x ∈ f_name <$> pending.
Proof.
  revert seen. induction pending as [|f pending IH]; intros seen; simpl.
  - set_solver.
  - rewrite IH. set_solver.
Qed.




End Batches.


(** *** The cycle ([run], [run_once]) *)

Section Cycle.
Import Orchestrator.
Implicit Types (e : env) (st : state).

(** A method that records its entry and then leaves the record alone adds
    one call to it. *)
Lemma calls_enter {A} (c : call) (m : M A) st :
  keeps calls m → calls ((enter c ≫= λ _, m) st).2 = calls st ++ [c].
Proof.
  intros Hm. cbv [mbind M_bind bind enter modify]. by rewrite Hm.
Qed.

Lemma calls_update_dashboard e st :
  calls (update_dashboard e st).2 = calls st ++ [UpdateDashboard].
Proof.
  apply calls_enter. keeps_tac.
Qed.

Lemma calls_process_pending_items e st :
  calls (process_pending_items e st).2 = calls st ++ [ProcessPendingItems].
Proof.
  apply calls_enter. keeps_tac.
Qed.

Lemma keeps_log_each {B} (f : state → B) (items : list file) :
  (∀ st r, f (State (vault_path st) (check_interval st) (processed_files st)
                (log st ++ [r]) (calls st) (cwd st) (fs st)) = f st) →
  keeps f (foldr (λ item k,
                    logger INFO (lit "Approved item ready: " ++ f_name item) None ≫= λ _, k)
             (mret tt) items).
Proof.
  intros Hf. induction items as [|item items IH]; simpl.
  - apply keeps_ret.
  - apply keeps_bind; [|done]. unfold logger. apply keeps_modify. intros st. apply Hf.
Qed.

Lemma calls_check_approvals st :
  calls (check_approvals st).2 = calls st ++ [CheckApprovals].
Proof.
  apply calls_enter. keeps_tac; by apply keeps_log_each.
Qed.

Lemma try_except_returns (body : M unit) (h : exn → M unit) st :
  (∀ ex st', (h ex st').1 = Ok tt) → (try_except body h st).1 = Ok tt.
Proof.
  intros Hh. unfold try_except. destruct (body st) as [[[]|ex] st']; [done|apply Hh].
Qed.

(** [update_dashboard] never raises. *)
Lemma update_dashboard_returns e st : (update_dashboard e st).1 = Ok tt.
Proof.
  unfold update_dashboard.
  match goal with
  | |- ((enter ?c ≫= λ _, try_except ?b ?h) ?s).1 = _ =>
      change ((try_except b h (enter c s).2).1 = Ok tt)
  end.
  by apply try_except_returns.
Qed.

Lemma check_interval_update_dashboard e : keeps check_interval (update_dashboard e).
Proof.
  unfold update_dashboard. keeps_tac.
Qed.

Lemma check_interval_process_pending_items e :
  keeps check_interval (process_pending_items e).
Proof.
  unfold process_pending_items. keeps_tac.
Qed.

Lemma check_interval_check_approvals : keeps check_interval check_approvals.
Proof.
  unfold check_approvals. keeps_tac; by apply keeps_log_each.
Qed.

(** C9, as the code has it: every round of [run] enters
    [update_dashboard], then [process_pending_items]; if the latter returns
    it enters [check_approvals]; if that returns too it sleeps for the
    configured interval, and that is the whole round: there is no second
    refresh.  A round in which a method raised logs the error and ends
    with a sleep of ten seconds instead.  [run_once] makes the same three
    calls and, when they return, a second [update_dashboard], and never
    sleeps. *)
Theorem cycle_calls e st :
  (match cycle_body e st with
   | (Ok _, st') =>
       calls st' = calls st ++ [UpdateDashboard; ProcessPendingItems; CheckApprovals;
                                Sleep (check_interval st)]
       ∧ run_cycle e st = (Ok tt, st')
   | (Raise ex, st') =>
       (calls st' = calls st ++ [UpdateDashboard; ProcessPendingItems]
        ∨ calls st' = calls st ++ [UpdateDashboard; ProcessPendingItems; CheckApprovals])
       ∧ calls (run_cycle e st).2 = calls st' ++ [Sleep 10]
       ∧ log (run_cycle e st).2
         = log st' ++ [Log ERROR (lit "Error in orchestration cycle: ") (Some ex)]
   end)
  ∧ match run_once e st with
    | (Ok _, st') =>
        calls st' = calls st ++ [UpdateDashboard; ProcessPendingItems; CheckApprovals;
                                 UpdateDashboard]
    | (Raise _, st') =>
        calls st' = calls st ++ [UpdateDashboard; ProcessPendingItems]
        ∨ calls st' = calls st ++ [UpdateDashboard; ProcessPendingItems; CheckApprovals]
    end.
Proof.
  pose proof (calls_update_dashboard e st) as Hc1.
  pose proof (update_dashboard_returns e st) as Hr1.
  pose proof (check_interval_update_dashboard e st) as Hi1.
  unfold run_cycle, cycle_body, run_once, try_except.
  cbv [mbind M_bind bind].
  destruct (update_dashboard e st) as [r1 st1]. cbn [fst snd] in *. subst r1.
  pose proof (calls_process_pending_items e st1) as Hc2.
  pose proof (check_interval_process_pending_items e st1) as Hi2.
  destruct (process_pending_items e st1) as [[[]|ex2] st2]; cbn [fst snd] in *.
  - pose proof (calls_check_approvals st2) as Hc3.
    pose proof (check_interval_check_approvals st2) as Hi3.
    destruct (check_approvals st2) as [[[]|ex3] st3]; cbn [fst snd] in *.
    + split.
      * cbv [get sleep enter modify logger]. cbn [calls check_interval].
        rewrite Hc3, Hc2, Hc1, Hi3, Hi2, Hi1, <- !(assoc_L (++)). done.
      * pose proof (calls_update_dashboard e st3) as Hc4.
        pose proof (update_dashboard_returns e st3) as Hr4.
        destruct (update_dashboard e st3) as [r4 st4]. cbn [fst snd] in *. subst r4.
        rewrite Hc4, Hc3, Hc2, Hc1, <- !(assoc_L (++)). done.
    + assert (calls st3
              = calls st ++ [UpdateDashboard; ProcessPendingItems; CheckApprovals]) as H3.
      { rewrite Hc3, Hc2, Hc1, <- !(assoc_L (++)). done. }
      split; [split_and!; [by right|done|done]|by right].
  - assert (calls st2 = calls st ++ [UpdateDashboard; ProcessPendingItems]) as H2.
    { rewrite Hc2, Hc1, <- !(assoc_L (++)). done. }
    split; [split_and!; [by left|done|done]|by left].
Qed.

End Cycle.

(** C9 as stated fails: on an empty vault a round of [run] refreshes the
    dashboard once and sleeps, and [run_once] refreshes it twice and does
    not sleep. *)
Lemma no_second_refresh_in_run :
  Orchestrator.calls (Orchestrator.run_cycle (agent_exiting 0) (started empty_vault)).2
  = [Orchestrator.UpdateDashboard; Orchestrator.ProcessPendingItems;
     Orchestrator.CheckApprovals; Orchestrator.Sleep 60]
  ∧ Orchestrator.calls (Orchestrator.run_once (agent_exiting 0) (started empty_vault)).2
    = [Orchestrator.UpdateDashboard; Orchestrator.ProcessPendingItems;
       Orchestrator.CheckApprovals; Orchestrator.UpdateDashboard].
Proof. split; vm_compute; reflexivity. Qed.

(** *** The dashboard ([update_dashboard]) *)

Section Lines.

Lemma no_eol_app (a b : pystr) : no_eol (a ++ b) = no_eol a && no_eol b.
Proof. apply forallb_app. Qed.

Lemma no_eol_cons (c : N) (l : pystr) :
  no_eol (c :: l) = negb ((c =? 10) || (c =? 13))%N && no_eol l.
Proof. done. Qed.

Lemma no_eol_digits (u : Decimal.uint) : no_eol (digits u) = true.
Proof. induction u; simpl; done. Qed.

Lemma no_eol_str_nat (n : nat) : no_eol (str_nat n) = true.
Proof. apply no_eol_digits. Qed.

Lemma str_split_no_eol (l : pystr) : no_eol l = true → str_split 10 l = [l].
Proof.
  induction l as [|c l IH]; [done|]. rewrite no_eol_cons.
  intros [Hc Hl]%andb_true_iff. simpl.
  destruct (c =? 10)%N; [done|]. by rewrite IH.
Qed.

Lemma str_split_app (l rest : pystr) :
  no_eol l = true → str_split 10 (l ++ 10%N :: rest) = l :: str_split 10 rest.
Proof.
  induction l as [|c l IH]; [done|]. rewrite no_eol_cons.
  intros [Hc Hl]%andb_true_iff. simpl.
  destruct (c =? 10)%N; [done|]. by rewrite IH.
Qed.

(** Splitting what was joined gives the lines back. *)
Lemma str_split_join (ls : list pystr) :
  ls ≠ [] → forallb no_eol ls = true → str_split 10 (str_join 10 ls) = ls.
Proof.
  induction ls as [|l ls IH]; [done|]. intros _. simpl forallb.
  intros [Hl Hls]%andb_true_iff.
  destruct ls as [|l' ls].
  - by apply str_split_no_eol.
  - change (str_join 10 (l :: l' :: ls)) with (l ++ 10%N :: str_join 10 (l' :: ls)).
    rewrite str_split_app by done. by rewrite IH.
Qed.

(** The lines of a text hold no line feed, and no carriage return when the
    text holds none. *)
Lemma str_split_lines (s : pystr) :
  forallb (λ c, negb (c =? 13)%N) s = true → forallb no_eol (str_split 10 s) = true.
Proof.
  induction s as [|c s IH]; [done|]. simpl.
  intros [Hc Hs]%andb_true_iff. specialize (IH Hs). apply negb_true_iff in Hc.
  destruct (c =? 10)%N eqn:E10.
  - simpl. done.
  - destruct (str_split 10 s) as [|l ls]; simpl in *.
    + by rewrite E10, Hc.
    + apply andb_true_iff in IH as [Hl Hls].
      by rewrite E10, Hc, Hl, Hls.
Qed.

Lemma str_join_no_cr (ls : list pystr) :
  forallb no_eol ls = true →
  forallb (λ c, negb (c =? 13)%N) (str_join 10 ls) = true.
Proof.
  assert (∀ l, no_eol l = true → forallb (λ c, negb (c =? 13)%N) l = true) as Hl.
  { induction l as [|c l IH]; [done|]. rewrite no_eol_cons. simpl.
    intros [Hc ?]%andb_true_iff. rewrite IH by done.
    apply negb_true_iff, orb_false_iff in Hc as [_ ->]. done. }
  induction ls as [|l ls IH]; [done|]. simpl forallb.
  intros [H1 H2]%andb_true_iff. destruct ls as [|l' ls].
  - by apply Hl.
  - change (str_join 10 (l :: l' :: ls)) with (l ++ 10%N :: str_join 10 (l' :: ls)).
    rewrite forallb_app, Hl by done. simpl. by apply IH.
Qed.

Lemma list_ind_two {A} (P : list A → Prop) :
  P [] → (∀ x, P [x]) → (∀ x y l, P l → P (y :: l) → P (x :: y :: l)) →
  ∀ l, P l.
Proof.
  intros H0 H1 H2 l. cut (P l ∧ ∀ x, P (x :: l)); [tauto|].
  induction l as [|y l [IHa IHb]]; split; auto.
Qed.

(** Reading translates every carriage return away, and changes nothing in
    a text without one. *)
Lemma universal_newlines_no_cr (s : pystr) :
  forallb (λ c, negb (c =? 13)%N) (universal_newlines s) = true.
Proof.
  induction s as [| x | x y l IH1 IH2] using list_ind_two.
  - done.
  - simpl. by destruct (x =? 13)%N eqn:E; simpl; rewrite ?E.
  - change (universal_newlines (x :: y :: l))
      with (if (x =? 13)%N
            then 10%N :: (if (y =? 10)%N then universal_newlines l
                         else universal_newlines (y :: l))
            else x :: universal_newlines (y :: l)).
    destruct (x =? 13)%N eqn:E; cbn [forallb].
    + by destruct (y =? 10)%N.
    + by rewrite E, IH2.
Qed.

Lemma universal_newlines_id (s : pystr) :
  forallb (λ c, negb (c =? 13)%N) s = true → universal_newlines s = s.
Proof.
  induction s as [|c s IH]; [done|]. simpl.
  intros [Hc Hs]%andb_true_iff. apply negb_true_iff in Hc. rewrite Hc.
  by rewrite IH.
Qed.

Lemma lstrip_snoc (l : pystr) (c : N) :
  is_space c = false → ∃ l', lstrip (l ++ [c]) = l' ++ [c].
Proof.
  intros Hc. induction l as [|x l IH]; simpl.
  - rewrite Hc. by exists [].
  - destruct (is_space x); [done|]. by exists (x :: l).
Qed.

(** Stripping keeps a first character that is no space. *)
Lemma str_strip_head (c : N) (s : pystr) :
  is_space c = false → ∃ s', str_strip (c :: s) = c :: s'.
Proof.
  intros Hc. unfold str_strip. simpl. rewrite Hc, reverse_cons.
  destruct (lstrip_snoc (reverse s) c Hc) as [l' ->].
  rewrite reverse_snoc. by eexists.
Qed.

End Lines.

Section Dashboard.
Import Orchestrator.
Implicit Types (e : env) (st : state) (line : pystr) (stats nl : list pystr).

Lemma scan_no_marker stats nl (r : bool) (ls : list pystr) :
  no_marker ls →
  foldl (scan_line stats) (Scan nl false r) ls = Scan (nl ++ ls) false r.
Proof.
  revert nl. induction ls as [|l ls IH]; intros nl Hls; simpl.
  - by rewrite app_nil_r.
  - apply Forall_cons in Hls as [Hl Hls]. unfold scan_line at 2. rewrite Hl. simpl.
    rewrite IH by done. by rewrite <- (assoc_L (++)).
Qed.

Lemma scan_inside stats nl (ls : list pystr) :
  Forall (λ l, is_separator l = false) ls →
  foldl (scan_line stats) (Scan nl true false) ls = Scan nl true false.
Proof.
  induction ls as [|l ls IH]; intros Hls; simpl; [done|].
  apply Forall_cons in Hls as [Hl Hls]. unfold scan_line at 2. rewrite Hl. simpl.
  destruct (is_marker l); by apply IH.
Qed.

Lemma scan_block stats nl :
  stats_block stats →
  foldl (scan_line stats) (Scan nl false false) stats = Scan (nl ++ stats) false true.
Proof.
  intros [(m & body & sp & Hstats & Hm & Hbody & Hsp1 & Hsp2) _].
  rewrite Hstats at 2. cbn [foldl]. unfold scan_line at 2. rewrite Hm.
  cbn [new_lines stats_replaced]. rewrite foldl_app, scan_inside by done.
  cbn [foldl]. unfold scan_line. by rewrite Hsp1, Hsp2.
Qed.

(** The loop leaves a document alone that holds the block once, between
    lines without a marker. *)
Lemma scan_fixed stats (pre mid : list pystr) :
  stats_block stats → no_marker pre → no_marker mid →
  foldl (scan_line stats) (Scan [] false false) (pre ++ stats ++ mid)
  = Scan (pre ++ stats ++ mid) false true.
Proof.
  intros Hs Hpre Hmid.
  rewrite !foldl_app, scan_no_marker, scan_block, scan_no_marker by done.
  by rewrite <- (assoc_L (++)).
Qed.

Lemma scan_line_built stats (s : scan) line :
  forallb no_eol stats = true → no_eol line = true →
  built stats s → built stats (scan_line stats s line).
Proof.
  intros Hstats Hline [Hclean Hshape]. unfold scan_line, built.
  destruct (is_marker line) eqn:Hm; [done|].
  destruct (in_stats s) eqn:Hin.
  - destruct (is_separator line) eqn:Hsep, (stats_replaced s) eqn:Hrep;
      cbn [andb negb]; rewrite ?Hin, ?Hrep; try done.
    split; cbn [new_lines stats_replaced].
    + by rewrite forallb_app, Hclean, Hstats.
    + exists (new_lines s), []. rewrite app_nil_r.
      split_and!; [done..|]. apply Forall_nil_2.
  - cbn [andb negb]. split; cbn [new_lines stats_replaced].
    + rewrite forallb_app, Hclean. cbn [forallb]. by rewrite Hline.
    + destruct (stats_replaced s).
      * destruct Hshape as (pre & mid & -> & Hpre & Hmid).
        exists pre, (mid ++ [line]). rewrite <- !(assoc_L (++)).
        split_and!; [done..|]. apply Forall_app. split; [done|].
        by apply Forall_singleton.
      * apply Forall_app. split; [done|]. by apply Forall_singleton.
Qed.

Lemma scan_built stats (s : scan) (ls : list pystr) :
  forallb no_eol stats = true → forallb no_eol ls = true →
  built stats s → built stats (foldl (scan_line stats) s ls).
Proof.
  intros Hstats. revert s. induction ls as [|l ls IH]; intros s Hls Hs; [done|].
  simpl in Hls. apply andb_true_iff in Hls as [Hl Hls].
  cbn [foldl]. apply IH; [done|]. by apply scan_line_built.
Qed.

Lemma is_separator_bar (s : pystr) : is_separator (124%N :: s) = false.
Proof.
  unfold is_separator. apply bool_decide_eq_false.
  destruct (str_strip_head 124 s eq_refl) as [s' ->]. discriminate.
Qed.

Lemma is_separator_row (a rest : pystr) :
  head a = Some 124%N → is_separator (a ++ rest) = false.
Proof.
  destruct a as [|c a]; [done|]. intros [= ->]. apply is_separator_bar.
Qed.

(** The block [update_dashboard] builds is one the loop can find again. *)
Lemma stats_lines_block (p a d : nat) : stats_block (stats_lines p a d).
Proof.
  split.
  - unfold stats_lines.
    match goal with
    | |- ∃ m body sp, [?m0; ?l1; ?l2; ?l3; ?l4; ?l5; ?l6; ?l7; ?s0] = _ ∧ _ =>
        exists m0, [l1; l2; l3; l4; l5; l6; l7], s0
    end.
    split_and!.
    + reflexivity.
    + by vm_compute.
    + repeat apply Forall_cons_2; try apply Forall_nil_2;
        first [apply is_separator_row; reflexivity | by vm_compute].
    + by vm_compute.
    + by vm_compute.
  - unfold stats_lines. repeat case_decide; cbn [forallb];
      rewrite ?no_eol_app, ?no_eol_str_nat; reflexivity.
Qed.

Lemma forallb_take_drop {A} (f : A → bool) (n : nat) (l : list A) :
  forallb f l = true → forallb f (take n l) = true ∧ forallb f (drop n l) = true.
Proof.
  intros Hl. rewrite <- (take_drop n l), forallb_app in Hl.
  by apply andb_true_iff in Hl.
Qed.

(** What [replace_stats] writes: lines without line ends, holding the block
    once between lines without a marker, or holding no marker and no
    separator past the fifth line. *)
Lemma replace_stats_lines stats (content : pystr) :
  stats_block stats → forallb (λ c, negb (c =? 13)%N) content = true →
  ∃ out, replace_stats stats content = str_join 10 out
    ∧ forallb no_eol out = true
    ∧ ((∃ pre mid, out = pre ++ stats ++ mid ∧ no_marker pre ∧ no_marker mid)
       ∨ (no_marker out ∧ find_separator 0 out = None)).
Proof.
  intros Hb Hc. unfold replace_stats.
  pose proof (scan_built stats (Scan [] false false) (str_split 10 content)
                (block_lines _ Hb) (str_split_lines _ Hc)) as Hbuilt.
  destruct (foldl _ _ _) as [nl ins rep]. unfold built in Hbuilt.
  cbn [new_lines stats_replaced] in *.
  destruct Hbuilt as [Hclean Hshape]; [split; [done|apply Forall_nil_2]|].
  destruct rep.
  - exists nl. split_and!; [done..|]. by left.
  - destruct (find_separator 0 nl) as [i|] eqn:Hfind.
    + eexists. split; [done|].
      destruct (forallb_take_drop no_eol (S i) nl Hclean) as [Ht Hd].
      split.
      * rewrite !forallb_app, Ht, Hd. by rewrite (block_lines _ Hb).
      * left. eexists _, _. split_and!; [done|..].
        -- by apply Forall_take.
        -- by apply Forall_drop.
    + exists nl. split_and!; [done..|]. by right.
Qed.

(** Refreshing a text that was just refreshed changes nothing. *)
Lemma replace_stats_idem stats (content : pystr) :
  stats_block stats → forallb (λ c, negb (c =? 13)%N) content = true →
  replace_stats stats (universal_newlines (replace_stats stats content))
  = replace_stats stats content.
Proof.
  intros Hb Hc.
  destruct (replace_stats_lines stats content Hb Hc) as (out & -> & Hclean & Hshape).
  rewrite universal_newlines_id by by apply str_join_no_cr.
  destruct Hshape as [(pre & mid & -> & Hpre & Hmid)|[Hno Hfind]].
  - unfold replace_stats. rewrite str_split_join; [|by destruct pre, Hb as [(?&?&?&->&_) _]|done].
    by rewrite scan_fixed.
  - destruct out as [|l out]; [reflexivity|].
    unfold replace_stats. rewrite str_split_join by done.
    rewrite scan_no_marker by done. cbn [stats_replaced new_lines app].
    by rewrite Hfind.
Qed.

Lemma count_files_eq (d : folder) st : count_files d st = (count_of d, st).
Proof. by destruct d. Qed.

Lemma count_done_today_eq e (d : folder) st : count_done_today e d st = (done_of e d, st).
Proof. by destruct d. Qed.

Lemma fs_update_dashboard e st : fs (update_dashboard e st).2 = refreshed e (fs st).
Proof.
  unfold update_dashboard, refreshed.
  cbv [mbind M_bind bind enter modify try_except get logger read_dashboard
       write_dashboard mret M_ret ret raise].
  cbn [fs dashboard].
  destruct (dashboard (fs st)) as [| |text] eqn:Hd; [done|..];
    rewrite !count_files_eq, count_done_today_eq;
    destruct (count_of (needs_action (fs st))); [|done| |done];
    (destruct (count_of (plans (fs st))); [|done]);
    (destruct (count_of (pending_approval (fs st))); [|done]);
    (destruct (done_of e (done (fs st))); [|done]);
    cbn [fs dashboard set_fs]; by rewrite Hd.
Qed.

(** The day enters a refresh through the count of [Done] alone. *)
Lemma refreshed_same_day e1 e2 (v : vault) :
  today e1 = today e2 → refreshed e2 v = refreshed e1 v.
Proof. intros Hday. unfold refreshed, done_of. by rewrite Hday. Qed.

(** C5, as the code has it: refreshing the dashboard twice in a row on the
    same day, with the folders as they were, leaves after the second
    refresh the document the first one left. *)
Theorem update_dashboard_idempotent e1 e2 st :
  today e1 = today e2 →
  let st1 := (update_dashboard e1 st).2 in
  let st2 := (update_dashboard e2 st1).2 in
  dashboard (fs st2) = dashboard (fs st1) ∧ fs st2 = fs st1.
Proof.
  intros Hday st1 st2. cut (fs st2 = fs st1); [by intros ->|].
  unfold st2, st1. rewrite !fs_update_dashboard, (refreshed_same_day e1 e2) by done.
  generalize (fs st). intros v. unfold refreshed at 2.
  destruct (dashboard v) as [| |text] eqn:Hd.
  - unfold refreshed. by rewrite Hd.
  - unfold refreshed. by rewrite Hd.
  - destruct (count_of (needs_action v)) as [p|] eqn:H1;
      [|unfold refreshed; by rewrite Hd, H1].
    destruct (count_of (plans v)) as [q|] eqn:H2;
      [|unfold refreshed; by rewrite Hd, H1, H2].
    destruct (count_of (pending_approval v)) as [a|] eqn:H3;
      [|unfold refreshed; by rewrite Hd, H1, H2, H3].
    destruct (done_of e1 (done v)) as [d|] eqn:H4;
      [|unfold refreshed; by rewrite Hd, H1, H2, H3, H4].
    unfold refreshed. cbn [set_dashboard dashboard needs_action plans pending_approval done].
    rewrite H1, H2, H3, H4.
    rewrite Hd, replace_stats_idem;
      [done|apply stats_lines_block|apply universal_newlines_no_cr].
Qed.

End Dashboard.

(** C5 on [one_done]: two refreshes on 15 January, the second asked of
    another agent, leave the same document. *)
Lemma update_dashboard_idempotent_on_one_day :
  let st1 := (Orchestrator.update_dashboard (agent_exiting 0) (started one_done)).2 in
  let st2 := (Orchestrator.update_dashboard (agent_raising OtherError) st1).2 in
  Orchestrator.dashboard (Orchestrator.fs st2) = Orchestrator.dashboard (Orchestrator.fs st1)
  ∧ Orchestrator.fs st2 = Orchestrator.fs st1.
Proof.
  exact (update_dashboard_idempotent (agent_exiting 0) (agent_raising OtherError)
           (started one_done) eq_refl).
Defined.

(** C5 as stated fails: the day is read at every refresh.  On [one_done] a
    refresh on 15 January shows one task completed today; a second refresh
    on 16 January, with every folder as it was, shows none, and the two
    documents differ. *)
Lemma update_dashboard_differs_across_midnight :
  let st1 := (Orchestrator.update_dashboard (agent_exiting 0) (started one_done)).2 in
  let st2 := (Orchestrator.update_dashboard day_after st1).2 in
  Orchestrator.set_dashboard (Orchestrator.dashboard (Orchestrator.fs st1))
    (Orchestrator.fs st2) = Orchestrator.fs st1
  ∧ Orchestrator.dashboard (Orchestrator.fs st1)
    = Orchestrator.Doc
        (str_join 10 ([lit "# Dashboard"] ++ Orchestrator.stats_lines 0 0 1
                      ++ [lit "## Notes"]))
  ∧ Orchestrator.dashboard (Orchestrator.fs st2)
    = Orchestrator.Doc
        (str_join 10 ([lit "# Dashboard"] ++ Orchestrator.stats_lines 0 0 0
                      ++ [lit "## Notes"]))
  ∧ Orchestrator.dashboard (Orchestrator.fs st2)
    ≠ Orchestrator.dashboard (Orchestrator.fs st1).
Proof. split_and!; vm_compute; (reflexivity || discriminate). Qed.

(** ** Further properties *)

(** A [create_action_file] that fails registers no digest and touches
    neither the drop folder nor [Files] nor the state file.  When it fails
    before the action file is opened (the copy cannot be examined, or the
    file cannot be opened), the world is as it was.  When [write_text]
    fails after opening the file, the one change is that the name of the
    action file holds an empty or cut-short file, whatever it held
    before. *)
Lemma failed_create_action_file_registers_nothing {Id}
    (self self' : FileSystemWatcher.t Id) it (w w' : FileSystemWatcher.world) :
  FileSystemWatcher.create_action_file self it w = (None, self', w') →
  FileSystemWatcher.processed_hashes self' = FileSystemWatcher.processed_hashes self
  ∧ FileSystemWatcher.drop_folder w' = FileSystemWatcher.drop_folder w
  ∧ FileSystemWatcher.files w' = FileSystemWatcher.files w
  ∧ FileSystemWatcher.state_file w' = FileSystemWatcher.state_file w
  ∧ match FileSystemWatcher.files w !! FileSystemWatcher.i_destination it with
    | Some _ =>
        if FileSystemWatcher.needs_action_openable w then
          let name :=
            FileSystemWatcher.action_file_name
              (BaseWatcher.sanitize_filename (stem (FileSystemWatcher.i_source it)))
              (FileSystemWatcher.clock w) in
          FileSystemWatcher.needs_action w'
          = delete name (FileSystemWatcher.needs_action w)
          ∧ FileSystemWatcher.truncated w' = {[name]} ∪ FileSystemWatcher.truncated w
        else w' = w
    | None => w' = w
    end.
Proof. apply create_action_file_None. Qed.

(** On [one_drop_interrupted] the call fails, registers nothing and leaves
    a cut-short [FILE_report_2026-01-15.md]. *)
Lemma failed_create_action_file_on_interrupted_write :
  let it := FileSystemWatcher.Item (lit "report.pdf") (lit "report.pdf")
              (lit "900150983cd24fb0d6963f7d28e17f72") in
  let w := FileSystemWatcher.copy_to_files report_pdf one_drop_interrupted in
  let r := FileSystemWatcher.create_action_file (fresh_watcher w) it w in
  r.1.1 = None
  ∧ FileSystemWatcher.processed_hashes r.1.2
    = FileSystemWatcher.processed_hashes (fresh_watcher w)
  ∧ FileSystemWatcher.files r.2 = FileSystemWatcher.files w
  ∧ elements (FileSystemWatcher.truncated r.2) = [lit "FILE_report_2026-01-15.md"].
Proof.
  intros it w r.
  destruct (failed_create_action_file_registers_nothing (fresh_watcher w) r.1.2 it w r.2
              eq_refl) as (H1 & _ & H2 & _ & _).
  split_and!; [reflexivity|exact H1|exact H2|]. vm_compute. reflexivity.
Defined.

(** When the agent runs to completion, whatever its exit code, the working
    directory after [trigger_qwen] is the one before it. *)
Lemma completed_agent_restores_cwd e prompt st returncode stdout stderr v :
  Orchestrator.qwen e (Orchestrator.qwen_cmd prompt) 300
    (Orchestrator.vault_path st) (Orchestrator.fs st)
  = (Orchestrator.Completed returncode stdout stderr, v) →
  Orchestrator.cwd (Orchestrator.trigger_qwen e prompt st).2 = Orchestrator.cwd st.
Proof.
  intros Hq. destruct (trigger_qwen_spec e prompt st) as (_ & _ & ->).
  unfold answer. by rewrite Hq.
Qed.

Lemma completed_agent_restores_cwd_after_exit_1 :
  Orchestrator.cwd
    (Orchestrator.trigger_qwen (agent_exiting 1) (lit "go") (started empty_vault)).2
  = lit "/home/user".
Proof.
  exact (completed_agent_restores_cwd (agent_exiting 1) (lit "go")
           (started empty_vault) 1 [] [] _ eq_refl).
Defined.

(** *** File names ([BaseWatcher.sanitize_filename]) *)

Section FileNames.
Implicit Types (s name : pystr) (c : N).

Lemma lstrip_suffix s : lstrip s `suffix_of` s.
Proof.
  induction s as [|c s IH]; simpl; [done|].
  destruct (is_space c); [by apply suffix_cons_r | done].
Qed.

Lemma lstrip_head s c : head (lstrip s) = Some c → is_space c = false.
Proof.
  induction s as [|d s IH]; simpl; [done|].
  destruct (is_space d) eqn:Hd; [done|]. simpl. by intros [= <-].
Qed.

Lemma lstrip_fixed s : (∀ c, head s = Some c → is_space c = false) → lstrip s = s.
Proof. destruct s as [|c s]; simpl; [done|]. intros H. by rewrite (H c). Qed.

Lemma elem_of_lstrip s c : c ∈ lstrip s → c ∈ s.
Proof.
  destruct (lstrip_suffix s) as [k Hk]. rewrite Hk at 2.
  rewrite elem_of_app. by right.
Qed.

Lemma elem_of_str_strip s c : c ∈ str_strip s → c ∈ s.
Proof.
  unfold str_strip. rewrite elem_of_reverse. intros H.
  by apply elem_of_lstrip, elem_of_reverse, elem_of_lstrip.
Qed.

Lemma str_strip_length s : length (str_strip s) ≤ length s.
Proof.
  unfold str_strip. rewrite length_reverse.
  etrans; [apply suffix_length, lstrip_suffix|].
  rewrite length_reverse. apply suffix_length, lstrip_suffix.
Qed.

(** What [strip] returns neither starts nor ends with white space. *)
Lemma str_strip_ends s c :
  head (str_strip s) = Some c ∨ last (str_strip s) = Some c → is_space c = false.
Proof.
  unfold str_strip. rewrite head_reverse, last_reverse. intros [H|H].
  - apply (lstrip_head s).
    rewrite <- last_reverse.
    destruct (lstrip_suffix (reverse (lstrip s))) as [k Hk].
    rewrite Hk, last_app. by rewrite H.
  - by apply lstrip_head in H.
Qed.

Lemma str_strip_fixed s :
  (∀ c, head s = Some c ∨ last s = Some c → is_space c = false) → str_strip s = s.
Proof.
  intros H. unfold str_strip.
  rewrite (lstrip_fixed s) by (intros; apply H; by left).
  rewrite lstrip_fixed; [apply reverse_involutive|].
  intros c. rewrite head_reverse. intros; apply H; by right.
Qed.

(** The loop over [invalid_chars] replaces each of them and nothing else. *)
Lemma replace_each (chars : pystr) name :
  foldl (λ name char, str_replace char 95 name) name chars
  = (λ c, if bool_decide (c ∈ chars) then 95%N else c) <$> name.
Proof.
  revert name. induction chars as [|a chars IH]; intros name; simpl.
  - rewrite <- (list_fmap_id name) at 1. apply list_fmap_ext. intros _ c _.
    done.
  - rewrite IH. unfold str_replace. rewrite <- list_fmap_compose.
    apply list_fmap_ext. intros _ c _. simpl.
    destruct (N.eqb_spec c a) as [->|Hne].
    + rewrite (bool_decide_eq_true_2 (a ∈ a :: chars)) by left.
      by case_bool_decide.
    + rewrite (bool_decide_ext (c ∈ a :: chars) (c ∈ chars)); [done|].
      rewrite elem_of_cons. naive_solver.
Qed.

End FileNames.

(** The name [sanitize_filename] returns holds none of the nine characters
    of [invalid_chars], neither starts nor ends with white space, is no
    longer than the name given, and is left as it is by a second call. *)
Theorem sanitize_filename_safe (name : pystr) :
  let s := BaseWatcher.sanitize_filename name in
  (∀ c, c ∈ s → c ∉ BaseWatcher.invalid_chars)
  ∧ (∀ c, head s = Some c ∨ last s = Some c → is_space c = false)
  ∧ length s ≤ length name
  ∧ BaseWatcher.sanitize_filename s = s.
Proof.
  intros s.
  assert (Hin : ∀ c, c ∈ s → c ∉ BaseWatcher.invalid_chars).
  { intros c Hc Hbad. apply elem_of_str_strip in Hc.
    rewrite replace_each in Hc. apply list_elem_of_fmap in Hc as (d & -> & _).
    case_bool_decide; [|done]. vm_compute in Hbad. set_solver. }
  assert (Hends : ∀ c, head s = Some c ∨ last s = Some c → is_space c = false)
    by apply str_strip_ends.
  split_and!; [done|done|..].
  - subst s. unfold BaseWatcher.sanitize_filename.
    etrans; [apply str_strip_length|]. by rewrite replace_each, length_fmap.
  - unfold BaseWatcher.sanitize_filename at 1. rewrite replace_each.
    assert ((λ c, if bool_decide (c ∈ BaseWatcher.invalid_chars) then 95%N else c) <$> s
            = s) as ->.
    { rewrite <- (list_fmap_id s) at 2. apply list_fmap_ext. intros i c Hc.
      apply list_elem_of_lookup_2, Hin in Hc. by rewrite bool_decide_eq_false_2. }
    by apply str_strip_fixed.
Qed.

(** *** Persistence ([BaseWatcher._save_state], [_load_state]) *)

Section Integers.
Local Open Scope N_scope.

Lemma digits_value_acc (u : Decimal.uint) (acc : positive) :
  N.pos (Pos.of_uint_acc u acc) = digits_value u (N.pos acc).
Proof.
  revert acc. induction u; intros acc; cbn [Pos.of_uint_acc digits_value];
    [done|rewrite IHu; f_equal; lia..].
Qed.

Lemma digits_value_of_uint (u : Decimal.uint) : N.of_uint u = digits_value u 0.
Proof.
  unfold N.of_uint.
  induction u; cbn [Pos.of_uint digits_value]; [done|exact IHu|apply digits_value_acc..].
Qed.

Lemma digits_value_to_uint (n : N) : digits_value (N.to_uint n) 0 = n.
Proof. rewrite <- digits_value_of_uint. apply DecimalN.Unsigned.of_to. Qed.

(** Reading the digits of a number. *)
Lemma read_digits (u : Decimal.uint) (rest : pystr) (neg : bool) (cur : option N)
    (acc : list Z) :
  u ≠ Nil →
  read_ints (digits u ++ rest) neg cur acc
  = read_ints rest neg (Some (digits_value u (default 0 cur))) acc.
Proof.
  revert cur. induction u; intros cur Hu; [done|..].
  all: cbn [digits app read_ints N.leb N.compare Pos.compare Pos.compare_cont andb].
  all: assert (u = Nil ∨ u ≠ Nil) as [->|Hne] by (destruct u; first [by left|by right]).
  all: first [reflexivity | by rewrite IHu].
Qed.

Lemma read_number (z : Z) (rest : pystr) (acc : list Z) :
  ∃ neg n, signed neg n = z
    ∧ read_ints (str_int z ++ rest) false None acc = read_ints rest neg (Some n) acc.
Proof.
  destruct z as [|p|p]; unfold str_int; cbn [Z.to_int].
  - exists false, 0. split; [done|]. by rewrite read_digits.
  - exists false, (N.pos p). split; [done|].
    rewrite read_digits by apply DecimalPos.Unsigned.to_uint_nonnil.
    cbn [default from_option].
    pose proof (digits_value_to_uint (N.pos p)) as H. cbn [N.to_uint] in H. by rewrite H.
  - exists true, (N.pos p). split; [done|].
    cbn [app read_ints N.leb N.compare Pos.compare Pos.compare_cont andb N.eqb Pos.eqb].
    rewrite read_digits by apply DecimalPos.Unsigned.to_uint_nonnil.
    cbn [default from_option].
    pose proof (digits_value_to_uint (N.pos p)) as H. cbn [N.to_uint] in H. by rewrite H.
Qed.

Lemma read_tail (ids : list Z) (neg : bool) (n : N) (acc : list Z) :
  read_ints (mjoin ((λ y, 44 :: 32 :: str_int y) <$> ids) ++ [93; 125]) neg (Some n) acc
  = Some (acc ++ signed neg n :: ids).
Proof.
  revert neg n acc. induction ids as [|y ids IH]; intros neg n acc.
  - reflexivity.
  - rewrite fmap_cons.
    match goal with
    | |- context [mjoin (?x :: ?l)] => change (mjoin (x :: l)) with (x ++ mjoin l)
    end.
    cbn [app read_ints N.leb N.compare Pos.compare Pos.compare_cont andb N.eqb Pos.eqb].
    rewrite <- (assoc_L (++)). fold (signed neg n).
    destruct (read_number y (mjoin ((λ y, 44 :: 32 :: str_int y) <$> ids) ++ [93; 125])
                (acc ++ [signed neg n])) as (neg' & n' & <- & ->).
    by rewrite IH, <- (assoc_L (++)).
Qed.

Lemma no_cr_digits (u : Decimal.uint) :
  forallb (λ c, negb (c =? 13)) (digits u) = true.
Proof. induction u; cbn [digits forallb]; by rewrite ?IHu. Qed.

Lemma no_cr_str_int (z : Z) : forallb (λ c, negb (c =? 13)) (str_int z) = true.
Proof.
  unfold str_int. destruct (Z.to_int z); cbn [forallb]; by rewrite no_cr_digits.
Qed.

Lemma no_cr_tail (ids : list Z) :
  forallb (λ c, negb (c =? 13))
    (mjoin ((λ y, 44 :: 32 :: str_int y) <$> ids) ++ [93; 125]) = true.
Proof.
  induction ids as [|y ids IH]; [done|]. rewrite fmap_cons.
  match goal with
  | |- context [mjoin (?x :: ?l)] => change (mjoin (x :: l)) with (x ++ mjoin l)
  end.
  cbn [app forallb]. by rewrite <- (assoc_L (++)), forallb_app, no_cr_str_int, IH.
Qed.

(** The state file written for a list of integers. *)
Lemma int_state_file (ids : list Z) :
  mjoin (json_dump_chunks (Id_json := int_json) ids)
  = (lit "{" ++ quoted (lit "processed_ids") ++ lit ": [")
    ++ match ids with
       | [] => [93; 125]
       | x :: ids' => str_int x ++ mjoin ((λ y, 44 :: 32 :: str_int y) <$> ids') ++ [93; 125]
       end.
Proof.
  destruct ids as [|x ids]; [reflexivity|].
  unfold json_dump_chunks. cbn [json_id int_json].
  rewrite !join_app.
  change (lit "{") with [123]. change (lit ": ") with [58; 32].
  change (lit "[") with [91]. change (lit "]") with [93]. change (lit "}") with [125].
  change (lit ": [") with [58; 32; 91]. change (lit ", ") with [44; 32].
  change (λ y : Z, [44; 32] ++ str_int y) with (λ y : Z, 44 :: 32 :: str_int y).
  generalize (quoted (lit "processed_ids")). intros q.
  change (mjoin [[123]; q; [58; 32]]) with ([123] ++ q ++ [58; 32]).
  change (mjoin [[125]]) with [125].
  match goal with
  | |- context [mjoin (?a :: ?l ++ ?r)] =>
      change (mjoin (a :: l ++ r)) with (a ++ mjoin (l ++ r))
  end.
  rewrite join_app. change (mjoin [[93]]) with [93].
  by rewrite <- !(assoc_L (++)).
Qed.

End Integers.

(** The reader of integer lists reads back what [json.dump] writes. *)
Lemma int_json_lawful : JsonLawful Z (Id_json := int_json).
Proof.
  intros ids. rewrite int_state_file.
  rewrite universal_newlines_id.
  - cbn [json_load_ids int_json]. unfold int_json_load_ids. cbv zeta.
    rewrite str_startswith_app, drop_app_length.
    destruct ids as [|x ids]; [reflexivity|].
    destruct (read_number x (mjoin ((λ y, 44 :: 32 :: str_int y) <$> ids) ++ [93; 125])%N [])
      as (neg & n & <- & ->).
    by rewrite read_tail.
  - rewrite forallb_app. apply andb_true_iff. split; [reflexivity|].
    destruct ids as [|x ids]; [reflexivity|].
    by rewrite forallb_app, no_cr_str_int, no_cr_tail.
Qed.

Section Persistence.
Context {Id : Type} {Id_eq : EqDecision Id} {Id_set : PySet Id} {Id_json : Json Id}.
Context `{!PySetLawful Id} `{!JsonLawful Id}.
Implicit Types (self : BaseWatcher.t Id) (old : option pystr).

Lemma set_of_list (l : list Id) : set_of l = l.
Proof.
  unfold set_of, set_new, set_add.
  assert (∀ acc, foldl (λ s x, s ++ [x]) acc l = acc ++ l) as H.
  { induction l as [|x l IH]; intros acc; cbn [foldl]; [by rewrite app_nil_r|].
    by rewrite IH, <- (assoc_L (++)). }
  apply H.
Qed.

(** The file that [_save_state] leaves. *)
Lemma save_state_file_content self old :
  (BaseWatcher._save_state true old self).1
  = Some (mjoin (json_dump_chunks (BaseWatcher.ids_list self))).
Proof.
  unfold BaseWatcher._save_state, BaseWatcher.save_steps. cbn [length].
  rewrite save_state_upto_S, length_fmap. by rewrite firstn_all.
Qed.

(** A restart after [_save_state]: [__init__] loads the list that was
    saved.  The ids loaded are distinct ids the watcher held, at most 1000
    of them, and all of them when the watcher held no more than 1000. *)
Theorem restart_reloads_saved_ids self old (vault : pystr) (interval : nat) :
  let saved := (BaseWatcher._save_state true old self).1 in
  let again := BaseWatcher.__init__ vault interval saved in
  BaseWatcher.processed_ids again = BaseWatcher.ids_list self
  ∧ NoDup (BaseWatcher.processed_ids again)
  ∧ length (BaseWatcher.processed_ids again) ≤ 1000
  ∧ (∀ x, x ∈ BaseWatcher.processed_ids again → x ∈ BaseWatcher.processed_ids self)
  ∧ (length (remove_dups (BaseWatcher.processed_ids self)) ≤ 1000 →
     ∀ x, x ∈ BaseWatcher.processed_ids self → x ∈ BaseWatcher.processed_ids again).
Proof.
  intros saved again.
  assert (BaseWatcher.processed_ids again = BaseWatcher.ids_list self) as Hids.
  { unfold again, saved. rewrite save_state_file_content.
    unfold BaseWatcher.__init__, BaseWatcher._load_state.
    rewrite json_round_trip.
    cbn [BaseWatcher.processed_ids BaseWatcher.logger BaseWatcher.set_processed_ids].
    apply set_of_list. }
  rewrite Hids. unfold BaseWatcher.ids_list, last_slice.
  pose proof (set_list_perm (BaseWatcher.processed_ids self)) as Hperm.
  split_and!; [done| | | |].
  - eapply sublist_NoDup; [|apply sublist_drop].
    rewrite Hperm. apply NoDup_remove_dups.
  - rewrite length_drop. lia.
  - intros x Hx. apply (elem_of_remove_dups (BaseWatcher.processed_ids self)).
    rewrite <- Hperm. eapply elem_of_sublist; [exact Hx|apply sublist_drop].
  - intros Hlen x Hx. rewrite (Permutation_length Hperm).
    replace (length _ - 1000) with 0 by lia. rewrite drop_0, Hperm.
    by apply elem_of_remove_dups.
Qed.

End Persistence.

(** A watcher that registered 7, 8 and 7 again saves its state and is
    restarted: it holds 7 and 8. *)
Lemma restart_reloads_7_and_8 :
  let self : BaseWatcher.t Z := BaseWatcher.Make (lit "/vault") 60 [7; 8; 7]%Z [] in
  let saved := (BaseWatcher._save_state (Id_set := ordered_int) (Id_json := int_json)
                  true None self).1 in
  BaseWatcher.processed_ids
    (BaseWatcher.__init__ (Id_json := int_json) (lit "/vault") 60 saved)
  = [7; 8]%Z.
Proof.
  intros self saved.
  exact (proj1 (restart_reloads_saved_ids (Id_set := ordered_int) (Id_json := int_json)
                  (PySetLawful0 := ordered_set_list_lawful)
                  (JsonLawful0 := int_json_lawful) self None (lit "/vault") 60)).
Defined.

(** *** Sizes ([FileSystemWatcher._format_size]) *)

Section Sizes.
Local Open Scope N_scope.

(** The number of tenths shown is within a twentieth of the value. *)
Lemma tenths_nearest (n d : N) :
  0 < d →
  2 * (FileSystemWatcher.tenths n d * d) ≤ 20 * n + d
  ∧ 20 * n ≤ 2 * (FileSystemWatcher.tenths n d * d) + d.
Proof.
  intros Hd. unfold FileSystemWatcher.tenths.
  pose proof (N.div_mod (10 * n) d ltac:(lia)) as Hdiv.
  pose proof (N.mod_lt (10 * n) d ltac:(lia)) as Hlt.
  cbv zeta. generalize dependent ((10 * n) mod d). generalize dependent (10 * n / d).
  intros q r Hdiv Hlt. rewrite (N.mul_comm d q) in Hdiv.
  destruct (N.ltb_spec (2 * r) d);
    [|destruct (N.ltb_spec d (2 * r)); [|destruct (N.even q)]];
    rewrite ?N.mul_add_distr_r, ?N.mul_1_l;
    generalize dependent (q * d); intros; lia.
Qed.

Lemma tenths_whole (n : N) : FileSystemWatcher.tenths n 1 = 10 * n.
Proof.
  unfold FileSystemWatcher.tenths. rewrite N.div_1_r, N.mod_1_r. reflexivity.
Qed.

End Sizes.

(** [_format_size] of a size below [2^53] bytes: the unit is the largest of
    B, KB, MB, GB, TB that the size reaches, the number shown has one
    decimal and is within 0.05 of the size in that unit, and a size below
    1024 bytes is shown as it is, with [.0 B] after it. *)
Theorem format_size_spec (n : N) :
  (n < 2 ^ 53)%N →
  (∃ (k : nat) (unit : pystr) (t : N),
     [lit "B"; lit "KB"; lit "MB"; lit "GB"; lit "TB"] !! k = Some unit
     ∧ (k = 0%nat ∨ 1024 ^ N.of_nat k ≤ n)%N
     ∧ (k = 4%nat ∨ n < 1024 ^ N.of_nat (S k))%N
     ∧ (2 * (t * 1024 ^ N.of_nat k) ≤ 20 * n + 1024 ^ N.of_nat k
        ∧ 20 * n ≤ 2 * (t * 1024 ^ N.of_nat k) + 1024 ^ N.of_nat k)%N
     ∧ FileSystemWatcher._format_size n
       = digits (N.to_uint (t / 10)) ++ lit "." ++ digits (N.to_uint (t mod 10))
         ++ lit " " ++ unit)
  ∧ ((n < 1024)%N →
     FileSystemWatcher._format_size n = digits (N.to_uint n) ++ lit ".0 B").
Proof.
  intros _. split.
  - unfold FileSystemWatcher._format_size. cbn [FileSystemWatcher.format_units].
    change (1024 * (1024 * (1024 * (1024 * 1))))%N with (1024 ^ N.of_nat 4)%N.
    change (1024 * (1024 * (1024 * 1)))%N with (1024 ^ N.of_nat 3)%N.
    change (1024 * (1024 * 1))%N with (1024 ^ N.of_nat 2)%N.
    change (1024 * 1)%N with (1024 ^ N.of_nat 1)%N.
    change (FileSystemWatcher.format_1f n 1)
      with (FileSystemWatcher.format_1f n (1024 ^ N.of_nat 0)).
    repeat match goal with
           | |- context [(n <? 1024 ^ N.of_nat ?j)%N] =>
               destruct (N.ltb_spec n (1024 ^ N.of_nat j))
           end.
    all: match goal with
         | |- context [FileSystemWatcher.format_1f ?m (1024 ^ N.of_nat ?j)] =>
             exists j, (default [] ([lit "B"; lit "KB"; lit "MB"; lit "GB"; lit "TB"] !! j)),
               (FileSystemWatcher.tenths m (1024 ^ N.of_nat j))
         end.
    all: split_and!;
      [ reflexivity | first [by left | by right] | first [by left | by right]
      | apply tenths_nearest; by vm_compute
      | apply tenths_nearest; by vm_compute
      | unfold FileSystemWatcher.format_1f; by rewrite <- !(assoc_L (++)) ].
  - intros Hn. unfold FileSystemWatcher._format_size. cbn [FileSystemWatcher.format_units].
    change (1024 * 1)%N with 1024%N.
    destruct (N.ltb_spec n 1024); [|lia].
    unfold FileSystemWatcher.format_1f. rewrite tenths_whole.
    rewrite (N.mul_comm 10 n), N.div_mul, N.Div0.mod_mul by done.
    by rewrite <- !(assoc_L (++)).
Qed.

(** 1280 bytes are 1.25 KB, shown as 1.2 KB. *)
Lemma format_size_of_1280 :
  FileSystemWatcher._format_size 1280 = lit "1.2 KB"
  ∧ ∃ (k : nat) (unit : pystr) (t : N),
     [lit "B"; lit "KB"; lit "MB"; lit "GB"; lit "TB"] !! k = Some unit
     ∧ (k = 0%nat ∨ 1024 ^ N.of_nat k ≤ 1280)%N
     ∧ (k = 4%nat ∨ 1280 < 1024 ^ N.of_nat (S k))%N
     ∧ (2 * (t * 1024 ^ N.of_nat k) ≤ 20 * 1280 + 1024 ^ N.of_nat k
        ∧ 20 * 1280 ≤ 2 * (t * 1024 ^ N.of_nat k) + 1024 ^ N.of_nat k)%N
     ∧ FileSystemWatcher._format_size 1280
       = digits (N.to_uint (t / 10)) ++ lit "." ++ digits (N.to_uint (t mod 10))
         ++ lit " " ++ unit.
Proof.
  split; [reflexivity|].
  apply (format_size_spec 1280). reflexivity.
Defined.

(** *** Detection and processing ([check_for_updates], [process_file], [run]) *)

Section Detection.
Context {Id : Type} {Id_eq : EqDecision Id} {Id_set : PySet Id} {Id_json : Json Id}.
Implicit Types (self : FileSystemWatcher.t Id) (w : FileSystemWatcher.world).
Implicit Types (acc : list pystr * FileSystemWatcher.t Id) (f : file) (h name : pystr).
Import FileSystemWatcher.

(** What the loop of [check_for_updates] has done after any number of
    entries. *)
Lemma check_entries_spec (entries : list file) acc :
  let r := foldl check_entry acc entries in
  ∃ new, r.1 = acc.1 ++ new
    ∧ (∀ name, name ∈ new →
         ∃ f h, f ∈ entries ∧ f_name f = name ∧ candidate f = true
                ∧ f_md5 f = Some h ∧ h ∉ processed_hashes acc.2)
    ∧ processed_hashes acc.2 ⊆ processed_hashes r.2
    ∧ size (processed_hashes r.2) = size (processed_hashes acc.2) + length new
    ∧ (∀ f h, f ∈ entries → candidate f = true → f_md5 f = Some h →
              h ∈ processed_hashes r.2).
Proof.
  revert acc. induction entries as [|f entries IH]; intros [names self]; cbn zeta.
  { exists []. simpl. rewrite app_nil_r. split_and!; [done| |done|lia|].
    - by intros ? ?%elem_of_nil.
    - by intros ? ? ?%elem_of_nil. }
  cbn [foldl].
  destruct (IH (check_entry (names, self) f)) as (new & Hnew & Hfrom & Hsub & Hsize & Hall).
  destruct (check_entry (names, self) f) as [names' self'] eqn:Hce.
  cbn [fst snd] in *.
  assert (Hstep :
    (names' = names ∧ processed_hashes self' = processed_hashes self
     ∧ (candidate f = true → ∀ h, f_md5 f = Some h → h ∈ processed_hashes self))
    ∨ (∃ h, names' = names ++ [f_name f] ∧ self' = add_hash h self
          ∧ candidate f = true ∧ f_md5 f = Some h ∧ h ∉ processed_hashes self)).
  { revert Hce. unfold check_entry, candidate.
    destruct (f_is_file f && negb (str_startswith (lit ".") (f_name f)));
      [|intros [= <- <-]; by left].
    destruct (f_md5 f) as [h|]; [|intros [= <- <-]; by left].
    case_decide; intros [= <- <-]; [left|right; exists h; split_and!; first [done|assumption]].
    split_and!; [done..|]. by intros _ ? [= <-]. }
  destruct Hstep as [(-> & Hsame & Hold)|(h & -> & -> & Hc & Hmd5 & Hfresh)].
  - rewrite Hsame in Hsub, Hsize, Hfrom.
    exists new. split_and!; [done| |done|done|].
    + intros name (g & k & ? & ?)%Hfrom. exists g, k. set_solver.
    + intros g k [->|Hg]%elem_of_cons Hcg Hk; [|by eapply Hall].
      apply Hsub. by eapply Hold.
  - cbn [add_hash processed_hashes] in *.
    exists (f_name f :: new). split_and!.
    + by rewrite Hnew, <- (assoc_L (++)).
    + intros name [->|Hin]%elem_of_cons.
      * exists f, h. set_solver.
      * apply Hfrom in Hin as (g & k & ? & ? & ? & ? & ?). exists g, k. set_solver.
    + set_solver.
    + rewrite Hsize, size_union, size_singleton by set_solver. simpl. lia.
    + intros g k [->|Hg]%elem_of_cons Hcg Hk; [|by eapply Hall].
      apply Hsub. set_solver.
Qed.


(** [drop_lookup] finds an entry of that name. *)
Lemma drop_lookup_Some name w f :
  drop_lookup name w = Some f →
  f_name f = name ∧ ∃ entries, drop_folder w = Dir entries ∧ f ∈ entries.
Proof.
  unfold drop_lookup. destruct (drop_folder w) as [| |entries]; [done..|].
  destruct (list_find _ entries) as [[i g]|] eqn:Hfind; [|done].
  intros [= <-]. apply list_find_Some in Hfind as (Hi & Hname & _).
  split; [done|]. exists entries. split; [done|]. by eapply list_elem_of_lookup_2.
Qed.

Lemma find_cons {A} (P : A → Prop) `{∀ x, Decision (P x)} (x : A) (l : list A) :
  snd <$> list_find P (x :: l)
  = if decide (P x) then Some x else snd <$> list_find P l.
Proof.
  cbn [list_find]. case_decide; [done|]. by destruct (list_find P l) as [[i y]|].
Qed.

(** After [unlink] the name is gone and the other entries are found as
    before. *)
Lemma drop_lookup_unlink name other w :
  drop_lookup name (unlink other w)
  = if decide (name = other) then None else drop_lookup name w.
Proof.
  unfold drop_lookup, unlink. cbn [drop_folder].
  destruct (drop_folder w) as [| |entries]; [by case_decide..|].
  induction entries as [|g entries IH]; [by case_decide|].
  rewrite filter_cons, (find_cons _ g entries).
  destruct (decide (f_name g ≠ other)) as [Hg|Hg%dec_stable].
  - rewrite find_cons, IH. repeat case_decide; congruence.
  - rewrite IH. repeat case_decide; congruence.
Qed.

(** [process_file], case by case. *)
Lemma process_file_spec self source w :
  let r := process_file self source w in
  match drop_lookup source w ≫= λ f, pair f <$> f_md5 f with
  | None => r.2 = w ∧ processed_hashes r.1 = processed_hashes self
  | Some (f, h) =>
      if decide (h ∈ processed_hashes self)
      then r.2 = w ∧ processed_hashes r.1 = processed_hashes self
      else
        let name :=
          action_file_name (BaseWatcher.sanitize_filename (stem source)) (clock w) in
        drop_folder r.2 = drop_folder (unlink source w)
        ∧ files r.2 = <[source := f]> (files w)
        ∧ state_file r.2 = state_file w ∧ clock r.2 = clock w
        ∧ state_file_writable r.2 = state_file_writable w
        ∧ needs_action_writable r.2 = needs_action_writable w
        ∧ needs_action_openable r.2 = needs_action_openable w
        ∧ if needs_action_writable w
          then needs_action r.2
               = <[name := {| a_source := source;
                              a_destination := BaseWatcher.vault_path (base self)
                                               ++ lit "/Files/" ++ source;
                              a_file_type := file_type (str_lower (suffix source));
                              a_size := f_size f;
                              a_received := clock w;
                              a_hash := h |}]> (needs_action w)
               ∧ truncated r.2 = truncated w ∖ {[name]}
               ∧ processed_hashes r.1 = {[h]} ∪ processed_hashes self
          else processed_hashes r.1 = processed_hashes self
               ∧ if needs_action_openable w
                 then needs_action r.2 = delete name (needs_action w)
                      ∧ truncated r.2 = {[name]} ∪ truncated w
                 else needs_action r.2 = needs_action w
                      ∧ truncated r.2 = truncated w
  end.
Proof.
  cbn zeta. unfold process_file.
  destruct (drop_lookup source w) as [f|] eqn:Hf; cbn [mbind option_bind]; [|done].
  destruct (f_md5 f) as [h|] eqn:Hh; cbn [fmap option_fmap option_map]; [|done].
  case_decide; [done|].
  apply drop_lookup_Some in Hf as [Hname _].
  unfold create_action_file, copy_to_files.
  cbn [i_destination i_source i_hash files needs_action_writable needs_action_openable
       clock needs_action truncated drop_folder state_file state_file_writable].
  rewrite Hname, lookup_insert_eq.
  destruct (needs_action_writable w) eqn:Hw;
    [|destruct (needs_action_openable w) eqn:Ho];
    cbn [fst snd unlink drop_folder files state_file truncated
    clock state_file_writable needs_action_writable needs_action_openable
    needs_action processed_hashes
    logger add_hash base BaseWatcher.logger BaseWatcher.vault_path];
    by split_and!.
Qed.

Lemma drop_lookup_same name w w' :
  drop_folder w' = drop_folder w → drop_lookup name w' = drop_lookup name w.
Proof. unfold drop_lookup. by intros ->. Qed.

Global Instance only_adds_preorder : PreOrder (only_adds (Id := Id)).
Proof.
  split.
  - by intros st.
  - intros st1 st2 st3 (? & ? & ?) (? & ? & ?). split_and!; by etrans.
Qed.

Lemma only_adds_check_for_updates self w items self' :
  check_for_updates self w = Some (items, self') → only_adds (self, w) (self', w).
Proof.
  unfold check_for_updates. destruct (drop_folder w) as [| |entries]; [|done|].
  - by intros [= <- <-].
  - destruct (check_entries_spec entries ([], self)) as (new & _ & _ & Hsub & _).
    intros [= Heq]. rewrite Heq in Hsub. by split_and!.
Qed.

Lemma only_adds_process_file self source w :
  only_adds (self, w) (process_file self source w).
Proof.
  pose proof (process_file_spec self source w) as H. cbn zeta in H.
  destruct (process_file self source w) as [self' w']. cbn [fst snd] in H.
  destruct (_ ≫= _) as [[f h]|]; [|by destruct H as [-> ?]; split_and!; set_solver].
  case_decide; [by destruct H as [-> ?]; split_and!; set_solver|].
  destruct H as (_ & Hfiles & _ & _ & _ & _ & _ & H).
  unfold only_adds, action_files. cbn [fst snd]. rewrite Hfiles, dom_insert_L.
  destruct (needs_action_writable w);
    [destruct H as (-> & -> & ->)
    |destruct H as [-> H]; destruct (needs_action_openable w); destruct H as [-> ->]];
    rewrite ?dom_insert_L, ?dom_delete_L; split_and!; try set_solver.
  - intros x Hx. destruct (decide (x = action_file_name
        (BaseWatcher.sanitize_filename (stem source)) (clock w))); set_solver.
  - intros x Hx. destruct (decide (x = action_file_name
        (BaseWatcher.sanitize_filename (stem source)) (clock w))); set_solver.
Qed.

Lemma only_adds_process_files (items : list pystr) self w :
  only_adds (self, w) (foldl (λ '(self, w) it, process_file self it w) (self, w) items).
Proof.
  revert self w. induction items as [|it items IH]; intros self w; [done|].
  cbn [foldl]. pose proof (only_adds_process_file self it w) as Hp.
  destruct (process_file self it w) as [self' w']. by etrans.
Qed.

Lemma only_adds_save_state self w : only_adds (self, w) (_save_state self w).
Proof.
  unfold _save_state, BaseWatcher._save_state, BaseWatcher._save_state_upto.
  by destruct (state_file_writable w).
Qed.

Lemma only_adds_periodic_check self w : only_adds (self, w) (periodic_check self w).
Proof.
  unfold periodic_check.
  destruct (check_for_updates self w) as [[items self1]|] eqn:Hc; [|done].
  apply only_adds_check_for_updates in Hc. etrans; [exact Hc|].
  destruct items as [|it items]; [apply only_adds_save_state|].
  match goal with
  | |- context [foldl ?f (?s, ?v) ?l] =>
      pose proof (only_adds_process_files l s v) as Hp;
      destruct (foldl f (s, v) l) as [self2 w2]
  end.
  etrans; [|apply only_adds_save_state]. etrans; [|exact Hp]. done.
Qed.

Lemma only_adds_step (st : t Id * world) (e : event) : only_adds st (step st e).
Proof.
  destruct st as [self w]. destruct e as [|name is_directory|]; cbn [step].
  - apply only_adds_periodic_check.
  - unfold on_created. destruct is_directory; [done|].
    etrans; [|apply only_adds_process_file]. done.
  - done.
Qed.

End Detection.

(** Every file [check_for_updates] reports is a regular entry of the drop
    folder whose name does not start with a dot and whose digest was not
    registered before the call; the digest of every such entry is registered
    after it; and the call registers as many digests as it reports files, so
    that of several entries with the same content one is reported. *)
Theorem check_for_updates_reports_new {Id} (self self' : FileSystemWatcher.t Id)
    (w : FileSystemWatcher.world) (items : list pystr) :
  FileSystemWatcher.check_for_updates self w = Some (items, self') →
  (∀ name, name ∈ items →
     ∃ entries f h,
       FileSystemWatcher.drop_folder w = Dir entries ∧ f ∈ entries ∧ f_name f = name
       ∧ candidate f = true ∧ f_md5 f = Some h
       ∧ h ∉ FileSystemWatcher.processed_hashes self)
  ∧ (∀ entries f h,
       FileSystemWatcher.drop_folder w = Dir entries → f ∈ entries →
       candidate f = true → f_md5 f = Some h →
       h ∈ FileSystemWatcher.processed_hashes self')
  ∧ FileSystemWatcher.processed_hashes self ⊆ FileSystemWatcher.processed_hashes self'
  ∧ size (FileSystemWatcher.processed_hashes self')
    = size (FileSystemWatcher.processed_hashes self) + length items.
Proof.
  unfold FileSystemWatcher.check_for_updates.
  destruct (FileSystemWatcher.drop_folder w) as [| |entries]; [|done|].
  - intros [= <- <-]. split_and!; [by intros ? ?%elem_of_nil|done|done|simpl; lia].
  - destruct (check_entries_spec entries ([], self))
      as (new & Hnew & Hfrom & Hsub & Hsize & Hall).
    intros [= Heq]. rewrite Heq in *. cbn [fst snd app] in *. subst new.
    split_and!; [|by intros ? ? ? [= <-]; apply Hall|done|done].
    intros name (f & h & ?)%Hfrom. by exists entries, f, h.
Qed.

(** Of [report.pdf] and [copy.pdf], which hold the same bytes, the first is
    reported and one digest is registered. *)
Lemma check_for_updates_on_twin_drops :
  ∃ self',
    FileSystemWatcher.check_for_updates (fresh_watcher twin_drops) twin_drops
    = Some ([lit "report.pdf"], self')
    ∧ size (FileSystemWatcher.processed_hashes self')
      = size (FileSystemWatcher.processed_hashes (fresh_watcher twin_drops)) + 1.
Proof.
  destruct (FileSystemWatcher.check_for_updates (fresh_watcher twin_drops) twin_drops)
    as [[items self']|] eqn:H; [|by vm_compute in H].
  assert (items = [lit "report.pdf"]) as ->.
  { apply (f_equal (fmap fst)) in H. vm_compute in H. by injection H as <-. }
  exists self'. split; [done|].
  apply (check_for_updates_reports_new _ _ _ _ H).
Defined.

Section Watching.
Context {Id : Type} {Id_eq : EqDecision Id} {Id_set : PySet Id} {Id_json : Json Id}.
Implicit Types (self : FileSystemWatcher.t Id) (w : FileSystemWatcher.world).
Implicit Types (f g : file) (h name source : pystr).
Import FileSystemWatcher.

(** A second scan of a drop folder that has not changed reports nothing and
    registers nothing. *)
Theorem rescan_reports_nothing self w items self' :
  check_for_updates self w = Some (items, self') →
  ∃ self'', check_for_updates self' w = Some ([], self'')
            ∧ processed_hashes self'' = processed_hashes self'.
Proof.
  unfold check_for_updates. destruct (drop_folder w) as [| |entries]; [|done|].
  { intros [= <- <-]. by exists self. }
  destruct (check_entries_spec entries ([], self)) as (new & _ & _ & _ & _ & Hall).
  intros [= Heq]. rewrite Heq in Hall. cbn [snd] in Hall.
  destruct (check_entries_spec entries ([], self'))
    as (again & Hagain & Hfrom & Hsub & Hsize & _).
  destruct (foldl check_entry ([], self') entries) as [names self''].
  cbn [fst snd app] in *. subst names. destruct again as [|name again].
  - exists self''. split; [done|]. simpl in Hsize.
    symmetry. apply set_subseteq_size_eq; [done|lia].
  - destruct (Hfrom name) as (f & h & ? & ? & ? & ? & []); [by left|].
    by eapply Hall.
Qed.

(** What [process_file] does with a file whose content is new: it copies the
    file into [Files] under its name and removes it from the drop folder;
    when the action file can be written, it writes the file named after the
    sanitized stem and the day, holding the name, the destination, the type
    of the lower-cased extension, the size, the time and the digest, and
    registers the digest; when it cannot, no digest is registered, though
    the file has left the drop folder: [Needs_Action] is as it was when the
    action file could not be opened, and holds an empty or cut-short action
    file when the write failed after the open. *)
Theorem process_file_moves_new_content self source w f h :
  drop_lookup source w = Some f → f_md5 f = Some h → h ∉ processed_hashes self →
  let r := process_file self source w in
  files r.2 = <[source := f]> (files w)
  ∧ drop_lookup source r.2 = None
  ∧ (∀ other, other ≠ source → drop_lookup other r.2 = drop_lookup other w)
  ∧ if needs_action_writable w
    then needs_action r.2
         = <[action_file_name (BaseWatcher.sanitize_filename (stem source)) (clock w)
             := {| a_source := source;
                   a_destination := BaseWatcher.vault_path (base self)
                                    ++ lit "/Files/" ++ source;
                   a_file_type := file_type (str_lower (suffix source));
                   a_size := f_size f;
                   a_received := clock w;
                   a_hash := h |}]> (needs_action w)
         ∧ processed_hashes r.1 = {[h]} ∪ processed_hashes self
    else processed_hashes r.1 = processed_hashes self
         ∧ if needs_action_openable w
           then needs_action r.2
                = delete (action_file_name (BaseWatcher.sanitize_filename (stem source))
                            (clock w)) (needs_action w)
                ∧ action_file_name (BaseWatcher.sanitize_filename (stem source)) (clock w)
                  ∈ truncated r.2
           else needs_action r.2 = needs_action w
                ∧ truncated r.2 = truncated w.
Proof.
  intros Hf Hh Hnew r. pose proof (process_file_spec self source w) as H.
  cbn zeta in H. fold r in H. rewrite Hf in H. cbn [mbind option_bind] in H.
  rewrite Hh in H. cbn [fmap option_fmap option_map] in H.
  rewrite decide_False in H by done.
  destruct H as (Hdrop & Hfiles & _ & _ & _ & _ & _ & H).
  split_and!; [done| | |].
  - rewrite (drop_lookup_same _ _ _ Hdrop), drop_lookup_unlink. by rewrite decide_True.
  - intros other Hne.
    rewrite (drop_lookup_same _ _ _ Hdrop), drop_lookup_unlink. by rewrite decide_False.
  - destruct (needs_action_writable w); [by destruct H as (? & _ & ?)|].
    destruct H as [? H]. split; [done|].
    destruct (needs_action_openable w); [|done].
    destruct H as [-> ->]. split; [done|set_solver].
Qed.


(** Whatever happens while the watcher runs, it forgets no digest and
    removes nothing from [Files] or [Needs_Action]. *)
Theorem run_only_adds (st : t Id * world) (events : list event) :
  only_adds st (run st events).
Proof.
  unfold run. revert st. induction events as [|e events IH]; intros st; [done|].
  cbn [foldl]. etrans; [apply only_adds_step|apply IH].
Qed.

End Watching.

(** On [one_drop] the second scan reports nothing. *)
Lemma rescan_of_one_drop :
  ∃ items self' self'',
    FileSystemWatcher.check_for_updates (fresh_watcher one_drop) one_drop
    = Some (items, self')
    ∧ FileSystemWatcher.check_for_updates self' one_drop = Some ([], self'')
    ∧ FileSystemWatcher.processed_hashes self''
      = FileSystemWatcher.processed_hashes self'.
Proof.
  destruct (FileSystemWatcher.check_for_updates (fresh_watcher one_drop) one_drop)
    as [[items self']|] eqn:H; [|by vm_compute in H].
  destruct (rescan_reports_nothing _ _ _ _ H) as (self'' & ? & ?).
  by exists items, self', self''.
Defined.

(** [report.pdf] is moved into [Files] and announced as a document. *)
Lemma process_file_on_one_drop :
  let r := FileSystemWatcher.process_file (fresh_watcher one_drop) (lit "report.pdf")
             one_drop in
  FileSystemWatcher.files r.2 = <[lit "report.pdf" := report_pdf]> ∅
  ∧ FileSystemWatcher.drop_lookup (lit "report.pdf") r.2 = None
  ∧ (FileSystemWatcher.a_file_type
       <$> FileSystemWatcher.needs_action r.2 !! lit "FILE_report_2026-01-15.md")
    = Some (lit "document").
Proof.
  intros r.
  destruct (process_file_moves_new_content (fresh_watcher one_drop) (lit "report.pdf")
              one_drop report_pdf (lit "900150983cd24fb0d6963f7d28e17f72")
              eq_refl eq_refl (not_elem_of_empty _)) as (H1 & H2 & _ & H3).
  split_and!; [exact H1|exact H2|].
  change (FileSystemWatcher.needs_action_writable one_drop) with true in H3.
  cbv iota in H3. destruct H3 as [H3 _]. fold r in H3. rewrite H3.
  vm_compute. reflexivity.
Defined.


Section PeriodicCheck.
Context {Id : Type} {Id_eq : EqDecision Id} {Id_set : PySet Id} {Id_json : Json Id}.
Implicit Types (self : FileSystemWatcher.t Id) (w : FileSystemWatcher.world).
Implicit Types (f g : file) (h name source : pystr).
Import FileSystemWatcher.

(** In a folder whose entries have distinct names, an entry is found under
    its name. *)
Lemma drop_lookup_entry w (entries : list file) f :
  drop_folder w = Dir entries → NoDup (f_name <$> entries) → f ∈ entries →
  drop_lookup (f_name f) w = Some f.
Proof.
  unfold drop_lookup. intros -> Hnd Hf.
  induction entries as [|g entries IH]; [by apply elem_of_nil in Hf|].
  rewrite find_cons. rewrite fmap_cons in Hnd. apply NoDup_cons in Hnd as [Hg Hnd].
  apply elem_of_cons in Hf as [->|Hf]; [by rewrite decide_True|].
  rewrite decide_False; [by apply IH|].
  intros Heq. apply Hg. rewrite Heq. by apply list_elem_of_fmap_2.
Qed.

(** Processing files whose digests are registered changes nothing. *)
Lemma process_registered_files (items : list pystr) self w :
  (∀ name, name ∈ items →
     ∃ f h, drop_lookup name w = Some f ∧ f_md5 f = Some h ∧ h ∈ processed_hashes self) →
  let r := foldl (λ '(self, w) it, process_file self it w) (self, w) items in
  r.2 = w ∧ processed_hashes r.1 = processed_hashes self.
Proof.
  revert self. induction items as [|it items IH]; intros self Hitems; [done|].
  cbn [foldl]. pose proof (process_file_spec self it w) as H. cbn zeta in H.
  destruct (Hitems it) as (f & h & Hf & Hh & Hin); [by left|].
  rewrite Hf in H. cbn [mbind option_bind] in H.
  rewrite Hh in H. cbn [fmap option_fmap option_map] in H.
  rewrite decide_True in H by done.
  destruct (process_file self it w) as [self' w']. cbn [fst snd] in H.
  destruct H as [-> Hsame].
  destruct (IH self') as [Hw Hhashes].
  { intros name Hname. destruct (Hitems name) as (g & k & ? & ? & ?); [by right|].
    exists g, k. by rewrite Hsame. }
  cbn zeta. by rewrite Hhashes.
Qed.

End PeriodicCheck.

(** A round of the periodic check over a drop folder whose entries have
    distinct names announces nothing: it registers the digests of the new
    files and then finds each of them registered, so that no action file is
    written, nothing is copied into [Files] and nothing leaves the drop
    folder. *)
Theorem periodic_check_materializes_nothing {Id} {Id_set : PySet Id} {Id_json : Json Id}
    (self : FileSystemWatcher.t Id) (w : FileSystemWatcher.world) :
  (∀ entries, FileSystemWatcher.drop_folder w = Dir entries → NoDup (f_name <$> entries)) →
  let r := FileSystemWatcher.periodic_check self w in
  FileSystemWatcher.needs_action r.2 = FileSystemWatcher.needs_action w
  ∧ FileSystemWatcher.files r.2 = FileSystemWatcher.files w
  ∧ FileSystemWatcher.drop_folder r.2 = FileSystemWatcher.drop_folder w.
Proof.
  intros Hnames. cbn zeta. unfold FileSystemWatcher.periodic_check.
  destruct (FileSystemWatcher.check_for_updates self w) as [[items self1]|] eqn:Hc;
    [|done].
  assert (let r := foldl (λ '(self, w) it, FileSystemWatcher.process_file self it w)
                     (FileSystemWatcher.logger INFO
                        (lit "Periodic check found " ++ str_nat (length items)
                         ++ lit " file(s)") None self1, w) items in
          r.2 = w) as Hfold.
  { apply process_registered_files. intros name Hname.
    revert Hc. unfold FileSystemWatcher.check_for_updates.
    destruct (FileSystemWatcher.drop_folder w) as [| |entries] eqn:Hd; [|done|].
    { intros [= <- <-]. by apply elem_of_nil in Hname. }
    destruct (check_entries_spec entries ([], self)) as (new & Hnew & Hfrom & _ & _ & Hall).
    intros [= Heq]. rewrite Heq in Hnew, Hall. cbn [fst snd app] in Hnew, Hall. subst new.
    destruct (Hfrom name Hname) as (f & h & Hf & <- & Hcand & Hh & _).
    exists f, h. split_and!; [|done|by eapply Hall].
    eapply drop_lookup_entry; [done|by apply Hnames|done]. }
  cbn zeta in Hfold.
  destruct items as [|it items].
  - unfold FileSystemWatcher._save_state.
    by destruct (BaseWatcher._save_state _ _ _).
  - destruct (foldl _ _ (it :: items)) as [self2 w2]. cbn [snd] in Hfold. subst w2.
    unfold FileSystemWatcher._save_state.
    by destruct (BaseWatcher._save_state _ _ _).
Qed.

(** On [twin_drops] a round of the periodic check leaves both files in the
    drop folder and [Needs_Action] empty. *)
Lemma periodic_check_on_twin_drops :
  let r := FileSystemWatcher.periodic_check (Id_set := ordered_int) (Id_json := int_json)
             (fresh_watcher twin_drops) twin_drops in
  FileSystemWatcher.needs_action r.2 = ∅
  ∧ FileSystemWatcher.files r.2 = ∅
  ∧ FileSystemWatcher.drop_folder r.2 = Dir [report_pdf; copy_pdf].
Proof.
  apply (periodic_check_materializes_nothing (Id_set := ordered_int) (Id_json := int_json)
           (fresh_watcher twin_drops) twin_drops).
  intros entries [= <-]. vm_compute. by repeat constructor; set_solver.
Defined.

(** *** The batch ([get_pending_items], [process_pending_items], [trigger_qwen]) *)

Section Queue.
Import Orchestrator.
Implicit Types (e : env) (st : state) (f g : file) (l : list file).

Lemma insert_by_mtime_sorted f l :
  Sorted older_first l → Sorted older_first (insert_by_mtime f l).
Proof.
  induction 1 as [|g l Hl IH Hhd]; cbn [insert_by_mtime].
  { by repeat constructor. }
  destruct (Z.ltb_spec (f_mtime g) (f_mtime f)).
  - constructor; [done|].
    destruct l as [|g' l]; cbn [insert_by_mtime] in *.
    + constructor. unfold older_first. lia.
    + destruct (Z.ltb_spec (f_mtime g') (f_mtime f)); constructor.
      * by inversion Hhd.
      * unfold older_first. lia.
  - constructor; [by constructor|]. by constructor.
Qed.

Lemma sorted_by_mtime_sorted l : Sorted older_first (sorted_by_mtime l).
Proof.
  induction l as [|f l IH]; cbn; [constructor|]. by apply insert_by_mtime_sorted.
Qed.

(** The sort is stable: files of one modification time keep their order. *)
Lemma insert_by_mtime_stable (t : Z) f l :
  filter (λ g, f_mtime g = t) (insert_by_mtime f l)
  = filter (λ g, f_mtime g = t) (f :: l).
Proof.
  induction l as [|g l IH]; cbn [insert_by_mtime]; [done|].
  destruct (Z.ltb_spec (f_mtime g) (f_mtime f)); [|done].
  rewrite filter_cons, IH, !filter_cons.
  repeat case_decide; (done || lia).
Qed.

Lemma sorted_by_mtime_stable (t : Z) l :
  filter (λ g, f_mtime g = t) (sorted_by_mtime l) = filter (λ g, f_mtime g = t) l.
Proof.
  induction l as [|f l IH]; [done|]. cbn [sorted_by_mtime foldr].
  rewrite insert_by_mtime_stable, !filter_cons. fold (sorted_by_mtime l).
  by rewrite IH.
Qed.

End Queue.

(** [get_pending_items] reads and changes nothing.  When [Needs_Action] is
    missing it returns the empty list; when the folder cannot be listed it
    raises; otherwise it returns the entries with suffix [.md] that are not
    in [processed_files], each as often as it is listed, oldest first, those
    of one modification time in listing order. *)
Theorem get_pending_items_oldest_first st :
  (Orchestrator.get_pending_items st).2 = st
  ∧ match Orchestrator.needs_action (Orchestrator.fs st),
          (Orchestrator.get_pending_items st).1 with
    | NoDir, Orchestrator.Ok pending => pending = []
    | Unreadable, Orchestrator.Raise _ => True
    | Dir entries, Orchestrator.Ok pending =>
        let waiting :=
          filter (λ f, Orchestrator.is_md f
                       && bool_decide (f_name f ∉ Orchestrator.processed_files st))
            entries in
        pending ≡ₚ waiting
        ∧ Sorted older_first pending
        ∧ ∀ t, filter (λ g, f_mtime g = t) pending = filter (λ g, f_mtime g = t) waiting
    | _, _ => False
    end.
Proof.
  rewrite get_pending_items_eq. split; [done|]. cbn [fst]. unfold pending_of.
  destruct (Orchestrator.needs_action (Orchestrator.fs st)) as [| |entries]; [done..|].
  cbn zeta. split_and!.
  - apply sorted_by_mtime_perm.
  - apply sorted_by_mtime_sorted.
  - intros t. apply sorted_by_mtime_stable.
Qed.

(** When nothing is pending, [process_pending_items] does not run the
    agent: whatever the agent is, the method returns, and the vault, the
    working directory and [processed_files] are as before; one DEBUG record
    is logged. *)
Theorem nothing_pending_no_dispatch e e' st :
  (Orchestrator.get_pending_items st).1 = Orchestrator.Ok [] →
  let r := Orchestrator.process_pending_items e st in
  r = Orchestrator.process_pending_items e' st
  ∧ r.1 = Orchestrator.Ok tt
  ∧ Orchestrator.fs r.2 = Orchestrator.fs st
  ∧ Orchestrator.cwd r.2 = Orchestrator.cwd st
  ∧ Orchestrator.processed_files r.2 = Orchestrator.processed_files st
  ∧ Orchestrator.log r.2
    = Orchestrator.log st ++ [Log DEBUG (lit "No pending items to process") None].
Proof.
  intros Hp. rewrite get_pending_items_eq in Hp. cbn [fst] in Hp.
  cbn zeta. unfold Orchestrator.process_pending_items.
  cbv [mbind Orchestrator.M_bind Orchestrator.bind Orchestrator.enter Orchestrator.modify].
  rewrite !get_pending_items_eq. cbn [Orchestrator.fs Orchestrator.processed_files].
  rewrite Hp. done.
Qed.

(** An orchestrator just started on an empty vault has nothing pending. *)
Lemma nothing_pending_on_empty_vault :
  let r := Orchestrator.process_pending_items (agent_exiting 0) (started empty_vault) in
  r = Orchestrator.process_pending_items (agent_raising OtherError) (started empty_vault)
  ∧ r.1 = Orchestrator.Ok tt
  ∧ Orchestrator.fs r.2 = Orchestrator.fs (started empty_vault)
  ∧ Orchestrator.cwd r.2 = Orchestrator.cwd (started empty_vault)
  ∧ Orchestrator.processed_files r.2 = Orchestrator.processed_files (started empty_vault)
  ∧ Orchestrator.log r.2
    = Orchestrator.log (started empty_vault)
      ++ [Log DEBUG (lit "No pending items to process") None].
Proof.
  exact (nothing_pending_no_dispatch (agent_exiting 0) (agent_raising OtherError)
           (started empty_vault) eq_refl).
Defined.

(** [trigger_qwen] appends between one and three records to the log, and
    none of their messages is longer than 516 characters, however much the
    agent prints. *)
Theorem trigger_qwen_log_is_bounded e prompt st :
  ∃ added,
    Orchestrator.log (Orchestrator.trigger_qwen e prompt st).2
    = Orchestrator.log st ++ added
    ∧ 1 ≤ length added ≤ 3
    ∧ Forall (λ r, length (lr_msg r) ≤ 516) added.
Proof.
  cbv [Orchestrator.trigger_qwen Orchestrator.try_except mbind Orchestrator.M_bind
       Orchestrator.bind mret Orchestrator.M_ret Orchestrator.ret Orchestrator.get
       Orchestrator.modify Orchestrator.logger Orchestrator.chdir
       Orchestrator.subprocess_run Orchestrator.raise].
  cbn [Orchestrator.cwd Orchestrator.vault_path Orchestrator.fs Orchestrator.set_cwd
       Orchestrator.set_fs Orchestrator.log].
  destruct (Orchestrator.qwen e (Orchestrator.qwen_cmd prompt) 300
              (Orchestrator.vault_path st) (Orchestrator.fs st))
    as [[returncode stdout stderr|[]] v];
    repeat case_decide;
    cbn [fst snd Orchestrator.log Orchestrator.set_cwd Orchestrator.set_fs];
    rewrite <- ?(assoc_L (++)); eexists; (split; [reflexivity|]);
    (split; [simpl; lia|]);
    repeat (apply Forall_cons; split; [|]); try apply Forall_nil;
    cbn [lr_msg]; rewrite ?length_app, ?length_take;
    repeat match goal with
           | |- context [length (lit ?s)] =>
               let n := eval vm_compute in (length (lit s)) in
               change (length (lit s)) with n
           end; lia.
Qed.

(** *** The prompt ([process_pending_items], [trigger_qwen]) *)

(** The prompt handed to the agent states the size of the batch and names
    every file of it, each in an item of the list. *)
Theorem prompt_names_every_file (pending : list file) (f : file) :
  f ∈ pending →
  let prompt := Orchestrator.full_prompt (Orchestrator.manifest pending) in
  Orchestrator.qwen_cmd (Orchestrator.manifest pending) !! 2 = Some prompt
  ∧ str_contains (lit "- " ++ f_name f) prompt = true
  ∧ str_contains (lit "I have " ++ str_nat (length pending) ++ lit " new item(s)") prompt
    = true.
Proof.
  intros Hf prompt. destruct (full_prompt_lists_batch pending) as [Hsize Hnames].
  split_and!; [done|by apply Hnames|exact Hsize].
Qed.

(** The prompt for the batch of [two_waiting] names [report_md]. *)
Lemma prompt_names_report_md :
  str_contains (lit "- FILE_report_2026-01-15.md")
    (Orchestrator.full_prompt (Orchestrator.manifest [report_md; invoice_md])) = true.
Proof.
  apply (prompt_names_every_file [report_md; invoice_md] report_md). by left.
Defined.

(** *** Rounds ([run], [check_approvals]) *)

Section Histories.
Import Orchestrator.
Context (R : relation state) `{!PreOrder R}.

Lemma evolves_ret {A} (a : A) : evolves R (mret a).
Proof. by intros st. Qed.

Lemma evolves_raise {A} (ex : exn) : evolves R (raise (A := A) ex).
Proof. by intros st. Qed.

Lemma evolves_get : evolves R get.
Proof. by intros st. Qed.

Lemma evolves_bind {A C} (m : M A) (k : A → M C) :
  evolves R m → (∀ a, evolves R (k a)) → evolves R (m ≫= k).
Proof.
  intros Hm Hk st. cbv [mbind M_bind bind].
  specialize (Hm st). destruct (m st) as [[a|ex] st1]; [|done].
  etrans; [exact Hm|apply Hk].
Qed.

Lemma evolves_try {A} (m : M A) (h : exn → M A) :
  evolves R m → (∀ ex, evolves R (h ex)) → evolves R (try_except m h).
Proof.
  intros Hm Hh st. unfold try_except.
  specialize (Hm st). destruct (m st) as [[a|ex] st1]; [done|].
  etrans; [exact Hm|apply Hh].
Qed.

Lemma evolves_modify (g : state → state) :
  (∀ st, R st (g st)) → evolves R (modify g).
Proof. intros Hg st. apply Hg. Qed.

Lemma evolves_keeps {A} (m : M A) : keeps id m → evolves R m.
Proof. intros Hm st. unfold keeps, id in Hm. by rewrite Hm. Qed.

End Histories.

Section Records.
Import Orchestrator.
Implicit Types (e : env) (st : state).

Global Instance history_preorder : PreOrder history.
Proof.
  split.
  - by intros st.
  - intros st1 st2 st3 (? & ? & ? & ? & ?) (? & ? & ? & ? & ?).
    split_and!; [by etrans..|congruence|congruence].
Qed.

Lemma history_append_log st (r : log_record) :
  history st (State (vault_path st) (check_interval st) (processed_files st)
                (log st ++ [r]) (calls st) (cwd st) (fs st)).
Proof. split_and!; [done| |done..]. by apply prefix_app_r. Qed.

Lemma history_logger lvl msg ex : evolves history (logger lvl msg ex).
Proof. intros st. apply history_append_log. Qed.

Lemma history_enter (c : call) : evolves history (enter c).
Proof. intros st. split_and!; [done..| |done|done]. by apply prefix_app_r. Qed.

Lemma history_sleep (n : nat) : evolves history (sleep n).
Proof. apply history_enter. Qed.

Lemma history_chdir (d : pystr) : evolves history (chdir d).
Proof. by intros st. Qed.

Lemma history_set_fs (v : vault) : evolves history (modify (set_fs v)).
Proof. by intros st. Qed.

Lemma history_write_dashboard (text : pystr) : evolves history (write_dashboard text).
Proof. by intros st. Qed.

Lemma history_keeps {A} (m : M A) : keeps id m → evolves history m.
Proof. apply evolves_keeps, _. Qed.

Lemma history_mark (pending : list file) :
  evolves history
    (modify (λ st, set_processed_files
                     (foldl (λ s f, {[f_name f]} ∪ s) (processed_files st) pending) st)).
Proof.
  intros st. split_and!; [|done..]. cbn [snd modify set_processed_files processed_files].
  intros x Hx. apply elem_of_marked. by left.
Qed.

End Records.

Create HintDb history.
Global Hint Resolve history_logger history_enter history_sleep history_chdir
  history_set_fs history_write_dashboard history_mark : history.

(** Breaks a goal about the history of a method down along its structure. *)
Ltac history_tac :=
  repeat first
    [ solve [auto 1 with history nocore]
    | apply history_keeps; solve [keeps_tac]
    | apply (evolves_bind history) | apply (evolves_try history)
    | progress intros
    | match goal with
      | |- evolves _ (match ?x with _ => _ end) => destruct x
      | |- evolves _ (let (_, _) := ?x in _) => destruct x
      end ].

Section Rounds.
Import Orchestrator.
Implicit Types (e : env) (st : state) (prompt : pystr).

Lemma history_update_dashboard e : evolves history (update_dashboard e).
Proof. unfold update_dashboard. history_tac. Qed.

Lemma history_trigger_qwen e prompt : evolves history (trigger_qwen e prompt).
Proof. unfold trigger_qwen, subprocess_run. history_tac. Qed.

Lemma history_process_pending_items e : evolves history (process_pending_items e).
Proof.
  unfold process_pending_items. history_tac.
Qed.

Lemma history_check_approvals : evolves history check_approvals.
Proof.
  unfold check_approvals. history_tac.
  induction (filter _ _) as [|item items IH]; simpl; history_tac.
Qed.

Lemma history_run_cycle e : evolves history (run_cycle e).
Proof.
  unfold run_cycle, cycle_body.
  pose proof history_update_dashboard. pose proof history_process_pending_items.
  pose proof history_check_approvals.
  repeat first [ done | apply (evolves_bind history) | apply (evolves_try history)
               | progress intros | solve [auto 1 with history nocore]
               | apply history_keeps; solve [keeps_tac] ].
Qed.

(** A round of [run] never raises; it refreshes the dashboard once, at
    its start, and sleeps once, at its end. *)
Lemma run_cycle_calls e st :
  (run_cycle e st).1 = Ok tt
  ∧ ∃ cs, calls (run_cycle e st).2 = calls st ++ cs
          ∧ length (filter is_sleep cs) = 1
          ∧ length (filter is_refresh cs) = 1.
Proof.
  split.
  { unfold run_cycle. by apply try_except_returns. }
  pose proof (calls_update_dashboard e st) as Hc1.
  pose proof (update_dashboard_returns e st) as Hr1.
  unfold run_cycle, cycle_body, try_except.
  cbv [mbind M_bind bind].
  destruct (update_dashboard e st) as [r1 st1]. cbn [fst snd] in *. subst r1.
  pose proof (calls_process_pending_items e st1) as Hc2.
  destruct (process_pending_items e st1) as [[[]|ex2] st2]; cbn [fst snd] in *.
  - pose proof (calls_check_approvals st2) as Hc3.
    destruct (check_approvals st2) as [[[]|ex3] st3]; cbn [fst snd] in *.
    + cbv [get sleep enter modify logger]. cbn [calls snd].
      rewrite Hc3, Hc2, Hc1, <- !(assoc_L (++)). by eexists.
    + cbv [get sleep enter modify logger]. cbn [calls snd].
      rewrite Hc3, Hc2, Hc1, <- !(assoc_L (++)). by eexists.
  - cbv [get sleep enter modify logger]. cbn [calls snd].
    rewrite Hc2, Hc1, <- !(assoc_L (++)). by eexists.
Qed.

End Rounds.

(** [n] rounds of [run] never raise, whatever the methods do; they refresh
    the dashboard [n] times and sleep [n] times. *)
Theorem run_never_raises e (n : nat) st :
  (Orchestrator.run e n st).1 = Orchestrator.Ok tt
  ∧ ∃ added,
      Orchestrator.calls (Orchestrator.run e n st).2 = Orchestrator.calls st ++ added
      ∧ length (filter is_sleep added) = n
      ∧ length (filter is_refresh added) = n.
Proof.
  revert st. induction n as [|n IH]; intros st.
  { split; [done|]. exists []. by rewrite app_nil_r. }
  cbn [Orchestrator.run]. cbv [mbind Orchestrator.M_bind Orchestrator.bind].
  destruct (run_cycle_calls e st) as (Hr & cs & Hcs & Hsleep & Hrefresh).
  destruct (Orchestrator.run_cycle e st) as [r st1]. cbn [fst snd] in *. subst r.
  destruct (IH st1) as (Hr' & added & Hadded & Hsleep' & Hrefresh').
  split; [done|]. exists (cs ++ added).
  rewrite Hadded, Hcs, <- (assoc_L (++)), !filter_app, !length_app. split; [done|lia].
Qed.

(** Over any number of rounds of [run], whether the methods return or
    raise, no name leaves [processed_files], the log and the record of calls
    are only appended to, and the vault path and the interval stay. *)
Theorem run_keeps_history e (n : nat) st : history st (Orchestrator.run e n st).2.
Proof.
  revert st. induction n as [|n IH]; intros st; [done|].
  cbn [Orchestrator.run]. apply (evolves_bind history); [apply history_run_cycle|].
  intros _ st'. apply IH.
Qed.

Section Approvals.
Import Orchestrator.
Implicit Types (st : state).

(** The loop of [check_approvals] logs one record for each item. *)
Lemma log_each_approved (items : list file) st :
  foldr (λ item k, logger INFO (lit "Approved item ready: " ++ f_name item) None ≫= λ _, k)
    (mret tt) items st
  = (Ok tt,
     State (vault_path st) (check_interval st) (processed_files st)
       (log st ++ ((λ f, Log INFO (lit "Approved item ready: " ++ f_name f) None) <$> items))
       (calls st) (cwd st) (fs st)).
Proof.
  revert st. induction items as [|item items IH]; intros st; cbn [foldr fmap list_fmap].
  - rewrite app_nil_r. by destruct st.
  - cbv [mbind M_bind bind logger modify]. rewrite IH.
    cbn [vault_path check_interval processed_files log calls cwd fs].
    by rewrite <- (assoc_L (++)).
Qed.

End Approvals.

(** [check_approvals] acts on nothing: the vault, [processed_files] and the
    working directory are as before.  It logs one INFO record for each
    entry of [Approved] with suffix [.md], in listing order; it returns
    without logging when the folder is missing and raises when the folder
    cannot be listed. *)
Theorem check_approvals_only_logs st :
  let r := Orchestrator.check_approvals st in
  Orchestrator.fs r.2 = Orchestrator.fs st
  ∧ Orchestrator.processed_files r.2 = Orchestrator.processed_files st
  ∧ Orchestrator.cwd r.2 = Orchestrator.cwd st
  ∧ match Orchestrator.approved (Orchestrator.fs st) with
    | NoDir => r.1 = Orchestrator.Ok tt ∧ Orchestrator.log r.2 = Orchestrator.log st
    | Unreadable =>
        r.1 = Orchestrator.Raise OtherError ∧ Orchestrator.log r.2 = Orchestrator.log st
    | Dir entries =>
        r.1 = Orchestrator.Ok tt
        ∧ Orchestrator.log r.2
          = Orchestrator.log st
            ++ ((λ f, Log INFO (lit "Approved item ready: " ++ f_name f) None)
                  <$> filter (λ f, Orchestrator.is_md f = true) entries)
    end.
Proof.
  cbn zeta. unfold Orchestrator.check_approvals.
  cbv [mbind Orchestrator.M_bind Orchestrator.bind Orchestrator.enter Orchestrator.modify
       Orchestrator.get].
  cbn [Orchestrator.fs].
  destruct (Orchestrator.approved (Orchestrator.fs st)) as [| |entries];
    cbn [Orchestrator.exists_ negb Orchestrator.iterdir]; [done|done|].
  cbv [Orchestrator.ret]. rewrite log_each_approved. done.
Qed.

Section SingleCycle.
Import Orchestrator.
Implicit Types (e : env) (st : state).

(** [process_pending_items] raises when [Needs_Action] cannot be listed,
    and only then. *)
Lemma process_pending_items_result e st :
  (process_pending_items e st).1
  = match needs_action (fs st) with Unreadable => Raise OtherError | _ => Ok tt end.
Proof.
  unfold process_pending_items.
  cbv [mbind M_bind bind enter modify]. rewrite get_pending_items_eq.
  cbn [fs processed_files]. unfold pending_of.
  destruct (needs_action (fs st)) as [| |entries]; [done..|].
  destruct (sorted_by_mtime _) as [|f pending]; [done|].
  cbv [logger modify].
  match goal with
  | |- context [trigger_qwen e ?p ?s] =>
      pose proof (trigger_qwen_spec e p s) as (Hr & _ & _);
      destruct (trigger_qwen e p s) as [res st2]
  end.
  cbn [fst] in Hr. rewrite Hr. by destruct (succeeded _).
Qed.

(** [check_approvals] raises when [Approved] cannot be listed, and only
    then. *)
Lemma check_approvals_result st :
  (check_approvals st).1
  = match approved (fs st) with Unreadable => Raise OtherError | _ => Ok tt end.
Proof.
  unfold check_approvals. cbv [mbind M_bind bind enter modify get]. cbn [fs].
  destruct (approved (fs st)) as [| |entries]; cbn [exists_ negb iterdir]; [done..|].
  cbv [ret]. by rewrite log_each_approved.
Qed.

Lemma needs_action_update_dashboard e st :
  needs_action (fs (update_dashboard e st).2) = needs_action (fs st).
Proof.
  rewrite fs_update_dashboard. unfold refreshed.
  destruct (dashboard (fs st)); [done..|]. by repeat case_match.
Qed.

End SingleCycle.

(** [run_once] has no handler of its own: it raises when [Needs_Action]
    cannot be listed, or when [Approved] cannot be listed once the batch has
    been dispatched, and returns otherwise. *)
Theorem run_once_raises_on_unlistable_folder e st :
  let dispatched :=
    (Orchestrator.process_pending_items e (Orchestrator.update_dashboard e st).2).2 in
  (Orchestrator.run_once e st).1
  = match Orchestrator.needs_action (Orchestrator.fs st),
          Orchestrator.approved (Orchestrator.fs dispatched) with
    | Unreadable, _ | _, Unreadable => Orchestrator.Raise OtherError
    | _, _ => Orchestrator.Ok tt
    end.
Proof.
  cbn zeta. unfold Orchestrator.run_once.
  cbv [mbind Orchestrator.M_bind Orchestrator.bind].
  pose proof (update_dashboard_returns e st) as Hr1.
  pose proof (needs_action_update_dashboard e st) as Hn1.
  destruct (Orchestrator.update_dashboard e st) as [r1 st1]. cbn [fst snd] in *. subst r1.
  pose proof (process_pending_items_result e st1) as Hr2. rewrite Hn1 in Hr2.
  destruct (Orchestrator.process_pending_items e st1) as [r2 st2]. cbn [fst snd] in *.
  subst r2.
  destruct (Orchestrator.needs_action (Orchestrator.fs st)) as [| |entries]; [|done|].
  all: pose proof (check_approvals_result st2) as Hr3.
  all: destruct (Orchestrator.check_approvals st2) as [r3 st3]; cbn [fst snd] in *; subst r3.
  all: pose proof (update_dashboard_returns e st3) as Hr4.
  all: destruct (Orchestrator.approved (Orchestrator.fs st2)); [|done|].
  all: by destruct (Orchestrator.update_dashboard e st3).
Qed.

(** *** The dashboard, line by line ([update_dashboard]) *)

(** [update_dashboard] never raises and changes nothing but the dashboard:
    the folders it counts, [processed_files] and the working directory are
    as before, and a dashboard that is missing or cannot be decoded is left
    as it is. *)
Theorem update_dashboard_touches_dashboard_only e st :
  let r := Orchestrator.update_dashboard e st in
  r.1 = Orchestrator.Ok tt
  ∧ Orchestrator.set_dashboard (Orchestrator.dashboard (Orchestrator.fs st))
      (Orchestrator.fs r.2) = Orchestrator.fs st
  ∧ Orchestrator.processed_files r.2 = Orchestrator.processed_files st
  ∧ Orchestrator.cwd r.2 = Orchestrator.cwd st
  ∧ match Orchestrator.dashboard (Orchestrator.fs st) with
    | Orchestrator.Doc _ => True
    | missing => Orchestrator.dashboard (Orchestrator.fs r.2) = missing
    end.
Proof.
  cbn zeta. split_and!.
  - apply update_dashboard_returns.
  - rewrite fs_update_dashboard. unfold refreshed.
    destruct (Orchestrator.fs st) as [na pl dn pa ap d]. cbn [Orchestrator.dashboard].
    destruct d; [done..|]. repeat case_match; done.
  - revert st. change (keeps Orchestrator.processed_files (Orchestrator.update_dashboard e)).
    unfold Orchestrator.update_dashboard. keeps_tac.
  - revert st. change (keeps Orchestrator.cwd (Orchestrator.update_dashboard e)).
    unfold Orchestrator.update_dashboard. keeps_tac.
  - rewrite fs_update_dashboard. unfold refreshed.
    by destruct (Orchestrator.dashboard (Orchestrator.fs st)) eqn:Hd.
Qed.


Section Regions.
Import Orchestrator.
Implicit Types (line : pystr) (stats pre old mid rest lines : list pystr).

(** Once the block has been replaced, a further marker line closes the
    output: nothing after it is kept. *)
Lemma scan_after stats nl (ls : list pystr) :
  foldl (scan_line stats) (Scan nl true true) ls = Scan nl true true.
Proof.
  induction ls as [|l ls IH]; [done|]. cbn [foldl].
  unfold scan_line at 2. cbn [in_stats stats_replaced new_lines].
  by destruct (is_marker l); rewrite ?andb_false_r; cbn [negb].
Qed.

Lemma is_separator_not_marker line : is_separator line = true → is_marker line = false.
Proof.
  unfold is_separator, is_marker. intros ->%bool_decide_eq_true.
  by apply bool_decide_eq_false.
Qed.

(** Where the fall-back inserts the block: after the first separator line
    past the sixth line. *)
Lemma find_separator_spec (i : nat) lines :
  match find_separator i lines with
  | Some k =>
      5 < k ∧ i ≤ k
      ∧ (∃ l, lines !! (k - i) = Some l ∧ is_separator l = true)
      ∧ ∀ j l, 5 < i + j → i + j < k → lines !! j = Some l → is_separator l = false
  | None => ∀ j l, 5 < i + j → lines !! j = Some l → is_separator l = false
  end.
Proof.
  revert i. induction lines as [|line lines IH]; intros i; cbn [find_separator].
  { by intros j l _ ?. }
  destruct (is_separator line) eqn:Hsep; cbn [andb].
  - case_bool_decide as Hi.
    + split_and!; [done|done| |intros; lia].
      exists line. by rewrite Nat.sub_diag.
    + specialize (IH (S i)). destruct (find_separator (S i) lines) as [k|].
      * destruct IH as (? & ? & (l & Hl & ?) & Hbefore). split_and!; [done|lia| |].
        -- exists l. split; [|done]. by replace (k - i) with (S (k - S i)) by lia.
        -- intros [|j] l'; [lia|]. cbn. intros. eapply (Hbefore j); [lia..|done].
      * intros [|j] l; [lia|]. cbn. intros. eapply (IH j); [lia|done].
  - specialize (IH (S i)). destruct (find_separator (S i) lines) as [k|].
    + destruct IH as (? & ? & (l & Hl & ?) & Hbefore). split_and!; [done|lia| |].
      * exists l. split; [|done]. by replace (k - i) with (S (k - S i)) by lia.
      * intros [|j] l'; cbn; [by intros _ _ [= <-]|].
        intros. eapply (Hbefore j); [lia..|done].
    + intros [|j] l; cbn; [by intros _ [= <-]|]. intros. eapply (IH j); [lia|done].
Qed.

(** The loop over a document with a stats region. *)
Lemma scan_region stats pre old mid rest (m sp : pystr) :
  no_marker pre → is_marker m = true →
  Forall (λ l, is_separator l = false) old →
  is_separator sp = true → no_marker mid →
  match rest with [] => True | m2 :: _ => is_marker m2 = true end →
  foldl (scan_line stats) (Scan [] false false) (pre ++ m :: old ++ sp :: mid ++ rest)
  = Scan (pre ++ stats ++ mid) (if rest is [] then false else true) true.
Proof.
  intros Hpre Hm Hold Hsp Hmid Hrest.
  rewrite foldl_app, scan_no_marker by done. cbn [foldl app].
  unfold scan_line at 2. rewrite Hm. cbn [new_lines in_stats stats_replaced].
  rewrite foldl_app, scan_inside by done. cbn [foldl].
  unfold scan_line at 2. rewrite (is_separator_not_marker sp), Hsp by done.
  cbn [new_lines in_stats stats_replaced andb negb].
  rewrite foldl_app, scan_no_marker, <- (assoc_L (++)) by done.
  destruct rest as [|m2 tail]; cbn [foldl]; [done|].
  unfold scan_line at 2. rewrite Hrest. cbn [new_lines in_stats stats_replaced].
  by rewrite scan_after.
Qed.

End Regions.

(** A dashboard with a stats region: lines without a marker, a marker line,
    lines without a separator, a separator line, lines without a marker and
    then either the end or a second marker line and whatever follows it.
    [update_dashboard] writes back the lines before the region, the new
    block and the lines after the region; the second marker line and all
    that follows it are dropped. *)
Theorem replace_stats_keeps_surroundings (stats pre old mid rest : list pystr)
    (m sp : pystr) :
  forallb no_eol (pre ++ m :: old ++ sp :: mid ++ rest) = true →
  no_marker pre → Orchestrator.is_marker m = true →
  Forall (λ l, Orchestrator.is_separator l = false) old →
  Orchestrator.is_separator sp = true → no_marker mid →
  match rest with [] => True | m2 :: _ => Orchestrator.is_marker m2 = true end →
  Orchestrator.replace_stats stats (str_join 10 (pre ++ m :: old ++ sp :: mid ++ rest))
  = str_join 10 (pre ++ stats ++ mid).
Proof.
  intros Hlines Hpre Hm Hold Hsp Hmid Hrest. unfold Orchestrator.replace_stats.
  rewrite str_split_join; [|by destruct pre|done].
  by rewrite scan_region.
Qed.

(** A dashboard with a second marker line after its notes: that line and
    the line [lost] after it are dropped. *)
Lemma replace_stats_drops_after_second_marker :
  Orchestrator.replace_stats (Orchestrator.stats_lines 2 0 1)
    (str_join 10 ([lit "# Dashboard"] ++ Orchestrator.stats_marker :: [lit "| old |"]
                  ++ lit "---" :: [lit "## Notes"]
                  ++ [Orchestrator.stats_marker; lit "lost"]))
  = str_join 10 ([lit "# Dashboard"] ++ Orchestrator.stats_lines 2 0 1 ++ [lit "## Notes"]).
Proof.
  apply replace_stats_keeps_surroundings.
  - reflexivity.
  - by repeat constructor.
  - reflexivity.
  - by repeat constructor.
  - reflexivity.
  - by repeat constructor.
  - reflexivity.
Defined.

(** A dashboard without a stats region: lines without a marker and then
    either the end or a marker line followed by lines without a separator.
    The marker line and what follows it are dropped; the new block is
    inserted after the first separator line that comes after the sixth
    line, and nowhere when there is no such line. *)
Theorem replace_stats_without_region (stats pre dropped : list pystr) :
  pre ++ dropped ≠ [] → forallb no_eol (pre ++ dropped) = true → no_marker pre →
  match dropped with
  | [] => True
  | m :: old => Orchestrator.is_marker m = true
                ∧ Forall (λ l, Orchestrator.is_separator l = false) old
  end →
  match Orchestrator.find_separator 0 pre with
  | Some i =>
      5 < i
      ∧ (∃ l, pre !! i = Some l ∧ Orchestrator.is_separator l = true)
      ∧ (∀ j l, 5 < j < i → pre !! j = Some l → Orchestrator.is_separator l = false)
      ∧ Orchestrator.replace_stats stats (str_join 10 (pre ++ dropped))
        = str_join 10 (take (S i) pre ++ stats ++ drop (S i) pre)
  | None =>
      (∀ j l, 5 < j → pre !! j = Some l → Orchestrator.is_separator l = false)
      ∧ Orchestrator.replace_stats stats (str_join 10 (pre ++ dropped))
        = str_join 10 pre
  end.
Proof.
  intros Hne Hlines Hpre Hdropped.
  assert (foldl (Orchestrator.scan_line stats) (Orchestrator.Scan [] false false)
            (pre ++ dropped)
          = Orchestrator.Scan pre (if dropped is [] then false else true) false) as Hscan.
  { rewrite foldl_app, scan_no_marker by done. cbn [app].
    destruct dropped as [|m old]; [done|]. destruct Hdropped as [Hm Hold].
    cbn [foldl]. unfold Orchestrator.scan_line at 2. rewrite Hm.
    cbn [Orchestrator.new_lines Orchestrator.in_stats Orchestrator.stats_replaced].
    by rewrite scan_inside. }
  unfold Orchestrator.replace_stats. rewrite str_split_join, Hscan by done.
  cbn [Orchestrator.stats_replaced Orchestrator.new_lines].
  pose proof (find_separator_spec 0 pre) as Hfind.
  destruct (Orchestrator.find_separator 0 pre) as [i|].
  - destruct Hfind as (? & _ & Hl & Hbefore). rewrite Nat.sub_0_r in Hl.
    split_and!; [done|done| |done].
    intros j l [? ?]. by apply Hbefore.
  - split; [|done]. intros j l ?. by apply Hfind.
Qed.

(** A dashboard of three lines without a marker is written back as it is. *)
Lemma replace_stats_on_short_dashboard :
  Orchestrator.replace_stats (Orchestrator.stats_lines 2 0 1)
    (str_join 10 ([lit "# Dashboard"; lit "---"; lit "## Notes"] ++ []))
  = str_join 10 [lit "# Dashboard"; lit "---"; lit "## Notes"].
Proof.
  apply (replace_stats_without_region (Orchestrator.stats_lines 2 0 1)
           [lit "# Dashboard"; lit "---"; lit "## Notes"] []).
  - done.
  - reflexivity.
  - by repeat constructor.
  - done.
Defined.

(** *** The command line ([main]) *)

(** Started with [--once] as its only argument, [main] takes the flag for
    the vault path: it never falls back to the vault beside the script, and
    unless a path named [--once] exists it exits with status 1. *)
Theorem once_flag_alone_names_the_vault (p : Orchestrator.process) (prog : pystr) :
  Orchestrator.argv p = [prog; lit "--once"] →
  let named := Orchestrator.expanduser p (lit "--once") in
  match (Orchestrator.main p).2 with
  | Orchestrator.RunOnce v => v = named ∧ Orchestrator.path_exists p named = true
  | Orchestrator.Run _ => False
  | Orchestrator.SysExit code => code = 1 ∧ Orchestrator.path_exists p named = false
  | Orchestrator.Uncaught ex =>
      Orchestrator.qwen_version p = Orchestrator.Raised ex ∧ ex ≠ FileNotFoundError
  end.
Proof.
  intros Hargv named. unfold Orchestrator.main. rewrite Hargv. fold named.
  destruct (Orchestrator.path_exists p named); cbn [negb snd]; [|done].
  rewrite bool_decide_eq_true_2 by set_solver.
  destruct (Orchestrator.qwen_version p) as [returncode out err|[]];
    repeat case_decide; done.
Qed.

(** The vault beside the script exists, and [main] exits all the same. *)
Lemma once_flag_alone_exits :
  Orchestrator.path_exists once_only (Orchestrator.default_vault once_only) = true
  ∧ (Orchestrator.main once_only).2 = Orchestrator.SysExit 1.
Proof.
  split; [reflexivity|].
  pose proof (once_flag_alone_names_the_vault once_only (lit "orchestrator.py") eq_refl)
    as H.
  cbn zeta in H. destruct (Orchestrator.main once_only).2 as [code|ex|v|v].
  - by destruct H as [-> _].
  - destruct H as [H _]. by vm_compute in H.
  - destruct H as [_ H]. by vm_compute in H.
  - done.
Defined.
